(** * pandapower [pd2ppc]: the ppc -> ppci compiler and the zero-sequence
    synthesizer, embedded in Rocq.

    The embedding follows [src/pandapower/pd2ppc.py].  Conventions:

    - a two-dimensional numpy array is the [list] of its rows, a row being a
      record with one field per column the code names ([BUS_I], [GEN_BUS],
      ...); a table of a case is such an array or the empty one-dimensional
      array of [_init_ppc] ([table]);
    - a Python [str] is the [string] of its UTF-8 encoding;
    - columns that hold bus ids, bus-type tags and status flags are integers
      stored in a float (or complex) array; they are kept as [Z] here, so
      [np.real(..).astype(int)] is the identity on them;
    - [float64] values are exact rationals [Q], [complex128] values are pairs
      of rationals (rounding is not modelled; division by zero follows [Q],
      theorems that depend on a quotient state the divisor as nonzero);
    - a raised Python exception is the [Err] result of the [res] monad;
    - functions of other modules of the package (the [aux] helpers, the
      branch builders) and of numpy whose result is not fixed by their
      contract ([argsort]) are section variables. *)

From Stdlib Require Import Ascii String ZArith QArith Qround List Lia Lra.
From stdpp Require Import base option list gmap strings pretty sorting.

Local Open Scope Z_scope.

(** ** Exceptions and results *)

Inductive error : Type :=
| KeyError (key : string)
| IndexError (msg : string)
| ValueError (msg : string)
| TypeError (msg : string)
| UnboundLocalError (name : string).

Inductive res (A : Type) : Type :=
| Ok (a : A)
| Err (e : error).
Arguments Ok {A} a.
Arguments Err {A} e.

#[global] Instance res_ret : MRet res := fun A a => Ok a.
#[global] Instance res_bind : MBind res :=
  fun A B f m => match m with Ok a => f a | Err e => Err e end.

Definition is_Err {A} (r : res A) : Prop := exists e, r = Err e.

(** [d[key]] on a Python dict. *)
Definition dict_get {V} (key : string) (d : gmap string V) : res V :=
  match d !! key with
  | Some v => Ok v
  | None => Err (KeyError key)
  end.

(** ** numpy indexing on one axis *)

Module np.

(** Position of index [i] in an axis of length [n]: negative indices count
    from the end, anything outside [-n, n) is an [IndexError]. *)
Definition norm_index (n : nat) (i : Z) : option nat :=
  if bool_decide (0 <= i < Z.of_nat n) then Some (Z.to_nat i)
  else if bool_decide (- Z.of_nat n <= i < 0) then Some (Z.to_nat (Z.of_nat n + i))
  else None.

Definition out_of_bounds : error := IndexError "index is out of bounds".
Definition shape_mismatch : error := ValueError "shape mismatch".
Definition mask_mismatch : error :=
  IndexError "boolean index did not match indexed array".

(** [a[i]] *)
Definition getitem {A} (a : list A) (i : Z) : res A :=
  match norm_index (length a) i with
  | Some k => match a !! k with Some x => Ok x | None => Err out_of_bounds end
  | None => Err out_of_bounds
  end.

(** [a[i] = x] *)
Definition setitem {A} (a : list A) (i : Z) (x : A) : res (list A) :=
  match norm_index (length a) i with
  | Some k => Ok (<[k:=x]> a)
  | None => Err out_of_bounds
  end.

(** [a[idx]] for an integer index array. *)
Fixpoint take {A} (a : list A) (idx : list Z) : res (list A) :=
  match idx with
  | [] => Ok []
  | i :: idx' => x ← getitem a i; xs ← take a idx'; mret (x :: xs)
  end.

(** [a[idx] = vals] for an integer index array: the values are stored one
    after the other, so a repeated index keeps the last value. *)
Fixpoint put {A} (a : list A) (idx : list Z) (vals : list A) : res (list A) :=
  match idx, vals with
  | [], [] => Ok a
  | i :: idx', v :: vals' => a' ← setitem a i v; put a' idx' vals'
  | _, _ => Err shape_mismatch
  end.

(** [a[mask]] for a boolean mask. *)
Fixpoint select {A} (mask : list bool) (a : list A) : list A :=
  match mask, a with
  | m :: mask', x :: a' => if m then x :: select mask' a' else select mask' a'
  | _, _ => []
  end.

(** The length of the mask is checked against the axis only when the mask is
    not empty: an empty mask selects no row of any array. *)
Definition compress {A} (mask : list bool) (a : list A) : res (list A) :=
  if bool_decide (length mask = length a) then Ok (select mask a)
  else match mask with
       | [] => Ok []
       | _ :: _ => Err mask_mismatch
       end.

(** [np.arange(n)], [np.zeros(n, dtype=int)], [-np.ones(n, dtype=int)] *)
Definition arange (n : nat) : list Z := map Z.of_nat (seq 0 n).
Definition zeros (n : nat) : list Z := replicate n 0.
Definition minus_ones (n : nat) : list Z := replicate n (-1).

(** [a[start:stop]] for [0 <= start], [0 <= stop]. *)
Definition slice {A} (a : list A) (start stop : nat) : list A :=
  firstn (stop - start) (skipn start a).

(** [np.sum(mask)] *)
Definition count (mask : list bool) : nat := length (filter (fun b => b = true) mask).

(** [tbl[:, COL] = vals]: one value per row. *)
Definition set_column {A V} (set : V -> A -> A) (vals : list V) (tbl : list A)
  : res (list A) :=
  if bool_decide (length vals = length tbl) then Ok (zip_with set vals tbl)
  else Err shape_mismatch.

(** [tbl[idx, COL] = vals] and [tbl[idx, COL] = v]. *)
Fixpoint put_column {A V} (set : V -> A -> A) (tbl : list A) (idx : list Z)
    (vals : list V) : res (list A) :=
  match idx, vals with
  | [], [] => Ok tbl
  | i :: idx', v :: vals' =>
      r ← getitem tbl i; tbl' ← setitem tbl i (set v r); put_column set tbl' idx' vals'
  | _, _ => Err shape_mismatch
  end.

Definition fill_column {A V} (set : V -> A -> A) (tbl : list A) (idx : list Z)
    (v : V) : res (list A) :=
  put_column set tbl idx (replicate (length idx) v).

End np.

(** ** Complex numbers with rational parts *)

Record C : Type := mkC { re : Q; im : Q }.

Definition CofQ (x : Q) : C := mkC x 0.
Definition Cadd (x y : C) : C := mkC (re x + re y) (im x + im y).
Definition Csub (x y : C) : C := mkC (re x - re y) (im x - im y).
Definition Cmul (x y : C) : C :=
  mkC (re x * re y - im x * im y) (re x * im y + im x * re y).
Definition Cdiv (x y : C) : C :=
  let d := (re y * re y + im y * im y)%Q in
  mkC ((re x * re y + im x * im y) / d) ((im x * re y - re x * im y) / d).

(** [x == y], and numpy's order on complex numbers: by real part, then by
    imaginary part. *)
Definition Ceqb (x y : C) : bool := Qeq_bool (re x) (re y) && Qeq_bool (im x) (im y).
Definition Qltb (x y : Q) : bool := negb (Qle_bool y x).
Definition Cgtb (x y : C) : bool :=
  Qltb (re y) (re x) || (Qeq_bool (re x) (re y) && Qltb (im y) (im x)).
Definition Cltb (x y : C) : bool := Cgtb y x.

(** [int(x)]: truncation towards zero. *)
Definition Qtrunc (x : Q) : Z := Z.quot (Qnum x) (Z.pos (Qden x)).

(** ** The case container *)

(** A table of a case: a two-dimensional array, given by its rows, or the
    empty one-dimensional array [np.array([])] that [_init_ppc] puts in its
    place until a builder has written the table. *)
Inductive table (A : Type) : Type :=
| Flat
| Rows (rows : list A).
Arguments Flat {A}.
Arguments Rows {A} rows.

Definition rows_of {A} (t : table A) : list A :=
  match t with
  | Flat => []
  | Rows rows => rows
  end.

Definition too_many_indices : error := IndexError "too many indices for array".

(** [t[..., COL]]: indexing a column needs two dimensions. *)
Definition two_dim {A} (t : table A) : res (list A) :=
  match t with
  | Flat => Err too_many_indices
  | Rows rows => Ok rows
  end.

(** [t[mask]] on the first axis. *)
Definition compress_table {A} (mask : list bool) (t : table A) : res (table A) :=
  match t with
  | Flat => _ ← np.compress mask (@nil A); mret Flat
  | Rows rows => rows' ← np.compress mask rows; mret (Rows rows')
  end.

(** A function of the rows, on a table. *)
Definition on_rows {A} (f : list A -> list A) (t : table A) : table A :=
  match t with
  | Flat => Flat
  | Rows rows => Rows (f rows)
  end.

(** Column values of [idx_bus]: the bus type that marks a bus as isolated. *)
Definition NONE : Z := 4.

Record bus_row : Type := mk_bus {
  BUS_I : Z; BUS_TYPE : Z; GS : Q; BS : Q; BASE_KV : Q; C_MAX : Q; C_MIN : Q }.

Record branch_row : Type := mk_branch {
  F_BUS : Z; T_BUS : Z; BR_R : C; BR_X : C; BR_B : C;
  TAP : C; SHIFT : C; BR_STATUS : Z }.

Record gen_row : Type := mk_gen { GEN_BUS : Z; GEN_STATUS : Z; PG : Q; VG : Q }.

Record area_row : Type := mk_area { AREA_I : Z; PRICE_REF_BUS : Z }.

Definition set_BUS_I (v : Z) (r : bus_row) : bus_row :=
  mk_bus v (BUS_TYPE r) (GS r) (BS r) (BASE_KV r) (C_MAX r) (C_MIN r).
Definition set_BUS_TYPE (v : Z) (r : bus_row) : bus_row :=
  mk_bus (BUS_I r) v (GS r) (BS r) (BASE_KV r) (C_MAX r) (C_MIN r).
Definition set_GS (v : Q) (r : bus_row) : bus_row :=
  mk_bus (BUS_I r) (BUS_TYPE r) v (BS r) (BASE_KV r) (C_MAX r) (C_MIN r).
Definition set_BS (v : Q) (r : bus_row) : bus_row :=
  mk_bus (BUS_I r) (BUS_TYPE r) (GS r) v (BASE_KV r) (C_MAX r) (C_MIN r).

Definition set_F_BUS (v : Z) (r : branch_row) : branch_row :=
  mk_branch v (T_BUS r) (BR_R r) (BR_X r) (BR_B r) (TAP r) (SHIFT r) (BR_STATUS r).
Definition set_T_BUS (v : Z) (r : branch_row) : branch_row :=
  mk_branch (F_BUS r) v (BR_R r) (BR_X r) (BR_B r) (TAP r) (SHIFT r) (BR_STATUS r).
Definition set_BR_R (v : C) (r : branch_row) : branch_row :=
  mk_branch (F_BUS r) (T_BUS r) v (BR_X r) (BR_B r) (TAP r) (SHIFT r) (BR_STATUS r).
Definition set_BR_X (v : C) (r : branch_row) : branch_row :=
  mk_branch (F_BUS r) (T_BUS r) (BR_R r) v (BR_B r) (TAP r) (SHIFT r) (BR_STATUS r).
Definition set_BR_B (v : C) (r : branch_row) : branch_row :=
  mk_branch (F_BUS r) (T_BUS r) (BR_R r) (BR_X r) v (TAP r) (SHIFT r) (BR_STATUS r).
Definition set_TAP (v : C) (r : branch_row) : branch_row :=
  mk_branch (F_BUS r) (T_BUS r) (BR_R r) (BR_X r) (BR_B r) v (SHIFT r) (BR_STATUS r).
Definition set_SHIFT (v : C) (r : branch_row) : branch_row :=
  mk_branch (F_BUS r) (T_BUS r) (BR_R r) (BR_X r) (BR_B r) (TAP r) v (BR_STATUS r).
Definition set_BR_STATUS (v : Z) (r : branch_row) : branch_row :=
  mk_branch (F_BUS r) (T_BUS r) (BR_R r) (BR_X r) (BR_B r) (TAP r) (SHIFT r) v.

Definition set_GEN_BUS (v : Z) (r : gen_row) : gen_row :=
  mk_gen v (GEN_STATUS r) (PG r) (VG r).
Definition set_PRICE_REF_BUS (v : Z) (r : area_row) : area_row :=
  mk_area (AREA_I r) v.

(** [ppc["internal"]]: the cache the solver fills, with the two in-service
    masks. *)
Record internal_t : Type := mk_internal {
  Ybus : list C; Yf : list C; Yt : list C;
  branch_is : list bool; gen_is : list bool;
  DLF : list C; buses_ord_bfs_nets : list Q }.

Definition set_gen_is (v : list bool) (c : internal_t) : internal_t :=
  mk_internal (Ybus c) (Yf c) (Yt c) (branch_is c) v (DLF c) (buses_ord_bfs_nets c).
Definition set_branch_is (v : list bool) (c : internal_t) : internal_t :=
  mk_internal (Ybus c) (Yf c) (Yt c) v (gen_is c) (DLF c) (buses_ord_bfs_nets c).

(** The registered callbacks of [ppci["userfcn"]] are named, [run_userfcn]
    (pypower) runs them. *)
Definition userfcn_t : Type := list string.

(** A case (a [ppc] or [ppci] dict).  The keys [areas], [dcline], [userfcn],
    [sequence] and [gencost] may be absent. *)
Record case : Type := mk_case_arr {
  baseMVA : Q; version : Z;
  bus_arr : table bus_row; branch_arr : table branch_row; gen_arr : table gen_row;
  internal : internal_t;
  areas : option (list area_row);
  dcline : option (list (list Q));
  userfcn : option userfcn_t;
  sequence : option Z;
  gencost : option (list (list Q)) }.

(** The rows of the three tables. *)
Definition bus (c : case) : list bus_row := rows_of (bus_arr c).
Definition branch (c : case) : list branch_row := rows_of (branch_arr c).
Definition gen (c : case) : list gen_row := rows_of (gen_arr c).

(** A case with two-dimensional tables. *)
Definition mk_case (baseMVA : Q) (version : Z) (bus : list bus_row)
    (branch : list branch_row) (gen : list gen_row) (internal : internal_t)
    (areas : option (list area_row)) (dcline : option (list (list Q)))
    (userfcn : option userfcn_t) (sequence : option Z)
    (gencost : option (list (list Q))) : case :=
  mk_case_arr baseMVA version (Rows bus) (Rows branch) (Rows gen) internal areas
    dcline userfcn sequence gencost.

Definition set_bus_arr (v : table bus_row) (c : case) : case :=
  mk_case_arr (baseMVA c) (version c) v (branch_arr c) (gen_arr c) (internal c)
    (areas c) (dcline c) (userfcn c) (sequence c) (gencost c).
Definition set_branch_arr (v : table branch_row) (c : case) : case :=
  mk_case_arr (baseMVA c) (version c) (bus_arr c) v (gen_arr c) (internal c)
    (areas c) (dcline c) (userfcn c) (sequence c) (gencost c).
Definition set_gen_arr (v : table gen_row) (c : case) : case :=
  mk_case_arr (baseMVA c) (version c) (bus_arr c) (branch_arr c) v (internal c)
    (areas c) (dcline c) (userfcn c) (sequence c) (gencost c).
Definition set_bus (v : list bus_row) (c : case) : case := set_bus_arr (Rows v) c.
Definition set_branch (v : list branch_row) (c : case) : case :=
  set_branch_arr (Rows v) c.
Definition set_gen (v : list gen_row) (c : case) : case := set_gen_arr (Rows v) c.
Definition set_internal (v : internal_t) (c : case) : case :=
  mk_case_arr (baseMVA c) (version c) (bus_arr c) (branch_arr c) (gen_arr c) v
    (areas c) (dcline c) (userfcn c) (sequence c) (gencost c).
Definition set_areas (v : option (list area_row)) (c : case) : case :=
  mk_case_arr (baseMVA c) (version c) (bus_arr c) (branch_arr c) (gen_arr c)
    (internal c) v (dcline c) (userfcn c) (sequence c) (gencost c).
Definition set_dcline (v : option (list (list Q))) (c : case) : case :=
  mk_case_arr (baseMVA c) (version c) (bus_arr c) (branch_arr c) (gen_arr c)
    (internal c) (areas c) v (userfcn c) (sequence c) (gencost c).
Definition set_sequence (v : option Z) (c : case) : case :=
  mk_case_arr (baseMVA c) (version c) (bus_arr c) (branch_arr c) (gen_arr c)
    (internal c) (areas c) (dcline c) (userfcn c) v (gencost c).
Definition set_gencost (v : option (list (list Q))) (c : case) : case :=
  mk_case_arr (baseMVA c) (version c) (bus_arr c) (branch_arr c) (gen_arr c)
    (internal c) (areas c) (dcline c) (userfcn c) (sequence c) v.

(** ** The network model *)

(** A row of [net.trafo] (the columns the zero-sequence synthesizer reads). *)
Record trafo_row : Type := mk_trafo {
  vector_group : string;
  vsc_percent : Q; vscr_percent : Q; sn_kva : Q;
  vsc0_percent : Q; vscr0_percent : Q;
  lv_bus : Z; hv_bus : Z;
  mag0_percent : Q; mag0_rx : Q; si0_hv_partial : Q;
  parallel : Q; in_service : bool }.

(** A row of [net.line]. *)
Record line_row : Type := mk_line {
  length_km : Q; line_parallel : Q; from_bus : Z; to_bus : Z;
  r0_ohm_per_km : Q; x0_ohm_per_km : Q; c0_nf_per_km : Q;
  line_in_service : bool }.

(** [net.ext_grid]: the index, the [bus] column and the numeric columns by
    name (a column may be absent). *)
Record ext_grid_df : Type := mk_ext_grid {
  eg_index : list Z; eg_bus : list Z; eg_cols : gmap string (list Q) }.

Record net_t : Type := mk_net {
  (* net["_pd2ppc_lookups"][element], element other than "branch" *)
  lookups : gmap string (list Z);
  (* net["_pd2ppc_lookups"]["branch"] *)
  branch_lookup : gmap string (nat * nat);
  (* net["_is_elements"]: boolean masks, and the tables of controllable elements
     (by their index) *)
  is_mask : gmap string (list bool);
  is_controllable : gmap string (list Z);
  ext_grid : ext_grid_df;
  gen_index : list Z;
  trafo : list trafo_row;
  line : list line_row;
  (* net["_options"] *)
  opt_mode : string;
  opt_case : option string;
  opt_check_connectivity : bool;
  opt_recycle_Ybus : bool;
  net_sn_kva : Q;
  f_hz : Q;
  (* net["_ppc"], net["_ppc0"], ... *)
  stored_ppc : gmap string case;
  isolated_buses : list Z;
  is_elements_final : option (gmap string (list bool) * gmap string (list Z)) }.

Definition set_lookups (v : gmap string (list Z)) (n : net_t) : net_t :=
  mk_net v (branch_lookup n) (is_mask n) (is_controllable n) (ext_grid n)
    (gen_index n) (trafo n) (line n) (opt_mode n) (opt_case n)
    (opt_check_connectivity n) (opt_recycle_Ybus n) (net_sn_kva n) (f_hz n)
    (stored_ppc n) (isolated_buses n) (is_elements_final n).
Definition set_stored_ppc (v : gmap string case) (n : net_t) : net_t :=
  mk_net (lookups n) (branch_lookup n) (is_mask n) (is_controllable n) (ext_grid n)
    (gen_index n) (trafo n) (line n) (opt_mode n) (opt_case n)
    (opt_check_connectivity n) (opt_recycle_Ybus n) (net_sn_kva n) (f_hz n)
    v (isolated_buses n) (is_elements_final n).
Definition set_is_elements (m : gmap string (list bool)) (c : gmap string (list Z))
    (n : net_t) : net_t :=
  mk_net (lookups n) (branch_lookup n) m c (ext_grid n)
    (gen_index n) (trafo n) (line n) (opt_mode n) (opt_case n)
    (opt_check_connectivity n) (opt_recycle_Ybus n) (net_sn_kva n) (f_hz n)
    (stored_ppc n) (isolated_buses n) (is_elements_final n).

Definition set_branch_lookup (v : gmap string (nat * nat)) (n : net_t) : net_t :=
  mk_net (lookups n) v (is_mask n) (is_controllable n) (ext_grid n)
    (gen_index n) (trafo n) (line n) (opt_mode n) (opt_case n)
    (opt_check_connectivity n) (opt_recycle_Ybus n) (net_sn_kva n) (f_hz n)
    (stored_ppc n) (isolated_buses n) (is_elements_final n).
Definition set_isolated_buses (v : list Z) (n : net_t) : net_t :=
  mk_net (lookups n) (branch_lookup n) (is_mask n) (is_controllable n) (ext_grid n)
    (gen_index n) (trafo n) (line n) (opt_mode n) (opt_case n)
    (opt_check_connectivity n) (opt_recycle_Ybus n) (net_sn_kva n) (f_hz n)
    (stored_ppc n) v (is_elements_final n).
Definition set_is_elements_final
    (v : option (gmap string (list bool) * gmap string (list Z))) (n : net_t) : net_t :=
  mk_net (lookups n) (branch_lookup n) (is_mask n) (is_controllable n) (ext_grid n)
    (gen_index n) (trafo n) (line n) (opt_mode n) (opt_case n)
    (opt_check_connectivity n) (opt_recycle_Ybus n) (net_sn_kva n) (f_hz n)
    (stored_ppc n) (isolated_buses n) v.

(** [aux._write_lookup_to_net(net, element, lookup)]:
    [net["_pd2ppc_lookups"][element] = lookup]. *)
Definition _write_lookup_to_net (net : net_t) (element : string) (lookup : list Z)
  : net_t :=
  set_lookups (<[element := lookup]> (lookups net)) net.

(** ** Lookup tables *)

(** [a[mask] = vals]: the values go to the positions where the mask holds, in
    order. *)
Fixpoint place {A} (mask : list bool) (a vals : list A) : list A :=
  match mask, a with
  | m :: mask', x :: a' =>
      if m then
        match vals with
        | v :: vals' => v :: place mask' a' vals'
        | [] => x :: place mask' a' []
        end
      else x :: place mask' a' vals
  | _, _ => a
  end.

Definition _update_lookup_entries (net : net_t) (lookup e2i : list Z)
    (element : string) : res (net_t * list Z) :=
  let valid_bus_lookup_entries := map (fun v => bool_decide (0 <= v)) lookup in
  (* update entries *)
  new ← np.take e2i (np.select valid_bus_lookup_entries lookup);
  let lookup := place valid_bus_lookup_entries lookup new in
  mret (_write_lookup_to_net net element lookup, lookup).

(** [net[element].index.values] for the two tables masked in
    [_build_gen_lookups]. *)
Definition index_values (net : net_t) (element : string) : res (list Z) :=
  if bool_decide (element = "ext_grid") then Ok (eg_index (ext_grid net))
  else if bool_decide (element = "gen") then Ok (gen_index net)
  else Err (KeyError element).

(** Python's [max] of a sequence. *)
Definition py_max (l : list Z) : res Z :=
  match l with
  | [] => Err (ValueError "max() arg is an empty sequence")
  | x :: l' => Ok (fold_left Z.max l' x)
  end.

Definition _build_gen_lookups (net : net_t) (element : string)
    (ppc_start_index ppc_end_index : nat) (sort_gens : list Z) : res net_t :=
  (* get buses from pandapower and ppc *)
  pandapower_index ←
    (if bool_decide (element ∈ ["sgen_controllable"; "load_controllable";
                                 "storage_controllable"])
     then dict_get element (is_controllable net)
     else
       idx ← index_values net element;
       mask ← dict_get element (is_mask net);
       np.compress mask idx);
  let ppc_index := np.slice sort_gens ppc_start_index ppc_end_index in
  (* init lookup *)
  m ← py_max pandapower_index;
  lookup ←
    (if bool_decide (0 <= m + 1) then Ok (np.minus_ones (Z.to_nat (m + 1)))
     else Err (ValueError "negative dimensions are not allowed"));
  (* update lookup *)
  lookup ← np.put lookup pandapower_index ppc_index;
  mret (_write_lookup_to_net net element lookup).

(** ** The renumbering and filtering engine *)

(** Lines 164-167: [oos_busses]: the buses whose type is [NONE]. *)
Definition oos_busses (tbl : list bus_row) : list bool :=
  map (fun b => bool_decide (BUS_TYPE b = NONE)) tbl.

Section Pd2ppc.

(** [np.argsort] with its default kind: the order it gives to equal keys is
    not part of its contract. *)
Variable argsort : list Z -> list Z.

(** [pypower.run_userfcn.run_userfcn]. *)
Variable run_userfcn : userfcn_t -> string -> case -> case.

(** [len(_is_elements[name]) + prev if name in _is_elements else prev] *)
Definition block_end (net : net_t) (name : string) (prev : nat) : nat :=
  match is_controllable net !! name with
  | Some tbl => (length tbl + prev)%nat
  | None => prev
  end.

(** [int_status & bs1 & bs2] on an integer and two booleans, then
    [.astype(bool)]. *)
Definition and_status (status : Z) (b1 b2 : bool) : bool :=
  negb (Z.land (Z.land status (Z.b2z b1)) (Z.b2z b2) =? 0).

(** Line 167: the bus table of the external case with the out-of-service
    buses at its end. *)
Definition reorder_bus (tbl : list bus_row) : res (list bus_row) :=
  is_bus ← np.compress (map negb (oos_busses tbl)) tbl;
  oos_bus ← np.compress (oos_busses tbl) tbl;
  mret (is_bus ++ oos_bus).

(** Lines 170-175: the lookup from the former bus ids to the consecutive
    order, built from the reordered bus table. *)
Definition make_e2i (ppc_bus : list bus_row) : res (list Z) :=
  let ppc_former_order := map BUS_I ppc_bus in
  let aranged_buses := np.arange (length ppc_bus) in
  np.put (np.zeros (length ppc_bus)) ppc_former_order aranged_buses.

Definition _ppc2ppci (ppc ppci : case) (net : net_t) : res (case * case * net_t) :=
  (* BUS Sorting and lookups *)
  (* get bus_lookup *)
  bus_lookup ← dict_get "bus" (lookups net);
  (* get OOS busses and place them at the end of the bus array *)
  _ ← two_dim (bus_arr ppc);
  ppci_bus ← np.compress (map negb (oos_busses (bus ppc))) (bus ppc);
  (* in ppc the OOS busses are included and at the end of the array *)
  ppc_bus ← reorder_bus (bus ppc);
  (* generate bus_lookup_ppc_ppci (ppc -> ppci lookup) *)
  let aranged_buses := np.arange (length ppc_bus) in
  (* lookup ppc former order -> consecutive order *)
  e2i ← make_e2i ppc_bus;
  (* save consecutive indices in ppc and ppci *)
  ppc_bus ← np.set_column set_BUS_I aranged_buses ppc_bus;
  ppci_bus ← np.set_column set_BUS_I
               (np.slice (map BUS_I ppc_bus) 0 (length ppci_bus)) ppci_bus;
  (* update lookups (pandapower -> ppci internal) *)
  '(net, bus_lookup) ← _update_lookup_entries net bus_lookup e2i "bus";
  let ppc_areas := match areas ppc with Some [] => None | a => a end in
  (* bus types *)
  let bt := map BUS_TYPE ppc_bus in
  (* update branch, gen and areas bus numbering *)
  _ ← two_dim (gen_arr ppc);
  gen_bus ← np.take e2i (map GEN_BUS (gen ppc));
  ppc_gen ← np.set_column set_GEN_BUS gen_bus (gen ppc);
  _ ← two_dim (branch_arr ppc);
  f_bus ← np.take e2i (map F_BUS (branch ppc));
  ppc_branch ← np.set_column set_F_BUS f_bus (branch ppc);
  t_bus ← np.take e2i (map T_BUS ppc_branch);
  ppc_branch ← np.set_column set_T_BUS t_bus ppc_branch;
  ppc_areas ←
    match ppc_areas with
    | Some ar =>
        ref_bus ← np.take e2i (map PRICE_REF_BUS ar);
        ar ← np.set_column set_PRICE_REF_BUS ref_bus ar;
        mret (Some ar)
    | None => mret None
    end;
  (* reorder gens (and gencosts) in order of increasing bus number *)
  let sort_gens := argsort (map GEN_BUS ppc_gen) in
  let new_gen_positions := np.arange (length sort_gens) in
  new_gen_positions ← np.put new_gen_positions sort_gens (np.arange (length sort_gens));
  ppc_gen ← np.take ppc_gen sort_gens;
  (* update gen lookups *)
  is_ext_grid ← dict_get "ext_grid" (is_mask net);
  let eg_end := np.count is_ext_grid in
  is_gen ← dict_get "gen" (is_mask net);
  let gen_end := (eg_end + np.count is_gen)%nat in
  let sgen_end := block_end net "sgen_controllable" gen_end in
  let load_end := block_end net "load_controllable" sgen_end in
  let storage_end := block_end net "storage_controllable" load_end in
  net ← (if bool_decide (0 < eg_end)%nat
         then _build_gen_lookups net "ext_grid" 0 eg_end new_gen_positions
         else mret net);
  net ← (if bool_decide (eg_end < gen_end)%nat
         then _build_gen_lookups net "gen" eg_end gen_end new_gen_positions
         else mret net);
  net ← (if bool_decide (gen_end < sgen_end)%nat
         then _build_gen_lookups net "sgen_controllable" gen_end sgen_end
                new_gen_positions
         else mret net);
  net ← (if bool_decide (sgen_end < load_end)%nat
         then _build_gen_lookups net "load_controllable" sgen_end load_end
                new_gen_positions
         else mret net);
  net ← (if bool_decide (load_end < storage_end)%nat
         then _build_gen_lookups net "storage_controllable" load_end storage_end
                new_gen_positions
         else mret net);
  (* determine which buses, branches, gens are connected and in-service *)
  let n2i := map BUS_I ppc_bus in
  let bs := map (fun t => negb (bool_decide (t = NONE))) bt in
  gen_host ← np.take n2i (map GEN_BUS ppc_gen);
  gen_bs ← np.take bs gen_host;
  let gs := zip_with andb (map (fun g => bool_decide (0 < GEN_STATUS g)) ppc_gen)
              gen_bs in
  let ppci_internal := set_gen_is gs (internal ppci) in
  f_host ← np.take n2i (map F_BUS ppc_branch);
  f_bs ← np.take bs f_host;
  t_host ← np.take n2i (map T_BUS ppc_branch);
  t_bs ← np.take bs t_host;
  let brs := zip_with (fun st b => and_status st b.1 b.2)
               (map BR_STATUS ppc_branch) (zip f_bs t_bs) in
  let ppci_internal := set_branch_is brs ppci_internal in
  ppci_areas ←
    match ppc_areas with
    | Some areas =>
        a_host ← np.take n2i (map PRICE_REF_BUS areas);
        ar ← np.take bs a_host;
        (* delete out of service areas *)
        a ← np.compress ar areas;
        mret (Some a)
    | None => mret (areas ppci)
    end;
  (* select in service elements from ppc and put them in ppci *)
  ppci_branch ← np.compress brs ppc_branch;
  ppci_gen ← np.compress gs ppc_gen;
  let ppci_dcline := match dcline ppc with Some d => Some d | None => dcline ppci end in
  let ppc :=
    set_areas ppc_areas (set_gen ppc_gen (set_branch ppc_branch (set_bus ppc_bus ppc))) in
  let ppci :=
    set_dcline ppci_dcline
      (set_gen ppci_gen (set_branch ppci_branch (set_areas ppci_areas
        (set_internal ppci_internal (set_bus ppci_bus ppci))))) in
  (* execute userfcn callbacks for 'ext2int' stage *)
  let ppci :=
    match userfcn ppci with
    | Some fcn => run_userfcn fcn "ext2int" ppci
    | None => ppci
    end in
  mret (ppc, ppci, net).





(** ** Building a case and the incremental updater *)

Definition empty_internal : internal_t := mk_internal [] [] [] [] [] [] [].

(** The key of [net] that holds the case of a sequence: ["_ppc"], or
    ["_ppc%s" % sequence]. *)
Definition ppc_key (sequence : option Z) : string :=
  match sequence with
  | None => "_ppc"
  | Some s => "_ppc" +:+ pretty s
  end.

Definition _init_ppc (net : net_t) (sequence : option Z) : net_t * case :=
  (* init empty ppc *)
  let ppc := mk_case_arr (net_sn_kva net * (1 # 1000)) 2 Flat Flat Flat
               empty_internal None None None None None in
  let ppc := match sequence with
             | None => ppc
             | Some s => set_sequence (Some s) ppc
             end in
  (set_stored_ppc (<[ppc_key sequence := ppc]> (stored_ppc net)) net, ppc).


(** The collaborators of [_update_ppc]: each rewrites the rows of one table
    of the case from the network tables. *)
Variable _select_is_elements_numba :
  net_t -> option (list Z) -> option Z ->
  gmap string (list bool) * gmap string (list Z).
Variable _calc_pq_elements_and_add_on_ppc :
  net_t -> option Z -> list bus_row -> list bus_row.
Variable _calc_shunts_and_add_on_ppc : net_t -> list bus_row -> list bus_row.
Variable _update_gen_ppc : net_t -> list gen_row -> list gen_row.
Variable _update_trafo_trafo3w_ppc : net_t -> list branch_row -> list branch_row.

Definition _update_ppc (net : net_t) (sequence : option Z)
  : res (net_t * case * case) :=
  (* select elements in service (time consuming, so we do it once) *)
  let '(m, c) := _select_is_elements_numba net None None in
  let net := set_is_elements m c net in
  let recycle_Ybus := opt_recycle_Ybus net in
  (* get the old ppc and lookup *)
  ppc ← dict_get (ppc_key sequence) (stored_ppc net);
  let ppci := ppc in
  (* adds P and Q for loads / sgens in ppc['bus'] (PQ nodes) *)
  let ppc :=
    set_bus_arr (on_rows (_calc_pq_elements_and_add_on_ppc net sequence) (bus_arr ppc))
      ppc in
  (* adds P and Q for shunts, wards and xwards (to PQ nodes) *)
  let ppc := set_bus_arr (on_rows (_calc_shunts_and_add_on_ppc net) (bus_arr ppc)) ppc in
  (* updates values for gen *)
  let ppc := set_gen_arr (on_rows (_update_gen_ppc net) (gen_arr ppc)) ppc in
  let ppc :=
    if recycle_Ybus then ppc
    else (* updates trafo and trafo3w values *)
      set_branch_arr (on_rows (_update_trafo_trafo3w_ppc net) (branch_arr ppc)) ppc in
  (* get OOS busses and place them at the end of the bus array *)
  _ ← two_dim (bus_arr ppc);
  let oos := oos_busses (bus ppc) in
  (* there are no OOS busses in the ppci *)
  ppci_bus ← np.compress (map negb oos) (bus ppc);
  (* select in service elements from ppc and put them in ppci *)
  let brs := branch_is (internal ppc) in
  let gs := gen_is (internal ppc) in
  ppci_branch ← compress_table brs (branch_arr ppc);
  ppci_gen ← compress_table gs (gen_arr ppc);
  let ppci :=
    set_gen_arr ppci_gen (set_branch_arr ppci_branch (set_bus ppci_bus ppci)) in
  let net := set_stored_ppc (<[ppc_key sequence := ppc]> (stored_ppc net)) net in
  mret (net, ppc, ppci).


(** ** The zero-sequence synthesizer *)

(** Operations between a complex and a real number, and a few numpy
    functions on rationals. *)
Definition Cmulq (q : Q) (z : C) : C := mkC (q * re z) (q * im z).
Definition Cdivq (z : C) (q : Q) : C := mkC (re z / q) (im z / q).
Definition np_square (x : Q) : Q := x * x.
Definition np_sign (x : Q) : Q :=
  if Qltb 0 x then 1 else if Qltb x 0 then (-1) else 0.
Definition b2q (b : bool) : Q := inject_Z (Z.b2z b).

(** [math.pi], the double. *)
Definition math_pi : Q := 884279719003555 # 281474976710656.

(** Elementwise operation on two arrays, with numpy's broadcasting of an
    array of length one. *)
Definition bcast (op : Q -> Q -> Q) (a b : list Q) : res (list Q) :=
  if bool_decide (length a = length b) then Ok (zip_with op a b)
  else match a, b with
       | [x], _ => Ok (map (op x) b)
       | _, [y] => Ok (map (fun x => op x y) a)
       | _, _ => Err (ValueError "operands could not be broadcast together")
       end.

(** Modelled from the spec: [aux._sum_by_group(bus, first_val, second_val)]
    is not in the sources.  Section 4.3: "accumulated shunt contributions
    across multiple transformers landing on the same bus are summed before
    being added once to that bus's shunt admittance row": the distinct buses in
    ascending order, each with the sum of its values. *)
Fixpoint add_to_group (b : Z) (g s : Q) (acc : list (Z * (Q * Q)))
  : list (Z * (Q * Q)) :=
  match acc with
  | [] => [(b, (g, s))]
  | (b', (g', s')) :: acc' =>
      if bool_decide (b = b') then (b', ((g' + g)%Q, (s' + s)%Q)) :: acc'
      else if bool_decide (b < b') then (b, (g, s)) :: acc
      else (b', (g', s')) :: add_to_group b g s acc'
  end.

Definition _sum_by_group (bus : list Z) (first_val second_val : list Q)
  : list Z * list Q * list Q :=
  let acc := fold_left (fun acc x => add_to_group x.1 x.2.1 x.2.2 acc)
               (zip bus (zip first_val second_val)) [] in
  (map fst acc, map (fun x => x.2.1) acc, map (fun x => x.2.2) acc).

(** [tbl[buses, COL] += vals] *)
Definition add_column (get : bus_row -> Q) (set : Q -> bus_row -> bus_row)
    (tbl : list bus_row) (buses : list Z) (vals : list Q) : res (list bus_row) :=
  old ← np.take (map get tbl) buses;
  new ← bcast Qplus old vals;
  np.put_column set tbl buses new.

(** [df.groupby(key)]: the groups in ascending order of their key, the rows
    of a group in the order of the table. *)
Fixpoint insert_group {A} (k : string) (x : A) (gs : list (string * list A))
  : list (string * list A) :=
  match gs with
  | [] => [(k, [x])]
  | (k', xs) :: gs' =>
      if String.eqb k k' then (k', xs ++ [x]) :: gs'
      else if String.ltb k k' then (k, [x]) :: gs
      else (k', xs) :: insert_group k x gs'
  end.

Definition groupby {A} (key : A -> string) (rows : list A) : list (string * list A) :=
  fold_left (fun gs x => insert_group (key x) x gs) rows [].

(** *** Characters of a [str]

    The code points of a UTF-8 encoded string: a byte below 128 is a
    character, a lead byte announces one, two or three continuation bytes
    with six bits each. *)
Fixpoint utf8_decode (bytes : list N) (pending : nat) (acc : N) : list N :=
  match bytes with
  | [] => []
  | b :: bytes' =>
      match pending with
      | S p =>
          let acc := (acc * 64 + b mod 64)%N in
          match p with
          | O => acc :: utf8_decode bytes' 0 0
          | S _ => utf8_decode bytes' p acc
          end
      | O =>
          if (b <? 128)%N then b :: utf8_decode bytes' 0 0
          else if (b <? 224)%N then utf8_decode bytes' 1 (b mod 32)
          else if (b <? 240)%N then utf8_decode bytes' 2 (b mod 16)
          else utf8_decode bytes' 3 (b mod 8)
      end
  end.

Definition code_points (s : string) : list N :=
  utf8_decode (map N_of_ascii (list_ascii_of_string s)) 0 0.

(** The code points [c] with [chr(c).isdigit()]: those of numeric type
    Decimal or Digit (Unicode 14.0, the table of CPython 3.11), as closed
    ranges. *)
Definition unicode_digits : list (N * N) :=
  [(48, 57); (178, 179); (185, 185); (1632, 1641); (1776, 1785); (1984, 1993);
   (2406, 2415); (2534, 2543); (2662, 2671); (2790, 2799); (2918, 2927);
   (3046, 3055); (3174, 3183); (3302, 3311); (3430, 3439); (3558, 3567);
   (3664, 3673); (3792, 3801); (3872, 3881); (4160, 4169); (4240, 4249);
   (4969, 4977); (6112, 6121); (6160, 6169); (6470, 6479); (6608, 6618);
   (6784, 6793); (6800, 6809); (6992, 7001); (7088, 7097); (7232, 7241);
   (7248, 7257); (8304, 8304); (8308, 8313); (8320, 8329); (9312, 9320);
   (9332, 9340); (9352, 9360); (9450, 9450); (9461, 9469); (9471, 9471);
   (10102, 10110); (10112, 10120); (10122, 10130); (42528, 42537); (43216, 43225);
   (43264, 43273); (43472, 43481); (43504, 43513); (43600, 43609); (44016, 44025);
   (65296, 65305); (66720, 66729); (68160, 68163); (68912, 68921); (69216, 69224);
   (69714, 69722); (69734, 69743); (69872, 69881); (69942, 69951); (70096, 70105);
   (70384, 70393); (70736, 70745); (70864, 70873); (71248, 71257); (71360, 71369);
   (71472, 71481); (71904, 71913); (72016, 72025); (72784, 72793); (73040, 73049);
   (73120, 73129); (92768, 92777); (92864, 92873); (93008, 93017); (120782, 120831);
   (123200, 123209); (123632, 123641); (125264, 125273); (127232, 127242);
   (130032, 130041)]%N.

(** [c.isdigit()] on a character. *)
Definition is_digit (c : N) : bool :=
  existsb (fun r : N * N => (r.1 <=? c)%N && (c <=? r.2)%N) unicode_digits.

(** [s[-1]] *)
Definition last_char (s : string) : option N := last (code_points s).

(** [s[-1].isdigit()] on a string. *)
Definition last_isdigit (s : string) : res bool :=
  match last_char s with
  | Some c => Ok (is_digit c)
  | None => Err (IndexError "string index out of range")
  end.

Definition phase_shift_msg (vector_group : string) : string :=
  "Unknown transformer vector group " +:+ vector_group +:+
  " - please specify vector group without phase shift number. " +:+
  "Phase shift can be specified in net.trafo.shift_degree".

Definition unknown_msg (vector_group : string) : string :=
  "Transformer vector group " +:+ vector_group +:+ " is unknown / not implemented".


Variable np_sqrt : Q -> Q.

(** The collaborators from [build_branch], row by row. *)
Variable _calc_tap_from_dataframe : net_t -> trafo_row -> Q * Q * Q.
Variable _calc_nominal_ratio_from_dataframe :
  case -> trafo_row -> Q -> Q -> list Z -> Q.
Variable _transformer_correction_factor : Q -> Q -> Q -> Q -> Q.
Variable _initialize_branch_lookup : net_t -> net_t * nat.

(** Lines 405-427 for one transformer: the zero-sequence short-circuit
    impedance [z0_k] and the magnetising impedance [z0_mag]. *)
Definition trafo_z0_k (net : net_t) (tr : trafo_row) (vn_trafo_lv vn_lv : Q)
    (cmax : option Q) : C :=
  let mode := opt_mode net in
  (* adjust for low voltage side voltage converter *)
  let tap_lv := if bool_decide (mode = "pf_3ph")
                then np_square (vn_trafo_lv / (vn_lv / np_sqrt 3))
                else np_square (vn_trafo_lv / vn_lv) in
  let z_sc := (vsc0_percent tr / 100 / sn_kva tr * tap_lv * net_sn_kva net)%Q in
  let r_sc := (vscr0_percent tr / 100 / sn_kva tr * tap_lv * net_sn_kva net)%Q in
  let x_sc := (np_sign z_sc * np_sqrt (z_sc * z_sc - r_sc * r_sc))%Q in
  let z0_k := Cdivq (mkC r_sc x_sc) (parallel tr) in
  match cmax with
  | Some cmax =>
      let kt := _transformer_correction_factor (vsc_percent tr) (vscr_percent tr)
                  (sn_kva tr) cmax in
      Cmulq kt z0_k
  | None => z0_k
  end.

Definition trafo_z0_mag (net : net_t) (tr : trafo_row) (vn_trafo_lv vn_lv : Q) : C :=
  let mode := opt_mode net in
  let tap_lv := if bool_decide (mode = "pf_3ph")
                then np_square (vn_trafo_lv / (vn_lv / np_sqrt 3))
                else np_square (vn_trafo_lv / vn_lv) in
  let z_sc := (vsc0_percent tr / 100 / sn_kva tr * tap_lv * net_sn_kva net)%Q in
  (* zero sequence transformer magnetising impedance *)
  let z_m := (z_sc * mag0_percent tr)%Q in
  let x_m := (z_m / np_sqrt (mag0_rx tr * mag0_rx tr + 1))%Q in
  let r_m := (x_m * mag0_rx tr)%Q in
  let r0_trafo_mag := (r_m / parallel tr)%Q in
  let x0_trafo_mag := (x_m / parallel tr)%Q in
  mkC r0_trafo_mag x0_trafo_mag.

(** The T model of a [YNyn] transformer converted to the pi model (lines
    448-455). *)
Definition pi_z1 (si0 : Q) (z0_k : C) : C := Cmulq si0 z0_k.
Definition pi_z2 (si0 : Q) (z0_k : C) : C := Cmulq (1 - si0) z0_k.
Definition pi_z_temp (si0 : Q) (z0_k z0_mag : C) : C :=
  let z1 := pi_z1 si0 z0_k in
  let z2 := pi_z2 si0 z0_k in
  let z3 := z0_mag in
  Cadd (Cadd (Cmul z1 z2) (Cmul z2 z3)) (Cmul z1 z3).
Definition pi_za (si0 : Q) (z0_k z0_mag : C) : C :=
  Cdiv (pi_z_temp si0 z0_k z0_mag) (pi_z2 si0 z0_k).
Definition pi_zb (si0 : Q) (z0_k z0_mag : C) : C :=
  Cdiv (pi_z_temp si0 z0_k z0_mag) (pi_z1 si0 z0_k).
Definition pi_zc (si0 : Q) (z0_k z0_mag : C) : C :=
  Cdiv (pi_z_temp si0 z0_k z0_mag) z0_mag.

(** The state of the loop over the vector groups: the branch table and the
    three accumulators. *)
Record zs_state : Type := mk_zs {
  zs_branch : list branch_row;
  buses_all : list Z; gs_all : list Q; bs_all : list Q }.

(** [y * in_service * int(ppc["baseMVA"])] and [y * in_service] on arrays. *)
Definition times_in_service (y : list Q) (in_service : list Z) : res (list Q) :=
  bcast Qmult y (map inject_Z in_service).

Definition times_in_service_base (y : list Q) (in_service : list Z) (base : Z)
  : res (list Q) :=
  v ← times_in_service y in_service;
  mret (map (fun x => x * inject_Z base)%Q v).

(** [np.hstack] on each of the three accumulators. *)
Definition hstack_shunt (st : zs_state) (buses : list Z) (g b : list Q) : zs_state :=
  mk_zs (zs_branch st) (buses_all st ++ buses) (gs_all st ++ g) (bs_all st ++ b).

(** One round of the loop at lines 461-486, for the pair [(za_tr, zb_tr)] of
    one transformer: the writes go to all the rows [ppc_idx] of the group and
    the accumulators receive the buses and the [in_service] column of the
    whole group. *)
Definition ynyn_round (ppc_idx lv_buses_ppc hv_buses_ppc in_service : list Z)
    (base : Z) (st : zs_state) (zab : C * C) : res zs_state :=
  let '(za_tr, zb_tr) := zab in
  if Ceqb za_tr zb_tr then
    let y := Cdiv (mkC 0 (-1)) za_tr in
    br ← np.fill_column set_BR_B (zs_branch st) ppc_idx y;
    let ys := CofQ 0 in
    g ← times_in_service_base [re ys] in_service base;
    b ← times_in_service_base [im ys] in_service base;
    mret (hstack_shunt (mk_zs br (buses_all st) (gs_all st) (bs_all st))
            lv_buses_ppc g b)
  else if Cgtb za_tr zb_tr then
    let y := Cdiv (mkC 0 (-1)) za_tr in
    br ← np.fill_column set_BR_B (zs_branch st) ppc_idx y;
    let zs := Cdiv (Cmul za_tr zb_tr) (Csub za_tr zb_tr) in
    let ys := Cdiv (CofQ 1) zs in
    g ← times_in_service_base [re ys] in_service base;
    b ← times_in_service_base [im ys] in_service base;
    mret (hstack_shunt (mk_zs br (buses_all st) (gs_all st) (bs_all st))
            hv_buses_ppc g b)
  else if Cltb za_tr zb_tr then
    let y := Cdiv (mkC 0 (-1)) zb_tr in
    br ← np.fill_column set_BR_B (zs_branch st) ppc_idx y;
    let zs := Cdiv (Cmul za_tr zb_tr) (Csub zb_tr za_tr) in
    let ys := Cdiv (CofQ 1) zs in
    g ← times_in_service_base [re ys] in_service base;
    b ← times_in_service_base [im ys] in_service base;
    mret (hstack_shunt (mk_zs br (buses_all st) (gs_all st) (bs_all st))
            lv_buses_ppc g b)
  else Ok st.

Fixpoint ynyn_loop (ppc_idx lv_buses_ppc hv_buses_ppc in_service : list Z)
    (base : Z) (st : zs_state) (zab : list (C * C)) : res zs_state :=
  match zab with
  | [] => Ok st
  | p :: zab' =>
      st ← ynyn_round ppc_idx lv_buses_ppc hv_buses_ppc in_service base st p;
      ynyn_loop ppc_idx lv_buses_ppc hv_buses_ppc in_service base st zab'
  end.

(** The body of the loop over the vector groups (lines 370-496); a row of
    the group is a transformer with its [_ppc_idx]. *)
Definition trafo_group (net : net_t) (ppc : case) (bus_lookup : list Z)
    (vector_group : string) (trafos : list (Z * trafo_row)) (st : zs_state)
  : res zs_state :=
  let mode := opt_mode net in
  let ppc_idx := map fst trafos in
  let rows := map snd trafos in
  br ← np.fill_column set_BR_STATUS (zs_branch st) ppc_idx 0;
  if bool_decide (vector_group ∈ ["Yy"; "Yd"; "Dy"; "Dd"])
  then Ok (mk_zs br (buses_all st) (gs_all st) (bs_all st))
  else
    lv_buses_ppc ← np.take bus_lookup (map lv_bus rows);
    hv_buses_ppc ← np.take bus_lookup (map hv_bus rows);
    let in_service := map (fun tr => Z.b2z (in_service tr)) rows in
    br ← np.put_column set_F_BUS br ppc_idx hv_buses_ppc;
    br ← np.put_column set_T_BUS br ppc_idx lv_buses_ppc;
    let taps := map (_calc_tap_from_dataframe net) rows in
    let vn_trafo_hv := map (fun t => t.1.1) taps in
    let vn_trafo_lv := map (fun t => t.1.2) taps in
    let shift := map (fun t => t.2) taps in
    _ ← two_dim (bus_arr ppc);
    lv_rows ← np.take (bus ppc) lv_buses_ppc;
    let vn_lv := map BASE_KV lv_rows in
    let ratio := zip_with (fun tr v => _calc_nominal_ratio_from_dataframe ppc tr
                                         v.1 v.2 bus_lookup)
                   rows (zip vn_trafo_hv vn_trafo_lv) in
    br ← np.put_column set_TAP br ppc_idx (map CofQ ratio);
    br ← np.put_column set_SHIFT br ppc_idx (map CofQ shift);
    (* zero seq. transformer impedance *)
    let cmax := if bool_decide (mode = "sc") then map (fun b => Some (C_MAX b)) lv_rows
                else map (fun _ => None) lv_rows in
    let z0_k := zip_with (fun tr v => trafo_z0_k net tr v.1.1 v.1.2 v.2) rows
                  (zip (zip vn_trafo_lv vn_lv) cmax) in
    let y0_k := map (Cdiv (CofQ 1)) z0_k in
    let z0_mag := zip_with (fun tr v => trafo_z0_mag net tr v.1 v.2) rows
                    (zip vn_trafo_lv vn_lv) in
    let base := Qtrunc (baseMVA ppc) in
    let st := mk_zs br (buses_all st) (gs_all st) (bs_all st) in
    if bool_decide (vector_group = "Dyn") then
      g ← times_in_service_base (map re y0_k) in_service base;
      b ← times_in_service_base (map im y0_k) in_service base;
      mret (hstack_shunt st lv_buses_ppc g b)
    else if bool_decide (vector_group = "YNd") then
      g ← times_in_service_base (map re y0_k) in_service base;
      b ← times_in_service_base (map im y0_k) in_service base;
      mret (hstack_shunt st hv_buses_ppc g b)
    else if bool_decide (vector_group = "Yyn") then
      let y := zip_with (fun m k => Cmulq (inject_Z base) (Cdiv (CofQ 1) (Cadd m k)))
                 z0_mag z0_k in
      g ← times_in_service (map re y) in_service;
      b ← times_in_service (map im y) in_service;
      mret (hstack_shunt st lv_buses_ppc g b)
    else if bool_decide (vector_group = "YNyn") then
      br ← np.put_column set_BR_STATUS (zs_branch st) ppc_idx in_service;
      (* convert the t model to pi model *)
      let si0 := map si0_hv_partial rows in
      let za := zip_with (fun s v => pi_za s v.1 v.2) si0 (zip z0_k z0_mag) in
      let zb := zip_with (fun s v => pi_zb s v.1 v.2) si0 (zip z0_k z0_mag) in
      let zc := zip_with (fun s v => pi_zc s v.1 v.2) si0 (zip z0_k z0_mag) in
      br ← np.put_column set_BR_R br ppc_idx (map (fun z => CofQ (re z)) zc);
      br ← np.put_column set_BR_X br ppc_idx (map (fun z => CofQ (im z)) zc);
      (* add a shunt element parallel to zb if the leakage impedance
         distribution is unequal *)
      ynyn_loop ppc_idx lv_buses_ppc hv_buses_ppc in_service base
        (mk_zs br (buses_all st) (gs_all st) (bs_all st)) (zip za zb)
    else if bool_decide (vector_group = "YNy") then
      let y := zip_with (fun m k => Cmulq (inject_Z base) (Cdiv (CofQ 1) (Cadd m k)))
                 z0_mag z0_k in
      g ← times_in_service (map re y) in_service;
      b ← times_in_service (map im y) in_service;
      mret (hstack_shunt st hv_buses_ppc g b)
    else
      last_isdigit vector_group ≫= fun d : bool =>
      if d then Err (ValueError (phase_shift_msg vector_group))
      else Err (ValueError (unknown_msg vector_group)).

Fixpoint trafo_groups (net : net_t) (ppc : case) (bus_lookup : list Z)
    (groups : list (string * list (Z * trafo_row))) (st : zs_state) : res zs_state :=
  match groups with
  | [] => Ok st
  | (vector_group, trafos) :: groups' =>
      st ← trafo_group net ppc bus_lookup vector_group trafos st;
      trafo_groups net ppc bus_lookup groups' st
  end.

Definition _add_trafo_sc_impedance_zero (net : net_t) (ppc : case) : res case :=
  let trafo_df := trafo net in
  match branch_lookup net !! "trafo" with
  | None => Ok ppc
  | Some (f, t) =>
      bus_lookup ← dict_get "bus" (lookups net);
      (* trafo_df["_ppc_idx"] = range(f, t) *)
      ppc_idx ← (if bool_decide ((t - f)%nat = length trafo_df)
                 then Ok (map Z.of_nat (seq f (t - f)))
                 else Err (ValueError "Length of values does not match length of index"));
      let groups := groupby (fun r => vector_group r.2) (zip ppc_idx trafo_df) in
      (* the first statement of the loop body indexes a column of the branch
         table *)
      _ ← (match groups with
           | [] => Ok []
           | _ :: _ => two_dim (branch_arr ppc)
           end);
      st ← trafo_groups net ppc bus_lookup groups (mk_zs (branch ppc) [] [] []);
      let '(buses, gs, bs) := _sum_by_group (buses_all st) (gs_all st) (bs_all st) in
      _ ← two_dim (bus_arr ppc);
      bus_tbl ← add_column GS set_GS (bus ppc) buses gs;
      bus_tbl ← add_column BS set_BS bus_tbl buses bs;
      mret (set_bus bus_tbl
              (set_branch_arr (on_rows (fun _ => zs_branch st) (branch_arr ppc)) ppc))
  end.

(** [tbl[f:t, COL] = vals] *)
Definition set_slice_column {A V} (set : V -> A -> A) (tbl : list A) (f t : nat)
    (vals : list V) : res (list A) :=
  let rows := np.slice tbl f t in
  vals ← (if bool_decide (length vals = length rows) then Ok vals
          else match vals with
               | [v] => Ok (replicate (length rows) v)
               | _ => Err np.shape_mismatch
               end);
  mret (firstn f tbl ++ zip_with set vals rows ++ skipn (f + length rows) tbl).

Definition _add_line_sc_impedance_zero (net : net_t) (ppc : case) : res case :=
  let mode := opt_mode net in
  match branch_lookup net !! "line" with
  | None => Ok ppc
  | Some (f, t) =>
      let line := line net in
      bus_lookup ← dict_get "bus" (lookups net);
      fb ← np.take bus_lookup (map from_bus line);
      tb ← np.take bus_lookup (map to_bus line);
      _ ← two_dim (bus_arr ppc);
      fb_rows ← np.take (bus ppc) fb;
      let baseR :=
        map (fun b => if bool_decide (mode = "pf_3ph")
                      then np_square (BASE_KV b / np_sqrt 3) / baseMVA ppc
                      else np_square (BASE_KV b) / baseMVA ppc)%Q fb_rows in
      (* line zero sequence impedance *)
      _ ← two_dim (branch_arr ppc);
      br ← set_slice_column set_F_BUS (branch ppc) f t fb;
      br ← set_slice_column set_T_BUS br f t tb;
      br ← set_slice_column set_BR_R br f t
             (zip_with (fun l bR => CofQ (r0_ohm_per_km l * length_km l / bR
                                            / line_parallel l)) line baseR);
      br ← set_slice_column set_BR_X br f t
             (zip_with (fun l bR => CofQ (x0_ohm_per_km l * length_km l / bR
                                            / line_parallel l)) line baseR);
      br ← set_slice_column set_BR_B br f t
             (zip_with (fun l bR => CofQ (2 * f_hz net * math_pi * c0_nf_per_km l
                                            * (1 # 1000000000) * bR * length_km l
                                            * line_parallel l)) line baseR);
      br ← set_slice_column set_BR_STATUS br f t
             (map (fun l => Z.b2z (line_in_service l)) line);
      mret (set_branch br ppc)
  end.

(** The first columns of a fresh branch row (line 350): [TAP] is 1, [SHIFT]
    is 0 and [BR_STATUS] is 1. *)
Definition default_branch : branch_row :=
  mk_branch 0 0 (CofQ 0) (CofQ 0) (CofQ 0) (CofQ 1) (CofQ 0) 1.

(** [raise NotImplemented("...")]: [NotImplemented] is not callable. *)
Definition not_callable : error :=
  TypeError "'NotImplementedType' object is not callable".

Definition _build_branch_ppc_zero (net : net_t) (ppc : case) : res (net_t * case) :=
  let '(net, length) := _initialize_branch_lookup net in
  let lookup := branch_lookup net in
  let ppc := set_branch (replicate length default_branch) ppc in
  ppc ← _add_line_sc_impedance_zero net ppc;
  ppc ← _add_trafo_sc_impedance_zero net ppc;
  if bool_decide (is_Some (lookup !! "trafo3w")) then Err not_callable
  else Ok (net, ppc).

(** [net["ext_grid"][mask]] *)
Definition filter_ext_grid (mask : list bool) (eg : ext_grid_df) : res ext_grid_df :=
  if bool_decide (length mask = length (eg_index eg))
  then Ok (mk_ext_grid (np.select mask (eg_index eg)) (np.select mask (eg_bus eg))
             (np.select mask <$> eg_cols eg))
  else Err (ValueError "Item wrong length").

Definition s_sc_col (case : string) : string := "s_sc_" +:+ case +:+ "_mva".
Definition rx_col (case : string) : string := "rx_" +:+ case.
Definition s_sc_msg (case : string) : string :=
  "short circuit apparent power " +:+ s_sc_col case +:+
  " needs to be specified for external grid".
Definition rx_msg (case : string) : string :=
  "short circuit R/X rate " +:+ rx_col case +:+
  " needs to be specified for external grid".

(** The short-circuit case the external-grid columns are read for. *)
Definition sc_case (net : net_t) : res string :=
  if bool_decide (opt_mode net = "sc")
  then match opt_case net with
       | Some c => Ok c
       | None => Err (KeyError "case")
       end
  else Ok "max".

(** Lines 531-546: the zero-sequence admittance of each external grid. *)
Definition y0_grid (net : net_t) (case : string) (c s_sc rx : list Q) : res (list C) :=
  let mode := opt_mode net in
  z_grid ← bcast Qdiv c s_sc;
  z_grid ← (if bool_decide (mode = "pf_3ph")
            then (* 3 phase power divided to get 1 ph power *)
              bcast Qdiv c (map (fun s => s / 3)%Q s_sc)
            else Ok z_grid);
  x_grid ← bcast Qdiv z_grid (map (fun r => np_sqrt (r * r + 1))%Q rx);
  r_grid ← bcast Qmult rx x_grid;
  (* ext_grid zero sequence impedance *)
  if bool_decide (case = "max") || bool_decide (case = "min") then
    x0x ← dict_get ("x0x_" +:+ case) (eg_cols (ext_grid net));
    x0_grid ← bcast Qmult x0x x_grid;
    r0x0 ← dict_get ("r0x0_" +:+ case) (eg_cols (ext_grid net));
    r0_grid ← bcast Qmult r0x0 x0_grid;
    mret (zip_with (fun r x => Cdiv (CofQ 1) (mkC r x)) r0_grid x0_grid)
  else Err (UnboundLocalError "r0_grid").

Definition _add_ext_grid_sc_impedance_zero (net : net_t) (ppc : case) : res case :=
  let mode := opt_mode net in
  case ← sc_case net;
  bus_lookup ← dict_get "bus" (lookups net);
  mask ← dict_get "ext_grid" (is_mask net);
  eg ← filter_ext_grid mask (ext_grid net);
  if bool_decide (length (eg_index eg) = 0%nat) then Ok ppc
  else
    let eg_buses := eg_bus eg in
    eg_buses_ppc ← np.take bus_lookup eg_buses;
    c ← (if bool_decide (mode = "sc") then
           _ ← two_dim (bus_arr ppc);
           rows ← np.take (bus ppc) eg_buses_ppc;
           mret (Some (map (if bool_decide (case = "max") then C_MAX else C_MIN) rows))
         else if bool_decide (mode = "pf_3ph") then mret (Some [11 # 10])
         else mret None);
    if negb (bool_decide (is_Some (eg_cols eg !! s_sc_col case)))
    then Err (ValueError (s_sc_msg case))
    else
      s_sc ← dict_get (s_sc_col case) (eg_cols eg);
      if negb (bool_decide (is_Some (eg_cols eg !! rx_col case)))
      then Err (ValueError (rx_msg case))
      else
        rx ← dict_get (rx_col case) (eg_cols eg);
        c ← match c with Some c => Ok c | None => Err (UnboundLocalError "c") end;
        y0 ← y0_grid net case c s_sc rx;
        let '(buses, gs, bs) := _sum_by_group eg_buses_ppc (map re y0) (map im y0) in
        _ ← two_dim (bus_arr ppc);
        bus_tbl ← np.put_column set_GS (bus ppc) buses gs;
        bus_tbl ← np.put_column set_BS bus_tbl buses bs;
        mret (set_bus bus_tbl ppc).

(** ** The converter *)

(** The builders of the other modules: each works on the network and the
    case under construction. *)
Variable _build_bus_ppc : net_t -> case -> res (net_t * case).
Variable _build_gen_ppc : net_t -> case -> res (net_t * case).
Variable _build_branch_ppc : net_t -> case -> res (net_t * case).
Variable _add_gen_impedances_ppc : net_t -> case -> res (net_t * case).
Variable _add_motor_impedances_ppc : net_t -> case -> res (net_t * case).
Variable _switch_branches : net_t -> case -> res (net_t * case).
Variable _branches_with_oos_buses : net_t -> case -> res (net_t * case).
Variable _check_connectivity : case -> res (list Z * case).
Variable _set_isolated_buses_out_of_service : net_t -> case -> res (net_t * case).
Variable _make_objective : case -> net_t -> res case.

Definition _pd2ppc (net : net_t) (sequence : option Z) : res (net_t * case * case) :=
  (* select elements in service (time consuming, so we do it once) *)
  let '(m, c) := _select_is_elements_numba net None sequence in
  let net := set_is_elements m c net in
  (* get options *)
  let mode := opt_mode net in
  let check_connectivity := opt_check_connectivity net in
  let '(net, ppc) := _init_ppc net sequence in
  let ppc := if bool_decide (mode = "opf") then set_gencost (Some []) ppc else ppc in
  (* init empty ppci *)
  let ppci := ppc in
  (* generate ppc['bus'] and the bus lookup *)
  '(net, ppc) ← _build_bus_ppc net ppc;
  (* generate ppc['gen'] and fills ppc['bus'] with generator values *)
  '(net, ppc) ← _build_gen_ppc net ppc;
  '(net, ppc) ←
    (if bool_decide (sequence = Some 0) then
       (* Add external grid impedance to the zero system *)
       ppc ← _add_ext_grid_sc_impedance_zero net ppc;
       (* generate ppc['branch'] and directly generates branch values *)
       _build_branch_ppc_zero net ppc
     else _build_branch_ppc net ppc);
  (* adds P and Q for loads / sgens in ppc['bus'] (PQ nodes) *)
  '(net, ppc) ←
    (if bool_decide (mode = "sc") then
       '(net, ppc) ← _add_gen_impedances_ppc net ppc;
       _add_motor_impedances_ppc net ppc
     else
       let ppc :=
         set_bus_arr
           (on_rows (_calc_pq_elements_and_add_on_ppc net sequence) (bus_arr ppc)) ppc in
       (* adds P and Q for shunts, wards and xwards (to PQ nodes) *)
       mret (net,
             set_bus_arr (on_rows (_calc_shunts_and_add_on_ppc net) (bus_arr ppc)) ppc));
  (* adds auxilary buses for open switches at branches *)
  '(net, ppc) ← _switch_branches net ppc;
  (* add auxilary buses for out of service buses at in service lines *)
  '(net, ppc) ← _branches_with_oos_buses net ppc;
  '(net, ppc) ←
    (if check_connectivity then
       '(net, ppc) ←
         (if bool_decide (sequence = None) || bool_decide (sequence = Some 1) then
            (* sets islands (multiple isolated nodes) out of service *)
            '(isolated, ppc) ← _check_connectivity ppc;
            let net := set_isolated_buses isolated net in
            mret (set_is_elements_final
                    (Some (_select_is_elements_numba net (Some isolated) sequence)) net,
                  ppc)
          else
            _ ← two_dim (bus_arr ppc);
            tbl ← np.fill_column set_BUS_TYPE (bus ppc) (isolated_buses net) NONE;
            mret (net, set_bus tbl ppc));
       match is_elements_final net with
       | Some (m, c) => mret (set_is_elements m c net, ppc)
       | None => Err (KeyError "_is_elements_final")
       end
     else _set_isolated_buses_out_of_service net ppc);
  (* generates "internal" ppci format (for powerflow calc) from "external" ppc
     format and updates the bus lookup *)
  '(ppc, ppci, net) ← _ppc2ppci ppc ppci net;
  ppci ← (if bool_decide (mode = "opf") then _make_objective ppci net else mret ppci);
  (* net["_ppc..."] is the dict ppc itself *)
  let net := set_stored_ppc (<[ppc_key sequence := ppc]> (stored_ppc net)) net in
  mret (net, ppc, ppci).

End Pd2ppc.
(** ** Facts about the result monad and numpy indexing *)

Lemma bind_Ok {A B} (m : res A) (f : A -> res B) (b : B) :
  m ≫= f = Ok b -> exists a, m = Ok a /\ f a = Ok b.
Proof. destruct m as [a|e]; simpl; [eauto | discriminate]. Qed.

Lemma bind_Ok_eq {A B} (m : res A) (f : A -> res B) (a : A) :
  m = Ok a -> m ≫= f = f a.
Proof. intros ->. reflexivity. Qed.

Ltac inv_bind H :=
  let x := fresh "x" in
  let Hx := fresh "Hx" in
  apply bind_Ok in H as (x & Hx & H); cbv beta in H.

Module np_facts.

Lemma norm_index_nat (n k : nat) :
  (k < n)%nat -> np.norm_index n (Z.of_nat k) = Some k.
Proof.
  intros Hk. unfold np.norm_index.
  rewrite bool_decide_eq_true_2 by lia. by rewrite Nat2Z.id.
Qed.

Lemma norm_index_nonneg (n : nat) (i : Z) :
  0 <= i < Z.of_nat n -> np.norm_index n i = Some (Z.to_nat i).
Proof. intros Hi. unfold np.norm_index. by rewrite bool_decide_eq_true_2. Qed.

Lemma norm_index_lt (n : nat) (i : Z) (k : nat) :
  np.norm_index n i = Some k -> (k < n)%nat.
Proof.
  unfold np.norm_index. repeat case_bool_decide; intros [= <-]; lia.
Qed.

Lemma getitem_nat {A} (a : list A) (k : nat) (x : A) :
  a !! k = Some x -> np.getitem a (Z.of_nat k) = Ok x.
Proof.
  intros Hk. unfold np.getitem.
  rewrite norm_index_nat by (by eapply lookup_lt_Some). by rewrite Hk.
Qed.

Lemma getitem_nonneg {A} (a : list A) (i : Z) (x : A) :
  0 <= i -> a !! Z.to_nat i = Some x -> np.getitem a i = Ok x.
Proof.
  intros Hi Hk. rewrite <- (Z2Nat.id i) by done. by apply getitem_nat.
Qed.

Lemma getitem_Ok {A} (a : list A) (i : Z) (x : A) :
  np.getitem a i = Ok x ->
  exists k, np.norm_index (length a) i = Some k /\ a !! k = Some x.
Proof.
  unfold np.getitem. destruct (np.norm_index _ _) as [k|]; [|done].
  destruct (a !! k) eqn:E; [|done]. intros [= <-]. eauto.
Qed.

Lemma getitem_nonneg_Ok {A} (a : list A) (i : Z) (x : A) :
  0 <= i -> np.getitem a i = Ok x -> a !! Z.to_nat i = Some x.
Proof.
  intros Hi (k & Hk & Hx)%getitem_Ok. unfold np.norm_index in Hk.
  repeat case_bool_decide; simplify_eq; try lia. done.
Qed.

Lemma take_length {A} (a : list A) idx xs :
  np.take a idx = Ok xs -> length xs = length idx.
Proof.
  revert xs. induction idx as [|i idx IH]; intros xs H; simpl in H.
  - by injection H as <-.
  - inv_bind H. inv_bind H. injection H as <-. simpl. f_equal. eauto.
Qed.

Lemma take_lookup {A} (a : list A) idx xs j i :
  np.take a idx = Ok xs -> idx !! j = Some i ->
  exists x, xs !! j = Some x /\ np.getitem a i = Ok x.
Proof.
  revert xs j. induction idx as [|i0 idx IH]; intros xs j H Hj; [done|].
  simpl in H. inv_bind H. inv_bind H. injection H as <-.
  destruct j as [|j]; simpl in *.
  - injection Hj as ->. eauto.
  - eauto.
Qed.

Lemma take_Ok {A} (a : list A) idx :
  Forall (fun i => 0 <= i < Z.of_nat (length a)) idx ->
  exists xs, np.take a idx = Ok xs.
Proof.
  induction 1 as [|i idx Hi _ [xs IH]]; [by eexists|].
  destruct (lookup_lt_is_Some_2 a (Z.to_nat i)) as [x Hx]; [lia|].
  exists (x :: xs). simpl. rewrite (getitem_nonneg a i x) by (done || lia).
  simpl. by rewrite IH.
Qed.

Lemma take_map {A B} (f : A -> B) (a : list A) idx xs :
  np.take a idx = Ok xs -> np.take (map f a) idx = Ok (map f xs).
Proof.
  revert xs. induction idx as [|i idx IH]; intros xs H; simpl in *.
  - by injection H as <-.
  - inv_bind H. inv_bind H. injection H as <-.
    apply getitem_Ok in Hx as (k & Hk & Hx).
    unfold np.getitem. rewrite length_map, Hk, list_lookup_fmap, Hx. simpl.
    by rewrite (IH _ Hx0).
Qed.

Lemma select_map {A} (f : A -> bool) (a : list A) :
  np.select (map f a) a = List.filter f a.
Proof. induction a as [|x a IH]; simpl; [done|]. by rewrite IH. Qed.

Lemma compress_map {A} (f : A -> bool) (a : list A) :
  np.compress (map f a) a = Ok (List.filter f a).
Proof.
  unfold np.compress. rewrite bool_decide_eq_true_2 by apply length_map.
  by rewrite select_map.
Qed.

Lemma compress_Ok {A} mask (a xs : list A) :
  np.compress mask a = Ok xs ->
  (mask = [] \/ length mask = length a) /\ xs = np.select mask a.
Proof.
  unfold np.compress. case_bool_decide; [intros [= <-]; by split; [right|]|].
  destruct mask; [|done]. intros [= <-]. split; [by left|done].
Qed.

Lemma set_column_Ok {A V} (set : V -> A -> A) vals tbl tbl' :
  np.set_column set vals tbl = Ok tbl' ->
  length vals = length tbl /\ tbl' = zip_with set vals tbl.
Proof. unfold np.set_column. case_bool_decide; [|done]. by intros [= <-]. Qed.

Lemma set_column_eq {A V} (set : V -> A -> A) vals tbl :
  length vals = length tbl ->
  np.set_column set vals tbl = Ok (zip_with set vals tbl).
Proof. intros H. unfold np.set_column. by rewrite bool_decide_eq_true_2. Qed.

Lemma length_arange n : length (np.arange n) = n.
Proof. unfold np.arange. by rewrite length_map, length_seq. Qed.

Lemma lookup_arange n k : (k < n)%nat -> np.arange n !! k = Some (Z.of_nat k).
Proof.
  intros Hk. unfold np.arange. rewrite list_lookup_fmap, lookup_seq_lt by done.
  done.
Qed.

Lemma setitem_Ok {A} (a : list A) i x a' :
  np.setitem a i x = Ok a' ->
  exists k, np.norm_index (length a) i = Some k /\ a' = <[k:=x]> a.
Proof.
  unfold np.setitem. destruct (np.norm_index _ _) as [k|]; [|done].
  intros [= <-]. eauto.
Qed.

(** Storing through an index array of distinct, non-negative, in-range
    indices: every index holds its value afterwards, and the other positions
    are unchanged. *)
Lemma put_spec {A} (idx : list Z) : forall (a vals : list A),
  NoDup idx ->
  Forall (fun i => 0 <= i < Z.of_nat (length a)) idx ->
  length vals = length idx ->
  exists a', np.put a idx vals = Ok a' /\ length a' = length a /\
    (forall j i v, idx !! j = Some i -> vals !! j = Some v ->
                   a' !! Z.to_nat i = Some v) /\
    (forall k, Z.of_nat k ∉ idx -> a' !! k = a !! k).
Proof.
  induction idx as [|i idx IH]; intros a vals Hnd Hr Hl.
  - destruct vals; [|done]. exists a. repeat split; try done.
  - destruct vals as [|v vals]; [done|].
    apply NoDup_cons in Hnd as [Hni Hnd]. apply Forall_cons in Hr as [Hi Hr].
    simpl. unfold np.setitem. rewrite norm_index_nonneg by done. simpl.
    destruct (IH (<[Z.to_nat i:=v]> a) vals) as (a' & Hp & Hlen & Hin & Hout).
    + done.
    + by rewrite length_insert.
    + by injection Hl.
    + exists a'. rewrite Hp. rewrite length_insert in Hlen.
      split; [done|]. split; [done|]. split.
      * intros [|j] i' v' Hj Hv; simpl in *.
        -- injection Hj as <-. injection Hv as <-.
           rewrite Hout.
           ++ apply list_lookup_insert_eq. lia.
           ++ rewrite Z2Nat.id by lia. done.
        -- eauto.
      * intros k Hk. rewrite Hout.
        -- apply list_lookup_insert_ne. intros <-. apply Hk.
           rewrite Z2Nat.id by lia. left.
        -- intros Hk'. apply Hk. by right.
Qed.

End np_facts.

(** ** Concrete cases and oracles *)

(** Two sorts by insertion that meet the contract of [np.argsort]: the first
    keeps equal keys in their order, the second reverses them. *)
Definition key_at (keys : list Z) (i : Z) : Z := nth (Z.to_nat i) keys 0.

Fixpoint insert_index (before : Z -> Z -> bool) (i : Z) (sorted : list Z) : list Z :=
  match sorted with
  | [] => [i]
  | j :: sorted' =>
      if before i j then i :: sorted else j :: insert_index before i sorted'
  end.

Definition argsort_by (before : list Z -> Z -> Z -> bool) (keys : list Z) : list Z :=
  fold_right (insert_index (before keys)) [] (np.arange (length keys)).

Definition argsort_stable : list Z -> list Z :=
  argsort_by (fun keys i j => key_at keys i <=? key_at keys j).

Definition argsort_reversing : list Z -> list Z :=
  argsort_by (fun keys i j => key_at keys i <? key_at keys j).

(** No callback does anything. *)
Definition run_nothing (fcn : userfcn_t) (stage : string) (c : case) : case := c.

(** Three buses with ids 1, 0, 2, the bus with id 0 isolated; a branch
    between the buses 1 and 2 and one from the isolated bus; two generators. *)
Definition ex_ppc : case :=
  mk_case 1 2
    [mk_bus 1 1 0 0 110 1 1; mk_bus 0 NONE 0 0 110 1 1; mk_bus 2 3 0 0 110 1 1]
    [mk_branch 1 2 (CofQ 0) (CofQ 0) (CofQ 0) (CofQ 1) (CofQ 0) 1;
     mk_branch 0 2 (CofQ 0) (CofQ 0) (CofQ 0) (CofQ 1) (CofQ 0) 1]
    [mk_gen 2 1 0 1; mk_gen 1 1 5 1]
    empty_internal None None None None None.

(** The copy of the empty case made before the tables are built. *)
Definition ex_ppci : case :=
  mk_case_arr 1 2 Flat Flat Flat empty_internal None None None None None.

Definition ex_net : net_t :=
  mk_net (<["bus" := [1; -1; 0; 2]]> ∅) ∅
    (<["ext_grid" := [true]]> (<["gen" := [true]]> ∅)) ∅
    (mk_ext_grid [0] [2] ∅) [3] [] [] "pf" None false false 1000 50 ∅ [] None.

(** ** Lookup tables: the remap of [_update_lookup_entries] *)

(** What the remap does to one entry: a valid entry is replaced by its image
    under [e2i], a sentinel stays. *)
Definition remap_entry (e2i : list Z) (v : Z) : Z :=
  if bool_decide (0 <= v) then default v (e2i !! Z.to_nat v) else v.

Definition entries_in_range (e2i lookup : list Z) : Prop :=
  Forall (fun v => 0 <= v -> v < Z.of_nat (length e2i)) lookup.

Lemma place_take_remap (e2i lookup : list Z) :
  entries_in_range e2i lookup ->
  exists new,
    np.take e2i (np.select (map (fun v => bool_decide (0 <= v)) lookup) lookup) = Ok new /\
    place (map (fun v => bool_decide (0 <= v)) lookup) lookup new
    = map (remap_entry e2i) lookup.
Proof.
  induction 1 as [|v lookup Hv _ (new & Ht & Hp)]; simpl.
  - by exists [].
  - unfold remap_entry at 1. case_bool_decide as Hpos; simpl.
    + destruct (lookup_lt_is_Some_2 e2i (Z.to_nat v)) as [w Hw]; [lia|].
      exists (w :: new). rewrite (np_facts.getitem_nonneg e2i v w) by done.
      simpl. rewrite Ht. simpl. rewrite Hw. simpl. by rewrite Hp.
    + exists new. by rewrite Hp.
Qed.

Lemma update_lookup_entries_Ok net lookup e2i element :
  entries_in_range e2i lookup ->
  _update_lookup_entries net lookup e2i element
  = Ok (_write_lookup_to_net net element (map (remap_entry e2i) lookup),
        map (remap_entry e2i) lookup).
Proof.
  intros (new & Ht & Hp)%place_take_remap. unfold _update_lookup_entries.
  rewrite Ht. simpl. by rewrite Hp.
Qed.

(** C5.  The remap of a lookup table with the mapping [e2i] returns, when
    every valid entry of the lookup is an index of [e2i]; the table it writes
    to the network has the length of the old one, every valid entry [v] (with
    [0 <= v]) is replaced by [e2i[v]], and every sentinel (a negative entry)
    is left as it was, at its position. *)
Theorem C5_update_lookup_entries_remap (net : net_t) (lookup e2i : list Z)
    (element : string) :
  entries_in_range e2i lookup ->
  exists net' lookup',
    _update_lookup_entries net lookup e2i element = Ok (net', lookup') /\
    lookups net' !! element = Some lookup' /\
    length lookup' = length lookup /\
    forall (k : nat) (v : Z), lookup !! k = Some v ->
      (0 <= v -> exists w, np.getitem e2i v = Ok w /\ lookup' !! k = Some w) /\
      (v < 0 -> lookup' !! k = Some v).
Proof.
  intros Hr. eexists _, _. split; [by apply update_lookup_entries_Ok|].
  split; [apply lookup_insert_eq|]. split; [apply length_map|].
  intros k v Hk. rewrite list_lookup_fmap, Hk. simpl. unfold remap_entry.
  split; intros Hv.
  - rewrite bool_decide_eq_true_2 by done.
    eapply Forall_lookup_1 in Hr; [|exact Hk].
    destruct (lookup_lt_is_Some_2 e2i (Z.to_nat v)) as [w Hw]; [lia|].
    exists w. rewrite Hw. split; [by apply np_facts.getitem_nonneg|done].
  - by rewrite bool_decide_eq_false_2 by lia.
Qed.

(** A lookup with two sentinels, remapped by a reversal of three rows. *)
Lemma C5_update_lookup_entries_remap_witness :
  exists net' lookup',
    _update_lookup_entries (mk_net ∅ ∅ ∅ ∅ (mk_ext_grid [] [] ∅) [] [] [] "pf" None
                              false false 1000 50 ∅ [] None)
      [2; -1; 0; -1; 1] [2; 1; 0] "bus" = Ok (net', lookup') /\
    lookups net' !! "bus" = Some lookup' /\
    length lookup' = length [2; -1; 0; -1; 1] /\
    forall (k : nat) (v : Z), [2; -1; 0; -1; 1] !! k = Some v ->
      (0 <= v -> exists w, np.getitem [2; 1; 0] v = Ok w /\ lookup' !! k = Some w) /\
      (v < 0 -> lookup' !! k = Some v).
Proof.
  apply (C5_update_lookup_entries_remap _ [2; -1; 0; -1; 1] [2; 1; 0] "bus").
  unfold entries_in_range. repeat constructor; simpl; lia.
Defined.

(** ** The compiler in closed form *)

(** A bus is in service when its type is not [NONE]. *)
Definition bus_is (b : bus_row) : bool := negb (bool_decide (BUS_TYPE b = NONE)).
Definition bus_oos (b : bus_row) : bool := bool_decide (BUS_TYPE b = NONE).

(** The in-service buses of a table, in the order of the table. *)
Definition is_buses (tbl : list bus_row) : list bus_row := List.filter bus_is tbl.

(** The in-service buses first, then the others. *)
Definition reordered (tbl : list bus_row) : list bus_row :=
  List.filter bus_is tbl ++ List.filter bus_oos tbl.

(** The rows of a table, numbered from zero. *)
Definition renumber (tbl : list bus_row) : list bus_row :=
  zip_with set_BUS_I (np.arange (length tbl)) tbl.

(** The bus at index [i] of a table is in service. *)
Definition host_is (tbl : list bus_row) (i : Z) : bool :=
  match np.getitem tbl i with
  | Ok b => bus_is b
  | Err _ => false
  end.

(** The two inclusion tests of lines 236-242 on one row. *)
Definition gen_included (tbl : list bus_row) (g : gen_row) : bool :=
  bool_decide (0 < GEN_STATUS g) && host_is tbl (GEN_BUS g).

Definition branch_included (tbl : list bus_row) (r : branch_row) : bool :=
  and_status (BR_STATUS r) (host_is tbl (F_BUS r)) (host_is tbl (T_BUS r)).

Lemma map_negb_oos tbl : map negb (oos_busses tbl) = map bus_is tbl.
Proof. unfold oos_busses. by rewrite map_map. Qed.

Lemma compress_is tbl :
  np.compress (map negb (oos_busses tbl)) tbl = Ok (is_buses tbl).
Proof. rewrite map_negb_oos. apply np_facts.compress_map. Qed.

Lemma reorder_bus_eq tbl : reorder_bus tbl = Ok (reordered tbl).
Proof.
  unfold reorder_bus. rewrite compress_is. simpl.
  unfold oos_busses. by rewrite (np_facts.compress_map bus_oos).
Qed.

Lemma reordered_perm tbl : reordered tbl ≡ₚ tbl.
Proof.
  unfold reordered. induction tbl as [|b tbl IH]; [done|]. simpl.
  unfold bus_is at 1, bus_oos at 1. case_bool_decide; simpl.
  - rewrite <- Permutation_middle. by constructor.
  - by constructor.
Qed.

Lemma elem_of_reordered tbl b : b ∈ reordered tbl <-> b ∈ tbl.
Proof. by rewrite reordered_perm. Qed.

Lemma length_reordered tbl : length (reordered tbl) = length tbl.
Proof. by rewrite reordered_perm. Qed.

Lemma length_is_buses_le tbl : (length (is_buses tbl) <= length tbl)%nat.
Proof. apply List.filter_length_le. Qed.

Lemma set_column_renumber tbl :
  np.set_column set_BUS_I (np.arange (length tbl)) tbl = Ok (renumber tbl).
Proof. apply np_facts.set_column_eq, np_facts.length_arange. Qed.

Lemma map_BUS_I_zip vals tbl :
  length vals = length tbl -> map BUS_I (zip_with set_BUS_I vals tbl) = vals.
Proof.
  revert tbl. induction vals as [|v vals IH]; intros [|b tbl] Hl; try done.
  simpl. f_equal. apply IH. by injection Hl.
Qed.

Lemma map_BUS_I_renumber tbl : map BUS_I (renumber tbl) = np.arange (length tbl).
Proof. apply map_BUS_I_zip, np_facts.length_arange. Qed.

Lemma map_BUS_TYPE_zip vals tbl :
  length vals = length tbl ->
  map BUS_TYPE (zip_with set_BUS_I vals tbl) = map BUS_TYPE tbl.
Proof.
  revert tbl. induction vals as [|v vals IH]; intros [|b tbl] Hl; try done.
  simpl. f_equal. apply IH. by injection Hl.
Qed.

Lemma length_renumber tbl : length (renumber tbl) = length tbl.
Proof.
  unfold renumber. rewrite length_zip_with, np_facts.length_arange. lia.
Qed.

Lemma lookup_renumber tbl k b :
  tbl !! k = Some b -> renumber tbl !! k = Some (set_BUS_I (Z.of_nat k) b).
Proof.
  intros Hk. unfold renumber. rewrite lookup_zip_with.
  rewrite np_facts.lookup_arange by (by eapply lookup_lt_Some).
  simpl. by rewrite Hk.
Qed.

Lemma slice_arange n m : (n <= m)%nat -> np.slice (np.arange m) 0 n = np.arange n.
Proof.
  intros Hn. unfold np.slice, np.arange. rewrite drop_0, Nat.sub_0_r.
  rewrite List.firstn_map, take_seq. by rewrite Nat.min_l.
Qed.

(** The new number of a bus is its position in the reordered table. *)
Lemma make_e2i_spec (rb : list bus_row) :
  NoDup (map BUS_I rb) ->
  Forall (fun i => 0 <= i < Z.of_nat (length rb)) (map BUS_I rb) ->
  exists e2i, make_e2i rb = Ok e2i /\ length e2i = length rb /\
    forall k b, rb !! k = Some b -> np.getitem e2i (BUS_I b) = Ok (Z.of_nat k).
Proof.
  intros Hnd Hr. unfold make_e2i.
  destruct (np_facts.put_spec (map BUS_I rb) (np.zeros (length rb))
              (np.arange (length rb))) as (e2i & Hp & Hl & Hin & _).
  - done.
  - unfold np.zeros. by rewrite length_replicate.
  - by rewrite np_facts.length_arange, length_map.
  - unfold np.zeros in Hl. rewrite length_replicate in Hl.
    exists e2i. split; [done|]. split; [done|]. intros k b Hk.
    assert (0 <= BUS_I b < Z.of_nat (length rb)) as Hb.
    { eapply Forall_lookup_1 in Hr; [exact Hr|].
      by rewrite list_lookup_fmap, Hk. }
    apply np_facts.getitem_nonneg; [lia|].
    eapply Hin.
    + by rewrite list_lookup_fmap, Hk.
    + apply np_facts.lookup_arange. by eapply lookup_lt_Some.
Qed.

Lemma getitem_arange n i x :
  np.getitem (np.arange n) i = Ok x ->
  exists k, np.norm_index n i = Some k /\ x = Z.of_nat k.
Proof.
  intros (k & Hk & Hx)%np_facts.getitem_Ok.
  rewrite np_facts.length_arange in Hk. exists k. split; [done|].
  rewrite np_facts.lookup_arange in Hx by (by eapply np_facts.norm_index_lt).
  by injection Hx.
Qed.

(** [bs[n2i[idx]]] when [n2i] is [np.arange]: the test of the rows at
    [idx]. *)
Lemma take_arange_take {A} (a : list A) (p : A -> bool) (idx h : list Z)
    (v : list bool) :
  np.take (np.arange (length a)) idx = Ok h ->
  np.take (map p a) h = Ok v ->
  v = map (fun i => match np.getitem a i with Ok x => p x | Err _ => false end) idx.
Proof.
  revert h v. induction idx as [|i idx IH]; intros h v Hh Hv; simpl in *.
  - injection Hh as <-. simpl in Hv. by injection Hv as <-.
  - inv_bind Hh. inv_bind Hh. injection Hh as <-. simpl in Hv.
    inv_bind Hv. inv_bind Hv. injection Hv as <-.
    apply getitem_arange in Hx as (k & Hk & ->).
    apply np_facts.getitem_Ok in Hx1 as (k' & Hk' & Hx1).
    rewrite length_map, np_facts.norm_index_nat in Hk'
      by (by eapply np_facts.norm_index_lt).
    injection Hk' as <-. rewrite list_lookup_fmap in Hx1.
    destruct (a !! k) as [y|] eqn:Hy; [|done]. injection Hx1 as <-.
    unfold np.getitem at 1. rewrite Hk, Hy. f_equal. by eapply IH.
Qed.

Lemma zip_with_andb_map {A} (f g : A -> bool) (l : list A) :
  zip_with andb (map f l) (map g l) = map (fun x => f x && g x) l.
Proof. induction l as [|x l IH]; simpl; [done|]. by rewrite IH. Qed.

Lemma zip_with_status_map (f g : branch_row -> bool) (l : list branch_row) :
  zip_with (fun st (b : bool * bool) => and_status st b.1 b.2) (map BR_STATUS l)
    (zip (map f l) (map g l))
  = map (fun r => and_status (BR_STATUS r) (f r) (g r)) l.
Proof. induction l as [|x l IH]; simpl; [done|]. by rewrite IH. Qed.

Lemma map_T_BUS_set_F vals tbl :
  map T_BUS (zip_with set_F_BUS vals tbl) = map T_BUS (zip_with (fun _ r => r) vals tbl).
Proof.
  revert tbl. induction vals as [|v vals IH]; intros [|b tbl]; try done.
  simpl. by rewrite IH.
Qed.

Lemma zip_with_snd_same {A B} (vals : list A) (tbl : list B) :
  length vals = length tbl -> zip_with (fun _ r => r) vals tbl = tbl.
Proof.
  revert tbl. induction vals as [|v vals IH]; intros [|b tbl] Hl; try done.
  simpl. f_equal. apply IH. by injection Hl.
Qed.

(** The masks of lines 236-242, row by row. *)
Lemma take_bs (T : list bus_row) (idx h : list Z) (v : list bool) :
  map BUS_I T = np.arange (length T) ->
  np.take (map BUS_I T) idx = Ok h ->
  np.take (map (fun t => negb (bool_decide (t = NONE))) (map BUS_TYPE T)) h = Ok v ->
  v = map (host_is T) idx.
Proof.
  intros HT Hh Hv. rewrite HT in Hh.
  assert (map (fun t => negb (bool_decide (t = NONE))) (map BUS_TYPE T)
          = map bus_is T) as E by (by rewrite map_map).
  rewrite E in Hv. exact (take_arange_take T bus_is idx h v Hh Hv).
Qed.

Lemma gen_mask (T : list bus_row) (gens : list gen_row) :
  zip_with andb (map (fun g => bool_decide (0 < GEN_STATUS g)) gens)
    (map (host_is T) (map GEN_BUS gens))
  = map (gen_included T) gens.
Proof. rewrite map_map. apply zip_with_andb_map. Qed.

Lemma branch_mask (T : list bus_row) (brs : list branch_row) :
  zip_with (fun st (b : bool * bool) => and_status st b.1 b.2) (map BR_STATUS brs)
    (zip (map (host_is T) (map F_BUS brs)) (map (host_is T) (map T_BUS brs)))
  = map (branch_included T) brs.
Proof. rewrite !map_map. apply zip_with_status_map. Qed.

Lemma dict_get_Ok {V} key (d : gmap string V) v :
  dict_get key d = Ok v -> d !! key = Some v.
Proof. unfold dict_get. destruct (d !! key); by intros [= <-]. Qed.

Section CompileFacts.

Context (argsort : list Z -> list Z).
Context (run_userfcn : userfcn_t -> string -> case -> case).

(** Lines 258-259: the callbacks of the 'ext2int' stage. *)
Definition apply_userfcn (ppci : case) : case :=
  match userfcn ppci with
  | Some fcn => run_userfcn fcn "ext2int" ppci
  | None => ppci
  end.

(** Lines 213-229: the rebuild of the generator lookups, from the positions
    recorded when the generators were reordered. *)
Definition rebuild_gen_lookups (net : net_t) (new_gen_positions : list Z)
  : res net_t :=
  is_ext_grid ← dict_get "ext_grid" (is_mask net);
  is_gen ← dict_get "gen" (is_mask net);
  let eg_end := np.count is_ext_grid in
  let gen_end := (eg_end + np.count is_gen)%nat in
  let sgen_end := block_end net "sgen_controllable" gen_end in
  let load_end := block_end net "load_controllable" sgen_end in
  let storage_end := block_end net "storage_controllable" load_end in
  n1 ← (if bool_decide (0 < eg_end)%nat
        then _build_gen_lookups net "ext_grid" 0 eg_end new_gen_positions
        else mret net);
  n2 ← (if bool_decide (eg_end < gen_end)%nat
        then _build_gen_lookups n1 "gen" eg_end gen_end new_gen_positions
        else mret n1);
  n3 ← (if bool_decide (gen_end < sgen_end)%nat
        then _build_gen_lookups n2 "sgen_controllable" gen_end sgen_end
               new_gen_positions
        else mret n2);
  n4 ← (if bool_decide (sgen_end < load_end)%nat
        then _build_gen_lookups n3 "load_controllable" sgen_end load_end
               new_gen_positions
        else mret n3);
  (if bool_decide (load_end < storage_end)%nat
   then _build_gen_lookups n4 "storage_controllable" load_end storage_end
          new_gen_positions
   else mret n4).

(** What a successful run of [_ppc2ppci] has computed. *)
Lemma ppc2ppci_inv ppc ppci net ppc' ppci' net' :
  _ppc2ppci argsort run_userfcn ppc ppci net = Ok (ppc', ppci', net') ->
  exists bus_lookup e2i net1 bl1 gen_bus gens1 f_bus t_bus new_gen_positions ppci0,
    lookups net !! "bus" = Some bus_lookup /\
    make_e2i (reordered (bus ppc)) = Ok e2i /\
    _update_lookup_entries net bus_lookup e2i "bus" = Ok (net1, bl1) /\
    np.take e2i (map GEN_BUS (gen ppc)) = Ok gen_bus /\
    gens1 = zip_with set_GEN_BUS gen_bus (gen ppc) /\
    np.take gens1 (argsort (map GEN_BUS gens1)) = Ok (gen ppc') /\
    np.put (np.arange (length (argsort (map GEN_BUS gens1))))
      (argsort (map GEN_BUS gens1))
      (np.arange (length (argsort (map GEN_BUS gens1)))) = Ok new_gen_positions /\
    rebuild_gen_lookups net1 new_gen_positions = Ok net' /\
    np.take e2i (map F_BUS (branch ppc)) = Ok f_bus /\
    np.take e2i (map T_BUS (branch ppc)) = Ok t_bus /\
    branch ppc' = zip_with set_T_BUS t_bus (zip_with set_F_BUS f_bus (branch ppc)) /\
    bus ppc' = renumber (reordered (bus ppc)) /\
    internal ppc' = internal ppc /\
    bus ppci0 = renumber (is_buses (bus ppc)) /\
    gen ppci0 = List.filter (gen_included (bus ppc')) (gen ppc') /\
    branch ppci0 = List.filter (branch_included (bus ppc')) (branch ppc') /\
    internal ppci0
    = set_branch_is (map (branch_included (bus ppc')) (branch ppc'))
        (set_gen_is (map (gen_included (bus ppc')) (gen ppc')) (internal ppci)) /\
    userfcn ppci0 = userfcn ppci /\
    ppci' = apply_userfcn ppci0.
Proof.
  intros H. unfold _ppc2ppci in H.
  do 8 inv_bind H. destruct x6 as [net1 bl1].
  repeat inv_bind H.
  rewrite compress_is in Hx1. injection Hx1 as <-.
  rewrite reorder_bus_eq in Hx2. injection Hx2 as <-.
  rewrite set_column_renumber in Hx4. injection Hx4 as <-.
  rewrite map_BUS_I_renumber, length_reordered, slice_arange in Hx5
    by apply length_is_buses_le.
  rewrite set_column_renumber in Hx5. injection Hx5 as <-.
  apply np_facts.set_column_Ok in Hx9 as [Hl9 ->].
  apply np_facts.set_column_Ok in Hx12 as [Hl12 ->].
  rewrite map_T_BUS_set_F, zip_with_snd_same in Hx13 by done.
  apply np_facts.set_column_Ok in Hx14 as [Hl14 ->].
  (* the masks *)
  pose proof (map_BUS_I_renumber (reordered (bus ppc))) as HT.
  rewrite <- (length_renumber (reordered (bus ppc))) in HT.
  pose proof (take_bs _ _ _ _ HT Hx25 Hx26) as ->.
  pose proof (take_bs _ _ _ _ HT Hx27 Hx28) as ->.
  pose proof (take_bs _ _ _ _ HT Hx29 Hx30) as ->.
  rewrite gen_mask in Hx33. rewrite gen_mask in H.
  rewrite branch_mask in Hx32. rewrite branch_mask in H.
  rewrite np_facts.compress_map in Hx32. rewrite np_facts.compress_map in Hx33.
  injection Hx32 as <-. injection Hx33 as <-.
  match type of H with context [run_userfcn _ _ ?P] => pose (p0 := P) end.
  injection H as <- <- <-.
  exists x, x3, net1, bl1, x7, (zip_with set_GEN_BUS x7 (gen ppc)), x10, x12, x15, p0.
  split_and!; try done.
  - by apply dict_get_Ok.
  - unfold rebuild_gen_lookups. rewrite Hx18. simpl. rewrite Hx19. simpl.
    rewrite Hx20. simpl. rewrite Hx21. simpl. rewrite Hx22. simpl.
    rewrite Hx23. simpl. exact Hx24.
Qed.

(** The tables of a case that compiles have two dimensions, and so have the
    tables of the compiled external case. *)
Lemma two_dim_Ok {A} (t : table A) rows : two_dim t = Ok rows -> t = Rows rows.
Proof. destruct t; [done|]. by intros [= ->]. Qed.

Lemma ppc2ppci_tables ppc ppci net ppc' ppci' net' :
  _ppc2ppci argsort run_userfcn ppc ppci net = Ok (ppc', ppci', net') ->
  bus_arr ppc = Rows (bus ppc) /\ branch_arr ppc = Rows (branch ppc) /\
  gen_arr ppc = Rows (gen ppc) /\
  bus_arr ppc' = Rows (bus ppc') /\ branch_arr ppc' = Rows (branch ppc') /\
  gen_arr ppc' = Rows (gen ppc').
Proof.
  intros H. unfold _ppc2ppci in H.
  do 8 inv_bind H. destruct x6 as [net1 bl1].
  repeat inv_bind H. injection H as <- <- <-.
  apply two_dim_Ok in Hx0, Hx7, Hx10.
  unfold bus, branch, gen. rewrite Hx0, Hx7, Hx10. by split_and!.
Qed.

End CompileFacts.

(** ** C6: the renumbering of the buses *)

Lemma elem_of_is_buses tbl b : b ∈ is_buses tbl <-> b ∈ tbl /\ bus_is b = true.
Proof. unfold is_buses. rewrite !list_elem_of_In. apply List.filter_In. Qed.

Lemma bus_is_set_BUS_I v b : bus_is (set_BUS_I v b) = bus_is b.
Proof. done. Qed.

Lemma Forall_is_buses tbl : Forall (fun b => bus_is b = true) (is_buses tbl).
Proof. apply Forall_forall. by intros b [_ Hb]%elem_of_is_buses. Qed.

Lemma Forall_oos_buses tbl :
  Forall (fun b => bus_is b = false) (List.filter bus_oos tbl).
Proof.
  apply Forall_forall. intros b [_ Hb]%list_elem_of_In%List.filter_In.
  unfold bus_is. unfold bus_oos in Hb. by rewrite Hb.
Qed.

Lemma filter_zip_all vals l :
  Forall (fun b => bus_is b = true) l ->
  List.filter bus_is (zip_with set_BUS_I vals l) = zip_with set_BUS_I vals l.
Proof.
  intros Hl. revert vals. induction Hl as [|b l Hb _ IH]; intros [|v vals]; try done.
  simpl. rewrite bus_is_set_BUS_I, Hb. by rewrite IH.
Qed.

Lemma filter_zip_none vals l :
  Forall (fun b => bus_is b = false) l ->
  List.filter bus_is (zip_with set_BUS_I vals l) = [].
Proof.
  intros Hl. revert vals. induction Hl as [|b l Hb _ IH]; intros [|v vals]; try done.
  simpl. rewrite bus_is_set_BUS_I, Hb. by rewrite IH.
Qed.

Lemma arange_add n m :
  np.arange (n + m) = np.arange n ++ map Z.of_nat (seq n m).
Proof. unfold np.arange. by rewrite seq_app, map_app. Qed.

(** The in-service rows of the compiled external table are the internal
    table. *)
Lemma is_buses_renumber_reordered tbl :
  is_buses (renumber (reordered tbl)) = renumber (is_buses tbl).
Proof.
  unfold renumber at 1, reordered. fold (is_buses tbl).
  rewrite length_app, arange_add, zip_with_app by (by rewrite np_facts.length_arange).
  unfold is_buses at 1. rewrite List.filter_app.
  rewrite filter_zip_all by apply Forall_is_buses.
  rewrite filter_zip_none by apply Forall_oos_buses.
  by rewrite app_nil_r.
Qed.

Lemma zip_set_BUS_I_twice (vals ws : list Z) (tbl : list bus_row) :
  length ws = length tbl ->
  zip_with set_BUS_I vals (zip_with set_BUS_I ws tbl) = zip_with set_BUS_I vals tbl.
Proof.
  revert vals ws. induction tbl as [|b tbl IH]; intros vals [|w ws] Hl; try done.
  destruct vals as [|v vals]; [done|]. simpl. f_equal. apply IH. by injection Hl.
Qed.

Lemma renumber_idemp tbl : renumber (renumber tbl) = renumber tbl.
Proof.
  unfold renumber at 1. rewrite length_renumber. unfold renumber.
  apply zip_set_BUS_I_twice, np_facts.length_arange.
Qed.

Lemma reordered_ids tbl :
  NoDup (map BUS_I tbl) ->
  Forall (fun i => 0 <= i < Z.of_nat (length tbl)) (map BUS_I tbl) ->
  NoDup (map BUS_I (reordered tbl)) /\
  Forall (fun i => 0 <= i < Z.of_nat (length (reordered tbl))) (map BUS_I (reordered tbl)).
Proof.
  intros Hnd Hr. rewrite length_reordered.
  assert (map BUS_I (reordered tbl) ≡ₚ map BUS_I tbl) as Hp
    by apply Permutation_map, reordered_perm.
  by rewrite Hp.
Qed.

Lemma reordered_lookup_is tbl k b :
  is_buses tbl !! k = Some b -> reordered tbl !! k = Some b.
Proof. intros Hk. unfold reordered. by apply lookup_app_l_Some. Qed.

Lemma map_F_BUS_zip (fb tb : list Z) (brs : list branch_row) :
  length fb = length brs -> length tb = length brs ->
  map F_BUS (zip_with set_T_BUS tb (zip_with set_F_BUS fb brs)) = fb.
Proof.
  revert fb tb. induction brs as [|r brs IH]; intros [|x fb] [|y tb] Hf Ht; try done.
  simpl. f_equal. apply IH; [by injection Hf|by injection Ht].
Qed.

Lemma map_T_BUS_zip (fb tb : list Z) (brs : list branch_row) :
  length fb = length brs -> length tb = length brs ->
  map T_BUS (zip_with set_T_BUS tb (zip_with set_F_BUS fb brs)) = tb.
Proof.
  revert fb tb. induction brs as [|r brs IH]; intros [|x fb] [|y tb] Hf Ht; try done.
  simpl. f_equal. apply IH; [by injection Hf|by injection Ht].
Qed.

(** C6.  For an external case whose bus ids are distinct and lie in
    [[0, number of buses)], take the map [e2i] that the compilation builds at
    lines 167-175, from the bus table it has reordered, and applies to the
    bus references of the branches.  It sends the id of every bus to the row
    of that bus in the external table after the compilation, and the ids of
    the in-service buses one-to-one onto [[0, n)], [n] being the number of
    in-service buses; the internal case holds exactly these [n] buses, in
    their order, with [BUS_I] 0, 1, ..., n-1, the bus sent to [k] in row [k];
    and compiling again, with any sort of the generators, from the same case
    or from the compiled external case, gives the same internal bus table. *)
Theorem C6_bus_renumbering_bijection
    (argsort : list Z -> list Z) (run_userfcn : userfcn_t -> string -> case -> case)
    (ppc ppci : case) (net : net_t) (ppc' ppci' : case) (net' : net_t) :
  NoDup (map BUS_I (bus ppc)) ->
  Forall (fun i => 0 <= i < Z.of_nat (length (bus ppc))) (map BUS_I (bus ppc)) ->
  userfcn ppci = None ->
  _ppc2ppci argsort run_userfcn ppc ppci net = Ok (ppc', ppci', net') ->
  let n := length (is_buses (bus ppc)) in
  exists ppc_bus e2i,
    (* the map of the compilation *)
    reorder_bus (bus ppc) = Ok ppc_bus /\
    make_e2i ppc_bus = Ok e2i /\
    np.take e2i (map F_BUS (branch ppc)) = Ok (map F_BUS (branch ppc')) /\
    np.take e2i (map T_BUS (branch ppc)) = Ok (map T_BUS (branch ppc')) /\
    (forall b, b ∈ bus ppc ->
       exists k, np.getitem e2i (BUS_I b) = Ok k /\
                 np.getitem (bus ppc') k = Ok (set_BUS_I k b)) /\
    (* into [0, n) *)
    (forall b, b ∈ bus ppc -> bus_is b = true ->
       exists k, np.getitem e2i (BUS_I b) = Ok k /\ 0 <= k < Z.of_nat n) /\
    (* one-to-one *)
    (forall b1 b2 k, b1 ∈ bus ppc -> b2 ∈ bus ppc ->
       bus_is b1 = true -> bus_is b2 = true ->
       np.getitem e2i (BUS_I b1) = Ok k -> np.getitem e2i (BUS_I b2) = Ok k ->
       BUS_I b1 = BUS_I b2) /\
    (* onto [0, n) *)
    (forall k, 0 <= k < Z.of_nat n ->
       exists b, b ∈ bus ppc /\ bus_is b = true /\ np.getitem e2i (BUS_I b) = Ok k) /\
    (* the internal case *)
    length (bus ppci') = n /\
    map BUS_I (bus ppci') = np.arange n /\
    (forall k b, is_buses (bus ppc) !! k = Some b ->
       bus ppci' !! k = Some (set_BUS_I (Z.of_nat k) b) /\
       np.getitem e2i (BUS_I b) = Ok (Z.of_nat k)) /\
    (* compiling twice *)
    (forall argsort2 ppci2 ppc2 ppci2' net2,
       userfcn ppci2 = None ->
       _ppc2ppci argsort2 run_userfcn ppc ppci2 net = Ok (ppc2, ppci2', net2) ->
       bus ppci2' = bus ppci') /\
    (forall argsort2 ppci2 ppc2 ppci2' net2,
       userfcn ppci2 = None ->
       _ppc2ppci argsort2 run_userfcn ppc' ppci2 net' = Ok (ppc2, ppci2', net2) ->
       bus ppci2' = bus ppci').
Proof.
  intros Hnd Hr Hu H n.
  destruct (reordered_ids _ Hnd Hr) as [Hnd' Hr'].
  destruct (make_e2i_spec _ Hnd' Hr') as (e2i & He & Hlen & Hpos).
  assert (forall b, b ∈ bus ppc -> bus_is b = true ->
            exists k, is_buses (bus ppc) !! k = Some b) as Hfind.
  { intros b Hb Hs. apply list_elem_of_lookup. by apply elem_of_is_buses. }
  assert (forall k b, is_buses (bus ppc) !! k = Some b ->
            np.getitem e2i (BUS_I b) = Ok (Z.of_nat k)) as Hget.
  { intros k b Hk. by apply Hpos, reordered_lookup_is. }
  assert (forall a r p p' q, userfcn p = None ->
            _ppc2ppci a run_userfcn ppc p net = Ok (r, p', q) ->
            bus p' = renumber (is_buses (bus ppc))) as Hbus.
  { intros a r p p' q Hp Hc.
    apply ppc2ppci_inv in Hc
      as (? & ? & ? & ? & ? & ? & ? & ? & ? & p0 & Hc).
    destruct Hc as (_ & _ & _ & _ & _ & _ & _ & _ & _ & _ & _ & _ & _ & Hb & _ & _ & _ & Hu0 & ->).
    unfold apply_userfcn. rewrite Hu0, Hp. done. }
  pose proof (Hbus _ _ _ _ _ Hu H) as Hb.
  pose proof H as Hinv.
  apply ppc2ppci_inv in Hinv
    as (bl & e2i' & net1 & bl1 & keys & gens1 & fb & tb & ngp & p0 & Hinv).
  destruct Hinv as (_ & He' & _ & _ & _ & _ & _ & _ & Hfb & Htb & Hbr & Hb' & _).
  rewrite He in He'. injection He' as <-.
  assert (length fb = length (branch ppc)) as Hlf.
  { apply np_facts.take_length in Hfb. by rewrite Hfb, length_map. }
  assert (length tb = length (branch ppc)) as Hlt.
  { apply np_facts.take_length in Htb. by rewrite Htb, length_map. }
  exists (reordered (bus ppc)), e2i.
  split; [apply reorder_bus_eq|]. split; [done|].
  split; [by rewrite Hbr, map_F_BUS_zip|]. split; [by rewrite Hbr, map_T_BUS_zip|].
  split; [|split; [|split; [|split; [|split; [|split; [|split; [|split]]]]]]].
  - intros b Hin.
    assert (b ∈ reordered (bus ppc)) as [k Hk]%list_elem_of_lookup
      by (by apply elem_of_reordered).
    exists (Z.of_nat k). split; [by apply Hpos|].
    apply np_facts.getitem_nat. rewrite Hb'. by apply lookup_renumber.
  - intros b Hin Hs. destruct (Hfind b Hin Hs) as [k Hk]. exists (Z.of_nat k).
    split; [by apply Hget|]. apply lookup_lt_Some in Hk. unfold n. lia.
  - intros b1 b2 k Hi1 Hi2 Hs1 Hs2 H1 H2.
    destruct (Hfind b1 Hi1 Hs1) as [k1 Hk1]. destruct (Hfind b2 Hi2 Hs2) as [k2 Hk2].
    rewrite (Hget _ _ Hk1) in H1. rewrite (Hget _ _ Hk2) in H2.
    assert (k1 = k2) as -> by (simplify_eq; lia). congruence.
  - intros k Hk. destruct (lookup_lt_is_Some_2 (is_buses (bus ppc)) (Z.to_nat k))
      as [b Hb'']; [unfold n in Hk; lia|].
    exists b. assert (b ∈ is_buses (bus ppc)) as [? ?]%elem_of_is_buses
      by (by eapply list_elem_of_lookup_2).
    split; [done|]. split; [done|]. rewrite (Hget _ _ Hb''). f_equal. lia.
  - by rewrite Hb, length_renumber.
  - by rewrite Hb, map_BUS_I_renumber.
  - intros k b Hk. rewrite Hb. split; [by apply lookup_renumber|by apply Hget].
  - intros a p r p' q Hp Hc. rewrite Hb. by eapply Hbus.
  - intros a p r p' q Hp Hc.
    apply ppc2ppci_inv in Hc
      as (? & ? & ? & ? & ? & ? & ? & ? & ? & p1 & Hc).
    destruct Hc as (_ & _ & _ & _ & _ & _ & _ & _ & _ & _ & _ & _ & _ & Hb2 & _ & _ & _ & Hu0 & ->).
    unfold apply_userfcn. rewrite Hu0, Hp, Hb2, Hb, Hb'.
    by rewrite is_buses_renumber_reordered, renumber_idemp.
Qed.

(** The case of three buses with the ids 1, 0 (isolated) and 2: the
    compilation maps the ids 1 and 2 to 0 and 1 and the id 0 to 2. *)
Lemma C6_bus_renumbering_bijection_witness :
  exists ppc' ppci' net' ppc_bus,
    _ppc2ppci argsort_stable run_nothing ex_ppc ex_ppci ex_net = Ok (ppc', ppci', net') /\
    reorder_bus (bus ex_ppc) = Ok ppc_bus /\
    make_e2i ppc_bus = Ok [2; 0; 1] /\
    map F_BUS (branch ppc') = [0; 2] /\
    map BUS_I (bus ppci') = [0; 1].
Proof.
  assert (exists ppc' ppci' net',
            _ppc2ppci argsort_stable run_nothing ex_ppc ex_ppci ex_net
            = Ok (ppc', ppci', net')) as (ppc' & ppci' & net' & E).
  { eexists _, _, _. vm_compute. reflexivity. }
  destruct (C6_bus_renumbering_bijection argsort_stable run_nothing
              ex_ppc ex_ppci ex_net ppc' ppci' net')
    as (ppc_bus & e2i & Hr & He & Hf & _ & _ & _ & _ & _ & _ & Hids & _).
  - apply (bool_decide_unpack _). by vm_compute.
  - apply (bool_decide_unpack _). by vm_compute.
  - reflexivity.
  - exact E.
  - exists ppc', ppci', net', ppc_bus. split; [exact E|]. split; [exact Hr|].
    vm_compute in Hr. injection Hr as <-.
    pose proof He as He'. vm_compute in He'. injection He' as <-.
    split; [exact He|]. split; [|exact Hids].
    assert (Ok (map F_BUS (branch ppc')) = Ok [0; 2]) as Hf'
      by (rewrite <- Hf; vm_compute; reflexivity).
    by injection Hf'.
Defined.

(** ** C2: the inclusion masks *)

Lemma land_1_odd (st : Z) : Z.land st 1 = if Z.odd st then 1 else 0.
Proof.
  change 1 with (Z.ones 1) at 1. rewrite Z.land_ones by lia.
  change (2 ^ 1) with 2. apply Zmod_odd.
Qed.

(** The bitwise [and] of lines 240-242 on an integer and two booleans. *)
Lemma and_status_odd (st : Z) (b1 b2 : bool) :
  and_status st b1 b2 = Z.odd st && b1 && b2.
Proof.
  unfold and_status. destruct b1, b2; simpl Z.b2z;
    rewrite ?Z.land_0_r, ?Z.land_0_l, ?andb_false_r; try reflexivity.
  rewrite (land_1_odd st). by destruct (Z.odd st).
Qed.

Lemma host_is_true (tbl : list bus_row) (i : Z) :
  host_is tbl i = true <-> exists b, np.getitem tbl i = Ok b /\ BUS_TYPE b <> NONE.
Proof.
  unfold host_is. destruct (np.getitem tbl i) as [b|e].
  - unfold bus_is. rewrite negb_true_iff, bool_decide_eq_false. split.
    + intros Hb. eauto.
    + by intros (b' & [= <-] & Hb).
  - split; [done|]. by intros (b & Hb & _).
Qed.

(** C2.  After the compilation (no callback registered), a generator row
    of the external case is in the internal case iff its [GEN_STATUS] is
    positive and the type of its host bus is not [NONE], and a branch row,
    whose [BR_STATUS] is one of the status flags 0 and 1, is in the internal
    case iff its status is positive and the types of its two buses are not
    [NONE].  This is stated row by row on the two masks the compilation
    stores, by which the internal tables are the external tables filtered, and
    on the rows of the internal tables. *)
Theorem C2_inclusion_masks
    (argsort : list Z -> list Z) (run_userfcn : userfcn_t -> string -> case -> case)
    (ppc ppci : case) (net : net_t) (ppc' ppci' : case) (net' : net_t) :
  userfcn ppci = None ->
  _ppc2ppci argsort run_userfcn ppc ppci net = Ok (ppc', ppci', net') ->
  let host_in_service i :=
    exists b, np.getitem (bus ppc') i = Ok b /\ BUS_TYPE b <> NONE in
  gen ppci' = np.select (gen_is (internal ppci')) (gen ppc') /\
  branch ppci' = np.select (branch_is (internal ppci')) (branch ppc') /\
  length (gen_is (internal ppci')) = length (gen ppc') /\
  length (branch_is (internal ppci')) = length (branch ppc') /\
  (forall (j : nat) g, gen ppc' !! j = Some g ->
     (gen_is (internal ppci') !! j = Some true <->
      0 < GEN_STATUS g /\ host_in_service (GEN_BUS g))) /\
  (forall (j : nat) r, branch ppc' !! j = Some r ->
     BR_STATUS r = 0 \/ BR_STATUS r = 1 ->
     (branch_is (internal ppci') !! j = Some true <->
      0 < BR_STATUS r /\ host_in_service (F_BUS r) /\ host_in_service (T_BUS r))) /\
  (forall g, g ∈ gen ppci' <->
     g ∈ gen ppc' /\ 0 < GEN_STATUS g /\ host_in_service (GEN_BUS g)) /\
  (forall r, BR_STATUS r = 0 \/ BR_STATUS r = 1 ->
     (r ∈ branch ppci' <->
      r ∈ branch ppc' /\ 0 < BR_STATUS r /\
      host_in_service (F_BUS r) /\ host_in_service (T_BUS r))).
Proof.
  intros Hu H host.
  apply ppc2ppci_inv in H as (? & ? & ? & ? & ? & ? & ? & ? & ? & p0 & H).
  destruct H as (_ & _ & _ & _ & _ & _ & _ & _ & _ & _ & _ & _ & _ & _ & Hg & Hb & Hi & Hu0 & ->).
  unfold apply_userfcn. rewrite Hu0, Hu.
  assert (forall r, BR_STATUS r = 0 \/ BR_STATUS r = 1 ->
            (branch_included (bus ppc') r = true <->
             0 < BR_STATUS r /\ host (F_BUS r) /\ host (T_BUS r))) as Hflag.
  { intros r Hr. unfold branch_included. rewrite and_status_odd, !andb_true_iff.
    unfold host. rewrite <- !host_is_true.
    assert (Z.odd (BR_STATUS r) = true <-> 0 < BR_STATUS r) as ->; [|tauto].
    destruct Hr as [-> | ->]; simpl; split; (done || lia). }
  assert (forall g, gen_included (bus ppc') g = true <->
            0 < GEN_STATUS g /\ host (GEN_BUS g)) as Hgen.
  { intros g. unfold gen_included. rewrite andb_true_iff, bool_decide_eq_true.
    unfold host. by rewrite <- host_is_true. }
  rewrite Hi. simpl.
  split; [|split; [|split; [|split; [|split; [|split; [|split]]]]]].
  - by rewrite Hg, np_facts.select_map.
  - by rewrite Hb, np_facts.select_map.
  - by rewrite length_map.
  - by rewrite length_map.
  - intros j g Hj. rewrite list_lookup_fmap, Hj. simpl. rewrite <- Hgen.
    split; [by intros [= ->]|by intros ->].
  - intros j r Hj Hr. rewrite list_lookup_fmap, Hj. simpl. rewrite <- (Hflag r Hr).
    split; [by intros [= ->]|by intros ->].
  - intros g. rewrite Hg, !list_elem_of_In, List.filter_In, Hgen. tauto.
  - intros r Hr. rewrite Hb, !list_elem_of_In, List.filter_In, (Hflag r Hr). tauto.
Qed.

(** The case of three buses: the branch from the isolated bus is dropped. *)
Lemma C2_inclusion_masks_witness :
  exists ppc' ppci' net',
    _ppc2ppci argsort_stable run_nothing ex_ppc ex_ppci ex_net = Ok (ppc', ppci', net') /\
    gen ppci' = np.select (gen_is (internal ppci')) (gen ppc') /\
    branch ppci' = np.select (branch_is (internal ppci')) (branch ppc') /\
    branch_is (internal ppci') = [true; false].
Proof.
  assert (exists ppc' ppci' net',
            _ppc2ppci argsort_stable run_nothing ex_ppc ex_ppci ex_net
            = Ok (ppc', ppci', net') /\
            branch_is (internal ppci') = [true; false])
    as (ppc' & ppci' & net' & E & Hm).
  { eexists _, _, _. split; vm_compute; reflexivity. }
  exists ppc', ppci', net'. split; [exact E|].
  destruct (C2_inclusion_masks argsort_stable run_nothing ex_ppc ex_ppci ex_net
              ppc' ppci' net') as (Hg & Hb & _).
  - reflexivity.
  - exact E.
  - split; [exact Hg|]. split; [exact Hb|]. exact Hm.
Defined.

(** ** C4: the reordering of the generators *)

(** The contract of [np.argsort] on an array of keys: a permutation of the
    positions that puts the keys in non-decreasing order. *)
Definition is_argsort (keys order : list Z) : Prop :=
  order ≡ₚ np.arange (length keys) /\ Sorted Z.le (map (key_at keys) order).

(** The order is stable: positions with equal keys come in ascending order. *)
Definition stable_order (keys order : list Z) : Prop :=
  forall (p q : nat) (i j : Z),
    order !! p = Some i -> order !! q = Some j ->
    key_at keys i = key_at keys j -> i < j -> (p < q)%nat.

Lemma arange_range n : Forall (fun i => 0 <= i < Z.of_nat n) (np.arange n).
Proof.
  apply Forall_forall. intros i Hi. unfold np.arange in Hi.
  apply list_elem_of_In, in_map_iff in Hi as (k & <- & Hk%in_seq). lia.
Qed.

Lemma arange_NoDup n : NoDup (np.arange n).
Proof.
  unfold np.arange. apply (NoDup_fmap_2 Z.of_nat), NoDup_ListNoDup, seq_NoDup.
Qed.

Lemma is_argsort_range keys order :
  is_argsort keys order ->
  Forall (fun i => 0 <= i < Z.of_nat (length keys)) order /\ NoDup order /\
  length order = length keys.
Proof.
  intros [Hp _]. split; [|split].
  - rewrite Hp. apply arange_range.
  - rewrite Hp. apply arange_NoDup.
  - by rewrite Hp, np_facts.length_arange.
Qed.

Lemma take_lookups {A} (a : list A) idx xs :
  Forall (fun i => 0 <= i) idx -> np.take a idx = Ok xs ->
  map Some xs = map (fun i => a !! Z.to_nat i) idx.
Proof.
  intros Hr. revert xs. induction Hr as [|i idx Hi _ IH]; intros xs H; simpl in H.
  - by injection H as <-.
  - inv_bind H. inv_bind H. injection H as <-. simpl.
    apply np_facts.getitem_nonneg_Ok in Hx; [|done]. rewrite Hx. f_equal. eauto.
Qed.

Lemma lookups_arange {A} (a : list A) :
  map (fun i => a !! Z.to_nat i) (np.arange (length a)) = map Some a.
Proof.
  unfold np.arange. rewrite map_map. apply list_eq. intros k.
  rewrite !list_lookup_fmap. destruct (a !! k) as [x|] eqn:Hk; simpl.
  - rewrite lookup_seq_lt by (by eapply lookup_lt_Some). simpl.
    by rewrite Nat2Z.id, Hk.
  - rewrite lookup_ge_None_2; [done|]. rewrite length_seq.
    by apply lookup_ge_None.
Qed.

(** Indexing with a permutation of the positions permutes the rows. *)
Lemma take_perm {A} (a : list A) idx xs :
  idx ≡ₚ np.arange (length a) -> np.take a idx = Ok xs -> xs ≡ₚ a.
Proof.
  intros Hp Ht. apply take_lookups in Ht.
  - assert (map Some xs ≡ₚ map Some a) as Hs.
    { rewrite Ht, <- lookups_arange. by apply Permutation_map. }
    apply Permutation_map_inv in Hs as (l3 & Hl & Hs).
    apply (inj (fmap Some)) in Hl. by subst.
  - rewrite Hp. eapply Forall_impl; [apply arange_range|]. simpl. lia.
Qed.

Lemma take_keys (keys order ks : list Z) :
  Forall (fun i => 0 <= i < Z.of_nat (length keys)) order ->
  np.take keys order = Ok ks -> ks = map (key_at keys) order.
Proof.
  intros Hr. revert ks. induction Hr as [|i idx Hi _ IH]; intros ks H; simpl in H.
  - by injection H as <-.
  - inv_bind H. inv_bind H. injection H as <-. simpl.
    apply np_facts.getitem_nonneg_Ok in Hx; [|lia].
    unfold key_at at 1. rewrite (nth_lookup_Some _ _ _ _ Hx). f_equal. eauto.
Qed.

Lemma map_GEN_BUS_zip vals tbl :
  length vals = length tbl -> map GEN_BUS (zip_with set_GEN_BUS vals tbl) = vals.
Proof.
  revert tbl. induction vals as [|v vals IH]; intros [|b tbl] Hl; try done.
  simpl. f_equal. apply IH. by injection Hl.
Qed.

Lemma Sorted_le_filter {A} (f : A -> Z) (p : A -> bool) (l : list A) :
  Sorted Z.le (map f l) -> Sorted Z.le (map f (List.filter p l)).
Proof.
  intros Hs. apply Sorted_StronglySorted in Hs; [|apply _].
  apply StronglySorted_Sorted.
  induction l as [|x l IH]; simpl in *; [constructor|].
  apply StronglySorted_inv in Hs as [Hs Hx]. destruct (p x); simpl; [|by auto].
  constructor; [by auto|]. apply Forall_forall. intros y Hy.
  apply list_elem_of_In, in_map_iff in Hy as (z & <- & [Hz _]%List.filter_In).
  rewrite Forall_forall in Hx. apply Hx, list_elem_of_In, in_map_iff. eauto.
Qed.

(** The recorded positions are the inverse of the permutation applied. *)
Lemma new_gen_positions_inverse (order ngp : list Z) (n : nat) :
  order ≡ₚ np.arange n ->
  np.put (np.arange (length order)) order (np.arange (length order)) = Ok ngp ->
  forall (p : nat) (i : Z), order !! p = Some i -> np.getitem ngp i = Ok (Z.of_nat p).
Proof.
  intros Hp Hput p i Hi.
  assert (length order = n) as Hn by (by rewrite Hp, np_facts.length_arange).
  destruct (np_facts.put_spec order (np.arange (length order))
              (np.arange (length order))) as (a' & Ha & _ & Hin & _).
  - rewrite Hp. apply arange_NoDup.
  - rewrite np_facts.length_arange, Hn, Hp. apply arange_range.
  - apply np_facts.length_arange.
  - rewrite Hput in Ha. injection Ha as <-.
    assert (0 <= i) as Hpos.
    { assert (i ∈ np.arange n) as Hin' by (rewrite <- Hp; by eapply list_elem_of_lookup_2).
      pose proof (arange_range n) as Hr. rewrite Forall_forall in Hr.
      apply Hr in Hin'. lia. }
    apply np_facts.getitem_nonneg; [done|]. eapply Hin; [done|].
    apply np_facts.lookup_arange. by eapply lookup_lt_Some.
Qed.

(** ** The reordered generators and their lookups *)

(** X1.  When [np.argsort] meets its contract on the renumbered host buses
    of the generators, the generator table of the external case after the
    compilation is a permutation of the renumbered rows, non-decreasing in
    [GEN_BUS]; so is the internal generator table; the row at position [p] is
    the row the sort picked for [p], and the recorded [new_gen_positions] maps
    each old position to its new one and is what the lookups are rebuilt
    from. *)
Theorem gen_reorder_sorted_permutation
    (argsort : list Z -> list Z) (run_userfcn : userfcn_t -> string -> case -> case)
    (ppc ppci : case) (net : net_t) (ppc' ppci' : case) (net' : net_t)
    (e2i keys : list Z) :
  make_e2i (reordered (bus ppc)) = Ok e2i ->
  np.take e2i (map GEN_BUS (gen ppc)) = Ok keys ->
  is_argsort keys (argsort keys) ->
  userfcn ppci = None ->
  _ppc2ppci argsort run_userfcn ppc ppci net = Ok (ppc', ppci', net') ->
  let renumbered := zip_with set_GEN_BUS keys (gen ppc) in
  gen ppc' ≡ₚ renumbered /\
  Sorted Z.le (map GEN_BUS (gen ppc')) /\
  Sorted Z.le (map GEN_BUS (gen ppci')) /\
  (forall (p : nat) (i : Z), argsort keys !! p = Some i ->
     0 <= i /\ gen ppc' !! p = renumbered !! Z.to_nat i) /\
  exists new_gen_positions net1,
    (forall (p : nat) (i : Z), argsort keys !! p = Some i ->
       np.getitem new_gen_positions i = Ok (Z.of_nat p)) /\
    rebuild_gen_lookups net1 new_gen_positions = Ok net'.
Proof.
  intros He Hk Hs Hu H renumbered.
  apply ppc2ppci_inv in H
    as (bl & e2i' & net1 & bl1 & keys' & gens1 & fb & tb & ngp & p0 & H).
  destruct H as (_ & He' & _ & Hk' & -> & Ht & Hput & Hre & _ & _ & _ & _ & _ & _
                 & Hg & _ & _ & Hu0 & ->).
  rewrite He in He'. injection He' as <-. rewrite Hk in Hk'. injection Hk' as <-.
  fold renumbered in Ht, Hput.
  assert (length keys = length (gen ppc)) as Hlen.
  { apply np_facts.take_length in Hk. by rewrite Hk, length_map. }
  assert (map GEN_BUS renumbered = keys) as Hkeys by (by apply map_GEN_BUS_zip).
  rewrite Hkeys in Ht, Hput.
  assert (length renumbered = length keys) as Hlr by (by rewrite <- Hkeys, length_map).
  destruct (is_argsort_range _ _ Hs) as (Hr & Hnd & Hlo).
  destruct Hs as [Hperm Hsorted].
  assert (Sorted Z.le (map GEN_BUS (gen ppc'))) as Hsort.
  { pose proof (np_facts.take_map GEN_BUS _ _ _ Ht) as Hm.
    rewrite Hkeys in Hm. apply take_keys in Hm; [|done]. by rewrite Hm. }
  split_and!.
  - eapply take_perm; [|exact Ht]. by rewrite Hlr.
  - exact Hsort.
  - unfold apply_userfcn. rewrite Hu0, Hu, Hg. by apply Sorted_le_filter.
  - intros p i Hp.
    assert (0 <= i) as Hi.
    { eapply Forall_lookup_1 in Hr; [|exact Hp]. simpl in Hr. lia. }
    split; [done|].
    destruct (np_facts.take_lookup _ _ _ _ _ Ht Hp) as (x & Hx & Hgi).
    rewrite Hx. symmetry. by apply np_facts.getitem_nonneg_Ok.
  - exists ngp, net1. split; [|done].
    eapply new_gen_positions_inverse; [exact Hperm|exact Hput].
Qed.

(** The case of three buses, with the stable sort: the generator on the
    bus that becomes bus 0 comes first. *)
Lemma gen_reorder_sorted_permutation_witness :
  exists ppc' ppci' net',
    _ppc2ppci argsort_stable run_nothing ex_ppc ex_ppci ex_net = Ok (ppc', ppci', net') /\
    Sorted Z.le (map GEN_BUS (gen ppc')) /\ Sorted Z.le (map GEN_BUS (gen ppci')).
Proof.
  assert (exists ppc' ppci' net',
            _ppc2ppci argsort_stable run_nothing ex_ppc ex_ppci ex_net
            = Ok (ppc', ppci', net')) as (ppc' & ppci' & net' & E).
  { eexists _, _, _. vm_compute. reflexivity. }
  exists ppc', ppci', net'. split; [exact E|].
  destruct (gen_reorder_sorted_permutation argsort_stable run_nothing
              ex_ppc ex_ppci ex_net ppc' ppci' net' [2; 0; 1] [1; 0])
    as (_ & H1 & H2 & _).
  - vm_compute. reflexivity.
  - vm_compute. reflexivity.
  - split; apply (bool_decide_unpack _); by vm_compute.
  - reflexivity.
  - exact E.
  - by split.
Defined.

(** ** The bus lookup after the compilation *)

Lemma take_select_in_range (e2i lookup new : list Z) :
  np.take e2i (np.select (map (fun v => bool_decide (0 <= v)) lookup) lookup) = Ok new ->
  entries_in_range e2i lookup.
Proof.
  revert new. induction lookup as [|v lookup IH]; intros new H; [constructor|].
  simpl in H. case_bool_decide as Hv; simpl in H.
  - inv_bind H. inv_bind H. constructor; [|by eapply IH].
    intros _. apply np_facts.getitem_nonneg_Ok in Hx; [|done].
    apply lookup_lt_Some in Hx. lia.
  - constructor; [lia|by eapply IH].
Qed.

Lemma update_lookup_entries_inv net lookup e2i element net1 lookup1 :
  _update_lookup_entries net lookup e2i element = Ok (net1, lookup1) ->
  entries_in_range e2i lookup /\
  lookup1 = map (remap_entry e2i) lookup /\
  net1 = _write_lookup_to_net net element lookup1.
Proof.
  intros H. assert (entries_in_range e2i lookup) as Hr.
  { unfold _update_lookup_entries in H. inv_bind H. by eapply take_select_in_range. }
  rewrite update_lookup_entries_Ok in H by done. by injection H as <- <-.
Qed.

Lemma build_gen_lookups_lookups net element a b sort_gens net' :
  _build_gen_lookups net element a b sort_gens = Ok net' ->
  exists lookup, lookups net' = <[element := lookup]> (lookups net).
Proof.
  unfold _build_gen_lookups. intros H. do 4 inv_bind H. injection H as <-. eauto.
Qed.

Lemma build_gen_lookups_other net element a b sort_gens net' key :
  key <> element ->
  (if bool_decide (a < b)%nat then _build_gen_lookups net element a b sort_gens
   else mret net) = Ok net' ->
  lookups net' !! key = lookups net !! key.
Proof.
  intros Hne H. case_bool_decide.
  - apply build_gen_lookups_lookups in H as [l ->]. by rewrite lookup_insert_ne.
  - by injection H as <-.
Qed.

(** The rebuild of the generator lookups leaves the bus lookup alone. *)
Lemma rebuild_gen_lookups_bus net ngp net' :
  rebuild_gen_lookups net ngp = Ok net' ->
  lookups net' !! "bus" = lookups net !! "bus".
Proof.
  unfold rebuild_gen_lookups. intros H. do 6 inv_bind H.
  apply (build_gen_lookups_other _ _ _ _ _ _ "bus") in H; [|done].
  apply (build_gen_lookups_other _ _ _ _ _ _ "bus") in Hx4; [|done].
  apply (build_gen_lookups_other _ _ _ _ _ _ "bus") in Hx3; [|done].
  apply (build_gen_lookups_other _ _ _ _ _ _ "bus") in Hx2; [|done].
  apply (build_gen_lookups_other _ _ _ _ _ _ "bus") in Hx1; [|done].
  congruence.
Qed.

(** X2.  After the compilation the bus lookup of the network still resolves
    to the same bus: it keeps its length and its sentinels, and an entry that
    held the id of a bus of the external case now holds the position of that
    bus in the reordered external case, which for an in-service bus is also
    its position in the internal case. *)
Theorem bus_lookup_follows_renumbering
    (argsort : list Z -> list Z) (run_userfcn : userfcn_t -> string -> case -> case)
    (ppc ppci : case) (net : net_t) (ppc' ppci' : case) (net' : net_t)
    (bus_lookup : list Z) :
  NoDup (map BUS_I (bus ppc)) ->
  Forall (fun i => 0 <= i < Z.of_nat (length (bus ppc))) (map BUS_I (bus ppc)) ->
  userfcn ppci = None ->
  lookups net !! "bus" = Some bus_lookup ->
  _ppc2ppci argsort run_userfcn ppc ppci net = Ok (ppc', ppci', net') ->
  exists bus_lookup',
    lookups net' !! "bus" = Some bus_lookup' /\
    length bus_lookup' = length bus_lookup /\
    forall (p : nat) (v : Z), bus_lookup !! p = Some v ->
      (v < 0 -> bus_lookup' !! p = Some v) /\
      (forall b, b ∈ bus ppc -> BUS_I b = v ->
         exists k : nat,
           bus_lookup' !! p = Some (Z.of_nat k) /\
           bus ppc' !! k = Some (set_BUS_I (Z.of_nat k) b) /\
           (bus_is b = true -> bus ppci' !! k = Some (set_BUS_I (Z.of_nat k) b))).
Proof.
  intros Hnd Hr Hu Hbl H.
  apply ppc2ppci_inv in H
    as (bl & e2i & net1 & bl1 & keys & gens1 & fb & tb & ngp & p0 & H).
  destruct H as (Hbl' & He & Hup & _ & _ & _ & _ & Hre & _ & _ & _ & Hb & _ & Hbi
                 & _ & _ & _ & Hu0 & ->).
  rewrite Hbl in Hbl'. injection Hbl' as <-.
  apply update_lookup_entries_inv in Hup as (Hrange & -> & ->).
  destruct (reordered_ids _ Hnd Hr) as [Hnd' Hr'].
  destruct (make_e2i_spec _ Hnd' Hr') as (e2i' & He' & Hlen & Hpos).
  rewrite He in He'. injection He' as <-.
  exists (map (remap_entry e2i) bus_lookup). split_and!.
  - rewrite (rebuild_gen_lookups_bus _ _ _ Hre). apply lookup_insert_eq.
  - apply length_map.
  - intros p v Hp. rewrite list_lookup_fmap, Hp. simpl. split.
    + intros Hv. unfold remap_entry. by rewrite bool_decide_eq_false_2 by lia.
    + intros b Hin Hid.
      assert (exists k, reordered (bus ppc) !! k = Some b /\
                (bus_is b = true -> is_buses (bus ppc) !! k = Some b))
        as (k & Hk & Hki).
      { destruct (bus_is b) eqn:Hs.
        - assert (b ∈ is_buses (bus ppc)) as [k Hk]%list_elem_of_lookup
            by (by apply elem_of_is_buses).
          exists k. split; [by apply reordered_lookup_is|done].
        - assert (b ∈ reordered (bus ppc)) as [k Hk]%list_elem_of_lookup
            by (by apply elem_of_reordered).
          exists k. split; [done|]. by intros. }
      exists k.
      assert (0 <= v) as Hv.
      { eapply Forall_forall in Hr; [|apply list_elem_of_fmap_2; exact Hin]. lia. }
      split_and!.
      * unfold remap_entry. rewrite bool_decide_eq_true_2 by done.
        pose proof (Hpos _ _ Hk) as Hg. rewrite Hid in Hg.
        apply np_facts.getitem_nonneg_Ok in Hg; [|done]. by rewrite Hg.
      * rewrite Hb. by apply lookup_renumber.
      * intros Hs. unfold apply_userfcn. rewrite Hu0, Hu, Hbi.
        by apply lookup_renumber, Hki.
Qed.

(** The case of three buses: the network bus 0 pointed to the bus with id 1,
    which is now bus 0; the sentinel stays. *)
Lemma bus_lookup_follows_renumbering_witness :
  exists ppc' ppci' net' bus_lookup',
    _ppc2ppci argsort_stable run_nothing ex_ppc ex_ppci ex_net = Ok (ppc', ppci', net') /\
    lookups net' !! "bus" = Some bus_lookup' /\
    length bus_lookup' = 4%nat.
Proof.
  assert (exists ppc' ppci' net',
            _ppc2ppci argsort_stable run_nothing ex_ppc ex_ppci ex_net
            = Ok (ppc', ppci', net')) as (ppc' & ppci' & net' & E).
  { eexists _, _, _. vm_compute. reflexivity. }
  destruct (bus_lookup_follows_renumbering argsort_stable run_nothing
              ex_ppc ex_ppci ex_net ppc' ppci' net' [1; -1; 0; 2])
    as (bl' & H1 & H2 & _).
  - apply (bool_decide_unpack _). by vm_compute.
  - apply (bool_decide_unpack _). by vm_compute.
  - reflexivity.
  - reflexivity.
  - exact E.
  - by exists ppc', ppci', net', bl'.
Defined.

(** ** The bus references of the branches *)

Lemma lookup_zip_set_F_T (fb tb : list Z) (brs : list branch_row) j r x y :
  brs !! j = Some r -> fb !! j = Some x -> tb !! j = Some y ->
  zip_with set_T_BUS tb (zip_with set_F_BUS fb brs) !! j
  = Some (set_T_BUS y (set_F_BUS x r)).
Proof.
  intros Hr Hx Hy. rewrite lookup_zip_with, Hy. simpl.
  by rewrite lookup_zip_with, Hx, Hr.
Qed.

(** X3.  The compilation keeps every branch at its position and changes
    only its two bus references, and a reference keeps pointing to the same
    bus: when [F_BUS] (or [T_BUS]) was the id of a bus of the external case,
    the new value is the index of that bus in the bus table of the external
    case after the compilation. *)
Theorem branch_references_follow_renumbering
    (argsort : list Z -> list Z) (run_userfcn : userfcn_t -> string -> case -> case)
    (ppc ppci : case) (net : net_t) (ppc' ppci' : case) (net' : net_t) :
  NoDup (map BUS_I (bus ppc)) ->
  Forall (fun i => 0 <= i < Z.of_nat (length (bus ppc))) (map BUS_I (bus ppc)) ->
  _ppc2ppci argsort run_userfcn ppc ppci net = Ok (ppc', ppci', net') ->
  length (branch ppc') = length (branch ppc) /\
  forall (j : nat) (r : branch_row), branch ppc !! j = Some r ->
    exists r',
      branch ppc' !! j = Some r' /\
      r' = set_T_BUS (T_BUS r') (set_F_BUS (F_BUS r') r) /\
      (forall b, b ∈ bus ppc -> BUS_I b = F_BUS r ->
         np.getitem (bus ppc') (F_BUS r') = Ok (set_BUS_I (F_BUS r') b)) /\
      (forall b, b ∈ bus ppc -> BUS_I b = T_BUS r ->
         np.getitem (bus ppc') (T_BUS r') = Ok (set_BUS_I (T_BUS r') b)).
Proof.
  intros Hnd Hr H.
  apply ppc2ppci_inv in H
    as (bl & e2i & net1 & bl1 & keys & gens1 & fb & tb & ngp & p0 & H).
  destruct H as (_ & He & _ & _ & _ & _ & _ & _ & Hfb & Htb & Hbr & Hb & _).
  destruct (reordered_ids _ Hnd Hr) as [Hnd' Hr'].
  destruct (make_e2i_spec _ Hnd' Hr') as (e2i' & He' & Hlen & Hpos).
  rewrite He in He'. injection He' as <-.
  assert (length fb = length (branch ppc)) as Hlf.
  { apply np_facts.take_length in Hfb. by rewrite Hfb, length_map. }
  assert (length tb = length (branch ppc)) as Hlt.
  { apply np_facts.take_length in Htb. by rewrite Htb, length_map. }
  assert (forall b x, b ∈ bus ppc -> np.getitem e2i (BUS_I b) = Ok x ->
            np.getitem (bus ppc') x = Ok (set_BUS_I x b)) as Hsame.
  { intros b x Hin Hx.
    assert (b ∈ reordered (bus ppc)) as [k Hk]%list_elem_of_lookup
      by (by apply elem_of_reordered).
    rewrite (Hpos _ _ Hk) in Hx. injection Hx as <-.
    apply np_facts.getitem_nat. rewrite Hb. by apply lookup_renumber. }
  split.
  - rewrite Hbr, !length_zip_with. lia.
  - intros j r Hj.
    destruct (np_facts.take_lookup _ _ _ j (F_BUS r) Hfb) as (x & Hx & Hgx);
      [by rewrite list_lookup_fmap, Hj|].
    destruct (np_facts.take_lookup _ _ _ j (T_BUS r) Htb) as (y & Hy & Hgy);
      [by rewrite list_lookup_fmap, Hj|].
    exists (set_T_BUS y (set_F_BUS x r)). split_and!.
    + rewrite Hbr. by apply lookup_zip_set_F_T.
    + done.
    + intros b Hin Hid. simpl. apply Hsame; [done|]. by rewrite Hid.
    + intros b Hin Hid. simpl. apply Hsame; [done|]. by rewrite Hid.
Qed.

Lemma branch_references_follow_renumbering_witness :
  exists ppc' ppci' net',
    _ppc2ppci argsort_stable run_nothing ex_ppc ex_ppci ex_net = Ok (ppc', ppci', net') /\
    length (branch ppc') = 2%nat.
Proof.
  assert (exists ppc' ppci' net',
            _ppc2ppci argsort_stable run_nothing ex_ppc ex_ppci ex_net
            = Ok (ppc', ppci', net')) as (ppc' & ppci' & net' & E).
  { eexists _, _, _. vm_compute. reflexivity. }
  destruct (branch_references_follow_renumbering argsort_stable run_nothing
              ex_ppc ex_ppci ex_net ppc' ppci' net') as (H1 & _).
  - apply (bool_decide_unpack _). by vm_compute.
  - apply (bool_decide_unpack _). by vm_compute.
  - exact E.
  - by exists ppc', ppci', net'.
Defined.

(** ** The generator lookups *)

(** Lines 274-277: the indices of the in-service elements of a category. *)
Definition pandapower_index (net : net_t) (element : string) : res (list Z) :=
  if bool_decide (element ∈ ["sgen_controllable"; "load_controllable";
                              "storage_controllable"])
  then dict_get element (is_controllable net)
  else
    idx ← index_values net element;
    mask ← dict_get element (is_mask net);
    np.compress mask idx.

Lemma fold_max_ge (l : list Z) (x : Z) :
  x <= fold_left Z.max l x /\ Forall (fun y => y <= fold_left Z.max l x) l.
Proof.
  revert x. induction l as [|y l IH]; intros x; simpl; [split; [lia|constructor]|].
  destruct (IH (Z.max x y)) as [H1 H2]. split; [lia|]. constructor; [lia|done].
Qed.

Lemma py_max_ge (l : list Z) (m : Z) :
  py_max l = Ok m -> Forall (fun y => y <= m) l.
Proof.
  destruct l as [|x l]; [done|]. simpl. intros [= <-].
  destruct (fold_max_ge l x) as [H1 H2]. by constructor.
Qed.

Lemma lookup_slice {A} (a : list A) (start stop j : nat) :
  (j < length (np.slice a start stop))%nat ->
  np.slice a start stop !! j = a !! (start + j)%nat.
Proof.
  unfold np.slice. intros Hj. rewrite length_take in Hj.
  rewrite lookup_take_lt by lia. by rewrite lookup_drop.
Qed.

(** X4.  The lookup [_build_gen_lookups] writes for a category resolves
    the index of its j-th in-service element to the entry [start + j] of the
    recorded generator positions, holds the sentinel -1 at every other
    position, is as long as the largest index requires, and leaves the
    lookups of the other categories alone; it is built whenever the indices
    are distinct and non-negative and the block [start:stop] of the positions
    has one entry per element. *)
Theorem build_gen_lookups_round_trip (net : net_t) (element : string)
    (start stop : nat) (sort_gens index : list Z) :
  pandapower_index net element = Ok index ->
  index <> [] -> NoDup index -> Forall (fun i => 0 <= i) index ->
  length (np.slice sort_gens start stop) = length index ->
  exists net' lookup m,
    _build_gen_lookups net element start stop sort_gens = Ok net' /\
    lookups net' !! element = Some lookup /\
    py_max index = Ok m /\ length lookup = Z.to_nat (m + 1) /\
    (forall (j : nat) (i : Z), index !! j = Some i ->
       exists pos, sort_gens !! (start + j)%nat = Some pos /\
                   np.getitem lookup i = Ok pos) /\
    (forall k : nat, (k < length lookup)%nat -> Z.of_nat k ∉ index ->
       lookup !! k = Some (-1)) /\
    (forall key, key <> element -> lookups net' !! key = lookups net !! key).
Proof.
  intros Hidx Hne Hnd Hpos Hlen.
  destruct (py_max index) as [m|e] eqn:Hm; [|by destruct index].
  pose proof (py_max_ge _ _ Hm) as Hle.
  assert (0 <= m) as Hm0.
  { destruct index as [|i index]; [done|].
    apply Forall_cons in Hpos as [? _]. apply Forall_cons in Hle as [? _]. lia. }
  destruct (np_facts.put_spec index (np.minus_ones (Z.to_nat (m + 1)))
              (np.slice sort_gens start stop)) as (lookup & Hp & Hl & Hin & Hout).
  - done.
  - unfold np.minus_ones. rewrite length_replicate.
    apply Forall_forall. intros i Hi.
    rewrite Forall_forall in Hpos, Hle. specialize (Hpos i Hi). specialize (Hle i Hi).
    lia.
  - done.
  - unfold np.minus_ones in Hl. rewrite length_replicate in Hl.
    exists (_write_lookup_to_net net element lookup), lookup, m. split_and!.
    + unfold _build_gen_lookups. fold (pandapower_index net element).
      rewrite Hidx. simpl. rewrite Hm. simpl.
      rewrite bool_decide_eq_true_2 by lia. simpl. by rewrite Hp.
    + apply lookup_insert_eq.
    + done.
    + done.
    + intros j i Hj.
      destruct (lookup_lt_is_Some_2 (np.slice sort_gens start stop) j) as [pos Hs].
      { rewrite Hlen. by eapply lookup_lt_Some. }
      exists pos. split.
      * rewrite <- (lookup_slice _ _ stop); [done|]. by eapply lookup_lt_Some.
      * apply np_facts.getitem_nonneg.
        -- by eapply Forall_lookup_1 in Hpos.
        -- by eapply Hin.
    + intros k Hk Hni. rewrite (Hout k Hni). unfold np.minus_ones.
      apply lookup_replicate_2. lia.
    + intros key Hkey. simpl. by rewrite lookup_insert_ne.
Qed.

(** Two external grids with indices 0 and 3, second block of positions. *)
Lemma build_gen_lookups_round_trip_witness :
  exists net' lookup,
    _build_gen_lookups
      (mk_net ∅ ∅ (<["ext_grid" := [true; false; true]]> ∅) ∅
         (mk_ext_grid [0; 1; 3] [0; 0; 1] ∅) [] [] [] "pf" None false false
         1000 50 ∅ [] None)
      "ext_grid" 1 3 [4; 2; 0; 1] = Ok net' /\
    lookups net' !! "ext_grid" = Some lookup /\ length lookup = 4%nat.
Proof.
  destruct (build_gen_lookups_round_trip
              (mk_net ∅ ∅ (<["ext_grid" := [true; false; true]]> ∅) ∅
                 (mk_ext_grid [0; 1; 3] [0; 0; 1] ∅) [] [] [] "pf" None false false
                 1000 50 ∅ [] None)
              "ext_grid" 1 3 [4; 2; 0; 1] [0; 3])
    as (net' & lookup & m & H1 & H2 & H3 & H4 & _).
  - vm_compute. reflexivity.
  - done.
  - apply (bool_decide_unpack _). by vm_compute.
  - apply (bool_decide_unpack _). by vm_compute.
  - reflexivity.
  - exists net', lookup. split; [done|]. split; [done|].
    rewrite H4. vm_compute in H3. by injection H3 as <-.
Defined.

(** ** The incremental updater *)

Section UpdateFacts.

Context (_select_is_elements_numba :
           net_t -> option (list Z) -> option Z ->
           gmap string (list bool) * gmap string (list Z)).
Context (_calc_pq_elements_and_add_on_ppc :
           net_t -> option Z -> list bus_row -> list bus_row).
Context (_calc_shunts_and_add_on_ppc : net_t -> list bus_row -> list bus_row).
Context (_update_gen_ppc : net_t -> list gen_row -> list gen_row).
Context (_update_trafo_trafo3w_ppc : net_t -> list branch_row -> list branch_row).

Abbreviation update_ppc :=
  (_update_ppc _select_is_elements_numba _calc_pq_elements_and_add_on_ppc
     _calc_shunts_and_add_on_ppc _update_gen_ppc _update_trafo_trafo3w_ppc).

(** The network with the freshly selected in-service elements, and the three
    tables the collaborators produce from the stored case. *)
Definition selected (net : net_t) : net_t :=
  set_is_elements (_select_is_elements_numba net None None).1
    (_select_is_elements_numba net None None).2 net.

Definition updated_bus (net : net_t) (sequence : option Z) (ppc : case)
  : list bus_row :=
  _calc_shunts_and_add_on_ppc (selected net)
    (_calc_pq_elements_and_add_on_ppc (selected net) sequence (bus ppc)).

Definition updated_gen (net : net_t) (ppc : case) : list gen_row :=
  _update_gen_ppc (selected net) (gen ppc).

Definition updated_branch (net : net_t) (ppc : case) : list branch_row :=
  if opt_recycle_Ybus net then branch ppc
  else _update_trafo_trafo3w_ppc (selected net) (branch ppc).

(** The updater on a stored case whose tables have two dimensions. *)
Lemma update_ppc_unfold net sq ppc :
  stored_ppc net !! ppc_key sq = Some ppc ->
  bus_arr ppc = Rows (bus ppc) -> branch_arr ppc = Rows (branch ppc) ->
  gen_arr ppc = Rows (gen ppc) ->
  update_ppc net sq =
  (ppci_bus ← np.compress (map negb (oos_busses (updated_bus net sq ppc)))
                (updated_bus net sq ppc);
   ppci_branch ← np.compress (branch_is (internal ppc)) (updated_branch net ppc);
   ppci_gen ← np.compress (gen_is (internal ppc)) (updated_gen net ppc);
   let ppc' := set_branch (updated_branch net ppc)
                 (set_gen (updated_gen net ppc)
                    (set_bus (updated_bus net sq ppc) ppc)) in
   mret (set_stored_ppc (<[ppc_key sq := ppc']> (stored_ppc net)) (selected net),
         ppc',
         set_gen ppci_gen (set_branch ppci_branch (set_bus ppci_bus ppc)))).
Proof.
  intros Hs Hb Hbr Hg.
  unfold _update_ppc, updated_bus, updated_gen, updated_branch, selected, dict_get.
  destruct (_select_is_elements_numba net None None) as [m c].
  cbn [fst snd set_is_elements stored_ppc opt_recycle_Ybus].
  rewrite Hs. cbn [mbind res_bind].
  destruct (opt_recycle_Ybus net);
    unfold set_bus, set_branch, set_gen, set_bus_arr, set_branch_arr, set_gen_arr;
    cbn [bus_arr branch_arr gen_arr internal baseMVA version areas dcline userfcn
         sequence gencost]; rewrite ?Hb, ?Hbr, ?Hg;
    cbn [on_rows two_dim compress_table mbind res_bind bus rows_of bus_arr];
    repeat match goal with
           | |- context [np.compress ?m ?a] =>
               destruct (np.compress m a); cbn [mbind res_bind mret res_ret]
           end; reflexivity.
Qed.

End UpdateFacts.

(** X7.  Compiling and then updating gives the compiled internal tables
    back: once the cache of the internal case is the cache of the stored
    external case, an update that finds the tables as the compilation left
    them returns the internal bus, branch and generator tables of the
    compilation, and leaves the lookups as they are. *)
Theorem update_after_compile_same_internal_tables
    (argsort : list Z -> list Z) (run_userfcn : userfcn_t -> string -> case -> case)
    (_select_is_elements_numba :
       net_t -> option (list Z) -> option Z ->
       gmap string (list bool) * gmap string (list Z))
    (ppc ppci : case) (net : net_t) (ppc' ppci' : case) (net' : net_t)
    (sequence : option Z) :
  userfcn ppci = None ->
  _ppc2ppci argsort run_userfcn ppc ppci net = Ok (ppc', ppci', net') ->
  let stored := set_internal (internal ppci') ppc' in
  let net2 := set_stored_ppc (<[ppc_key sequence := stored]> (stored_ppc net')) net' in
  exists net3 ppc2 ppci2,
    _update_ppc _select_is_elements_numba (fun _ _ b => b) (fun _ b => b)
      (fun _ g => g) (fun _ r => r) net2 sequence = Ok (net3, ppc2, ppci2) /\
    bus ppci2 = bus ppci' /\ branch ppci2 = branch ppci' /\ gen ppci2 = gen ppci' /\
    lookups net3 = lookups net'.
Proof.
  intros Hu H. cbv zeta.
  pose proof (ppc2ppci_tables _ _ _ _ _ _ _ _ H) as (_ & _ & _ & Tb & Tbr & Tg).
  apply ppc2ppci_inv in H
    as (bl & e2i & net1 & bl1 & keys & gens1 & fb & tb & ngp & p0 & H).
  destruct H as (_ & _ & _ & _ & _ & _ & _ & _ & _ & _ & _ & Hb & _ & Hbi
                 & Hg & Hbr & Hi & Hu0 & ->).
  unfold apply_userfcn. rewrite Hu0, Hu.
  rewrite (update_ppc_unfold _ _ _ _ _ _ _ (set_internal (internal p0) ppc'))
    by (try apply lookup_insert_eq; done).
  unfold updated_bus, updated_branch, updated_gen, selected.
  cbn [opt_recycle_Ybus set_stored_ppc set_is_elements].
  change (bus (set_internal (internal p0) ppc')) with (bus ppc').
  change (branch (set_internal (internal p0) ppc')) with (branch ppc').
  change (gen (set_internal (internal p0) ppc')) with (gen ppc').
  assert ((if opt_recycle_Ybus net' then branch ppc' else branch ppc') = branch ppc')
    as Hrec by (by destruct (opt_recycle_Ybus net')).
  rewrite Hrec, compress_is. cbn [mbind res_bind].
  rewrite Hi. cbn [internal set_internal branch_is gen_is set_branch_is set_gen_is].
  rewrite !np_facts.compress_map. cbn [mbind res_bind mret res_ret].
  eexists _, _, _. split; [reflexivity|].
  change (bus (set_gen ?g (set_branch ?b (set_bus ?x ?c)))) with x.
  split_and!.
  - rewrite Hbi, Hb. apply is_buses_renumber_reordered.
  - by rewrite Hbr.
  - by rewrite Hg.
  - reflexivity.
Qed.

Lemma update_after_compile_same_internal_tables_witness :
  exists ppc' ppci' net' net3 ppc2 ppci2,
    _ppc2ppci argsort_stable run_nothing ex_ppc ex_ppci ex_net = Ok (ppc', ppci', net') /\
    _update_ppc (fun _ _ _ => (∅, ∅)) (fun _ _ b => b) (fun _ b => b)
      (fun _ g => g) (fun _ r => r)
      (set_stored_ppc (<["_ppc" := set_internal (internal ppci') ppc']> (stored_ppc net'))
         net') None = Ok (net3, ppc2, ppci2) /\
    bus ppci2 = bus ppci' /\ branch ppci2 = branch ppci' /\ gen ppci2 = gen ppci'.
Proof.
  assert (exists ppc' ppci' net',
            _ppc2ppci argsort_stable run_nothing ex_ppc ex_ppci ex_net
            = Ok (ppc', ppci', net')) as (ppc' & ppci' & net' & E).
  { eexists _, _, _. vm_compute. reflexivity. }
  destruct (update_after_compile_same_internal_tables argsort_stable run_nothing
              (fun _ _ _ => (∅, ∅)) ex_ppc ex_ppci ex_net ppc' ppci' net' None)
    as (net3 & ppc2 & ppci2 & H & H1 & H2 & H3 & _).
  - reflexivity.
  - exact E.
  - by exists ppc', ppci', net', net3, ppc2, ppci2.
Defined.

(** ** Composing remaps of a lookup *)

Lemma remap_entry_compose (e1 e2 e12 : list Z) (v : Z) :
  (0 <= v -> v < Z.of_nat (length e1)) ->
  Forall (fun w => 0 <= w < Z.of_nat (length e2)) e1 ->
  np.take e2 e1 = Ok e12 ->
  remap_entry e2 (remap_entry e1 v) = remap_entry e12 v.
Proof.
  intros Hv He Ht. unfold remap_entry at 2 3. case_bool_decide as Hpos.
  - destruct (lookup_lt_is_Some_2 e1 (Z.to_nat v)) as [w Hw]; [lia|].
    rewrite Hw. simpl.
    assert (0 <= w < Z.of_nat (length e2)) as Hwr
      by (by eapply Forall_lookup_1 in He).
    destruct (np_facts.take_lookup _ _ _ _ _ Ht Hw) as (x & Hx & Hg).
    rewrite Hx. simpl. unfold remap_entry. rewrite bool_decide_eq_true_2 by lia.
    apply np_facts.getitem_nonneg_Ok in Hg; [|lia]. by rewrite Hg.
  - unfold remap_entry. by rewrite bool_decide_eq_false_2.
Qed.

Lemma remap_entry_arange (n : nat) (v : Z) :
  (0 <= v -> v < Z.of_nat n) -> remap_entry (np.arange n) v = v.
Proof.
  intros Hv. unfold remap_entry. case_bool_decide as Hpos; [|done].
  rewrite np_facts.lookup_arange by lia. simpl. lia.
Qed.

Lemma write_lookup_twice net element l1 l2 :
  _write_lookup_to_net (_write_lookup_to_net net element l1) element l2
  = _write_lookup_to_net net element l2.
Proof.
  unfold _write_lookup_to_net, set_lookups. simpl. by rewrite insert_insert_eq.
Qed.

(** X8.  Two remaps of a lookup, by [e1] and then by [e2], are one remap by
    the composed mapping [e2[e1]]; and a remap by the identity mapping
    leaves the lookup as it is. *)
Theorem update_lookup_entries_compose (net : net_t) (lookup e1 e2 : list Z)
    (element : string) :
  entries_in_range e1 lookup ->
  Forall (fun w => 0 <= w < Z.of_nat (length e2)) e1 ->
  (exists net1 lookup1 net2 lookup2 e12,
     _update_lookup_entries net lookup e1 element = Ok (net1, lookup1) /\
     _update_lookup_entries net1 lookup1 e2 element = Ok (net2, lookup2) /\
     np.take e2 e1 = Ok e12 /\
     _update_lookup_entries net lookup e12 element = Ok (net2, lookup2)) /\
  _update_lookup_entries net lookup (np.arange (length e1)) element
  = Ok (_write_lookup_to_net net element lookup, lookup).
Proof.
  intros Hr He. split.
  - destruct (np_facts.take_Ok e2 e1 He) as [e12 Ht].
    assert (length e12 = length e1) as Hl by (by eapply np_facts.take_length).
    assert (map (remap_entry e2) (map (remap_entry e1) lookup)
            = map (remap_entry e12) lookup) as Hm.
    { rewrite map_map. apply map_ext_in. intros v Hv%list_elem_of_In.
      unfold entries_in_range in Hr. rewrite Forall_forall in Hr.
      by apply remap_entry_compose; [apply Hr| |]. }
    assert (entries_in_range e2 (map (remap_entry e1) lookup)) as Hr2.
    { apply Forall_forall. intros w Hw%list_elem_of_In.
      apply in_map_iff in Hw as (v & <- & Hv%list_elem_of_In).
      unfold entries_in_range in Hr. rewrite Forall_forall in Hr.
      specialize (Hr v Hv). unfold remap_entry. case_bool_decide as Hpos; [|lia].
      destruct (lookup_lt_is_Some_2 e1 (Z.to_nat v)) as [x Hx]; [lia|].
      rewrite Hx. simpl. intros _. by eapply Forall_lookup_1 in He as [? ?]. }
    eexists _, _, _, _, e12. split; [by apply update_lookup_entries_Ok|].
    split; [by apply update_lookup_entries_Ok|]. split; [done|].
    rewrite update_lookup_entries_Ok.
    + by rewrite write_lookup_twice, Hm.
    + unfold entries_in_range in *. by rewrite Hl.
  - rewrite update_lookup_entries_Ok.
    + assert (map (remap_entry (np.arange (length e1))) lookup = lookup) as ->; [|done].
      rewrite <- (map_id lookup) at 2. apply map_ext_in. intros v Hv%list_elem_of_In.
      unfold entries_in_range in Hr. rewrite Forall_forall in Hr.
      by apply remap_entry_arange, Hr.
    + unfold entries_in_range in *. by rewrite np_facts.length_arange.
Qed.

Lemma update_lookup_entries_compose_witness :
  exists net2 lookup2,
    _update_lookup_entries ex_net [1; -1; 0; 2] [2; 0; 1] "bus" = Ok (net2, lookup2) /\
    lookup2 = [0; -1; 2; 1].
Proof.
  destruct (update_lookup_entries_compose ex_net [1; -1; 0; 2] [1; 2; 0] [1; 2; 0] "bus")
    as [(net1 & l1 & net2 & l2 & e12 & H1 & H2 & H3 & H4) _].
  - apply (bool_decide_unpack _). by vm_compute.
  - apply (bool_decide_unpack _). by vm_compute.
  - exists net2, l2. vm_compute in H3. injection H3 as <-. split; [exact H4|].
    vm_compute in H1. injection H1 as <- <-. vm_compute in H2. by injection H2 as <- <-.
Defined.

(** ** The zero-sequence branch table *)

Section ZeroFacts.

Context (np_sqrt : Q -> Q).
Context (_calc_tap_from_dataframe : net_t -> trafo_row -> Q * Q * Q).
Context (_calc_nominal_ratio_from_dataframe :
           case -> trafo_row -> Q -> Q -> list Z -> Q).
Context (_transformer_correction_factor : Q -> Q -> Q -> Q -> Q).
Context (_initialize_branch_lookup : net_t -> net_t * nat).

Abbreviation add_line := (_add_line_sc_impedance_zero np_sqrt).
Abbreviation add_trafo :=
  (_add_trafo_sc_impedance_zero np_sqrt _calc_tap_from_dataframe
     _calc_nominal_ratio_from_dataframe _transformer_correction_factor).
Abbreviation build_branch_zero :=
  (_build_branch_ppc_zero np_sqrt _calc_tap_from_dataframe
     _calc_nominal_ratio_from_dataframe _transformer_correction_factor
     _initialize_branch_lookup).

(** X9.  With a three-winding transformer in the branch lookup,
    [_build_branch_ppc_zero] never returns a case: it always raises, and when
    the lines and the two-winding transformers were processed without an
    error, what it raises is the [TypeError] of calling [NotImplemented]. *)
Theorem build_branch_ppc_zero_rejects_trafo3w (net : net_t) (ppc : case) :
  is_Some (branch_lookup (_initialize_branch_lookup net).1 !! "trafo3w") ->
  exists e,
    build_branch_zero net ppc = Err e /\
    forall ppc1 ppc2,
      add_line (_initialize_branch_lookup net).1
        (set_branch (replicate (_initialize_branch_lookup net).2 default_branch) ppc)
      = Ok ppc1 ->
      add_trafo (_initialize_branch_lookup net).1 ppc1 = Ok ppc2 ->
      e = not_callable.
Proof.
  intros H3w. unfold _build_branch_ppc_zero.
  destruct (_initialize_branch_lookup net) as [net1 n]. simpl in *.
  destruct (add_line net1 _) as [ppc1|e1] eqn:H1; simpl.
  - destruct (add_trafo net1 ppc1) as [ppc2|e2] eqn:H2; simpl.
    + rewrite bool_decide_eq_true_2 by done. eauto.
    + exists e2. split; [done|]. intros p1 p2 [= <-]. by rewrite H2.
  - exists e1. split; [done|]. by intros p1 p2.
Qed.

End ZeroFacts.

(** A network with one three-winding transformer and nothing else. *)
Definition ex_init_trafo3w (net : net_t) : net_t * nat :=
  (set_branch_lookup (<["trafo3w" := (0, 3)%nat]> ∅) net, 3%nat).

Lemma build_branch_ppc_zero_rejects_trafo3w_witness :
  _build_branch_ppc_zero (fun x => x) (fun _ _ => (1, 1, 0)%Q) (fun _ _ _ _ _ => 1%Q)
    (fun _ _ _ _ => 1%Q) ex_init_trafo3w ex_net ex_ppci = Err not_callable.
Proof.
  destruct (build_branch_ppc_zero_rejects_trafo3w (fun x => x)
              (fun _ _ => (1, 1, 0)%Q) (fun _ _ _ _ _ => 1%Q) (fun _ _ _ _ => 1%Q)
              ex_init_trafo3w ex_net ex_ppci) as (e & He & Hn).
  - by eexists.
  - rewrite He. f_equal. eapply Hn; reflexivity.
Defined.

(** ** Writing a column at an index array *)

Definition in_bounds {A} (tbl : list A) (idx : list Z) : Prop :=
  Forall (fun i => 0 <= i < Z.of_nat (length tbl)) idx.

(** The rows at the indices get their new value, the others are untouched. *)
Lemma put_column_spec {A V} (set : V -> A -> A) (idx : list Z) :
  forall (tbl : list A) (vals : list V),
    NoDup idx -> in_bounds tbl idx -> length vals = length idx ->
    exists tbl',
      np.put_column set tbl idx vals = Ok tbl' /\ length tbl' = length tbl /\
      (forall k, Z.of_nat k ∉ idx -> tbl' !! k = tbl !! k) /\
      (forall j i v, idx !! j = Some i -> vals !! j = Some v ->
         exists r, tbl !! Z.to_nat i = Some r /\ tbl' !! Z.to_nat i = Some (set v r)).
Proof.
  induction idx as [|i idx IH]; intros tbl vals Hnd Hb Hl.
  - destruct vals; [|done]. exists tbl. split_and!; try done.
  - destruct vals as [|v vals]; [done|].
    apply NoDup_cons in Hnd as [Hni Hnd]. apply Forall_cons in Hb as [Hi Hb].
    destruct (lookup_lt_is_Some_2 tbl (Z.to_nat i)) as [r Hr]; [lia|].
    destruct (IH (<[Z.to_nat i := set v r]> tbl) vals)
      as (tbl' & Hp & Hlen & Hout & Hin).
    + done.
    + unfold in_bounds. by rewrite length_insert.
    + by injection Hl.
    + exists tbl'. simpl.
      rewrite (np_facts.getitem_nonneg tbl i r) by (lia || done). simpl.
      unfold np.setitem. rewrite np_facts.norm_index_nonneg by done. simpl.
      rewrite Hp, Hlen, length_insert. split_and!; try done.
      * intros k Hk. rewrite Hout by (intros ?; apply Hk; by right).
        apply list_lookup_insert_ne. intros <-. apply Hk.
        rewrite Z2Nat.id by lia. left.
      * intros [|j] i' v' Hj Hv; simpl in *.
        -- injection Hj as <-. injection Hv as <-. exists r. split; [done|].
           rewrite Hout by (by rewrite Z2Nat.id by lia).
           apply list_lookup_insert_eq. lia.
        -- destruct (Hin _ _ _ Hj Hv) as (r1 & Hr1 & Hr1').
           exists r1. split; [|done].
           rewrite list_lookup_insert_ne in Hr1; [done|].
           intros Heq. apply Hni.
           assert (0 <= i')
             by (eapply Forall_lookup_1 in Hb; [|exact Hj]; simpl in Hb; lia).
           assert (i = i') as -> by lia. by eapply list_elem_of_lookup_2.
Qed.

(** The only errors of the index operations. *)
Lemma getitem_Err {A} (a : list A) i e : np.getitem a i = Err e -> e = np.out_of_bounds.
Proof.
  unfold np.getitem. destruct (np.norm_index _ _); [destruct (a !! _)|]; by intros [= <-].
Qed.

Lemma take_Err {A} (a : list A) idx e : np.take a idx = Err e -> e = np.out_of_bounds.
Proof.
  induction idx as [|i idx IH]; [done|]. simpl.
  destruct (np.getitem a i) eqn:Hg; simpl; [|intros [= <-]; by eapply getitem_Err].
  destruct (np.take a idx); simpl; [done|]. intros [= <-]. by apply IH.
Qed.

Lemma put_column_Err {A V} (set : V -> A -> A) idx : forall tbl vals e,
  np.put_column set tbl idx vals = Err e ->
  e = np.out_of_bounds \/ e = np.shape_mismatch.
Proof.
  induction idx as [|i idx IH]; intros tbl [|v vals] e; simpl; try done.
  - intros [= <-]. by right.
  - intros [= <-]. by right.
  - destruct (np.getitem tbl i) eqn:Hg; simpl;
      [|intros [= <-]; left; by eapply getitem_Err].
    unfold np.setitem. destruct (np.norm_index _ _); simpl; [by apply IH|].
    intros [= <-]. by left.
Qed.

Lemma fill_column_Err {A V} (set : V -> A -> A) tbl idx (v : V) e :
  np.fill_column set tbl idx v = Err e ->
  e = np.out_of_bounds \/ e = np.shape_mismatch.
Proof. apply put_column_Err. Qed.

(** ** The dispatch on the vector group *)

Lemma bind_Err {A B} (m : res A) (f : A -> res B) (e : error) :
  m ≫= f = Err e -> m = Err e \/ exists a, m = Ok a /\ f a = Err e.
Proof. destruct m as [a|e']; simpl; [eauto | intros [= <-]; by left]. Qed.

Lemma two_dim_Err {A} (t : table A) e : two_dim t = Err e -> e = too_many_indices.
Proof. destruct t; [|done]. by intros [= <-]. Qed.

(** What the end of the [if]/[elif] chain raises for a vector group that is
    none of the implemented ones: [vector_group[-1]] on an empty string is an
    [IndexError], and [isdigit] holds of every character that Unicode takes
    for a digit. *)
Definition dispatch_error (vector_group : string) : error :=
  match last_char vector_group with
  | None => IndexError "string index out of range"
  | Some c =>
      if is_digit c then ValueError (phase_shift_msg vector_group)
      else ValueError (unknown_msg vector_group)
  end.

Section DispatchFacts.

Context (np_sqrt : Q -> Q).
Context (_calc_tap_from_dataframe : net_t -> trafo_row -> Q * Q * Q).
Context (_calc_nominal_ratio_from_dataframe :
           case -> trafo_row -> Q -> Q -> list Z -> Q).
Context (_transformer_correction_factor : Q -> Q -> Q -> Q -> Q).

Abbreviation group_step :=
  (trafo_group np_sqrt _calc_tap_from_dataframe _calc_nominal_ratio_from_dataframe
     _transformer_correction_factor).

(** X10.  For a group of transformers with vector group [Yy], [Yd], [Dy]
    or [Dd] the loop body only sets [BR_STATUS] of the rows of the group to 0:
    no error, the other rows and columns of the branch table and the three
    shunt accumulators are as before. *)
Theorem trafo_group_no_ground_path (net : net_t) (ppc : case) (bus_lookup : list Z)
    (vector_group : string) (trafos : list (Z * trafo_row)) (st : zs_state) :
  vector_group ∈ ["Yy"; "Yd"; "Dy"; "Dd"] ->
  NoDup (map fst trafos) ->
  in_bounds (zs_branch st) (map fst trafos) ->
  exists st',
    group_step net ppc bus_lookup vector_group trafos st = Ok st' /\
    buses_all st' = buses_all st /\ gs_all st' = gs_all st /\
    bs_all st' = bs_all st /\
    length (zs_branch st') = length (zs_branch st) /\
    (forall k : nat, Z.of_nat k ∉ map fst trafos ->
       zs_branch st' !! k = zs_branch st !! k) /\
    (forall i : Z, i ∈ map fst trafos ->
       exists r, zs_branch st !! Z.to_nat i = Some r /\
                 zs_branch st' !! Z.to_nat i = Some (set_BR_STATUS 0 r)).
Proof.
  intros Hvg Hnd Hb.
  destruct (put_column_spec set_BR_STATUS (map fst trafos) (zs_branch st)
              (replicate (length (map fst trafos)) 0))
    as (br & Hp & Hl & Hout & Hin); [done|done|by rewrite length_replicate|].
  exists (mk_zs br (buses_all st) (gs_all st) (bs_all st)).
  unfold trafo_group, np.fill_column. rewrite Hp. simpl.
  rewrite bool_decide_eq_true_2 by done. split_and!; try done.
  intros i [j Hj]%list_elem_of_lookup.
  eapply Hin; [exact Hj|]. apply lookup_replicate_2. by eapply lookup_lt_Some.
Qed.

(** X11.  For a vector group that is none of [Yy], [Yd], [Dy], [Dd], [Dyn],
    [YNd], [Yyn], [YNyn], [YNy] the loop body never returns: it raises, and
    unless an index operation failed before, what it raises is the
    [ValueError] about the phase shift when the last character of the name is
    a digit ([str.isdigit], so also a digit outside ASCII), the [ValueError]
    "unknown / not implemented" when it is another character, and an
    [IndexError] when the name is empty. *)
Theorem trafo_group_unknown_vector_group_raises (net : net_t) (ppc : case)
    (bus_lookup : list Z) (vector_group : string) (trafos : list (Z * trafo_row))
    (st : zs_state) :
  vector_group ∉ ["Yy"; "Yd"; "Dy"; "Dd"; "Dyn"; "YNd"; "Yyn"; "YNyn"; "YNy"] ->
  exists e,
    group_step net ppc bus_lookup vector_group trafos st = Err e /\
    (e = dispatch_error vector_group \/ e = np.out_of_bounds \/
     e = np.shape_mismatch \/ e = too_many_indices).
Proof.
  intros Hvg.
  apply not_elem_of_cons in Hvg as [Ha Hvg]. apply not_elem_of_cons in Hvg as [Hb Hvg].
  apply not_elem_of_cons in Hvg as [Hc Hvg]. apply not_elem_of_cons in Hvg as [Hd Hvg].
  apply not_elem_of_cons in Hvg as [H2 Hvg]. apply not_elem_of_cons in Hvg as [H3 Hvg].
  apply not_elem_of_cons in Hvg as [H4 Hvg]. apply not_elem_of_cons in Hvg as [H5 Hvg].
  apply not_elem_of_cons in Hvg as [H6 _].
  assert (vector_group ∉ ["Yy"; "Yd"; "Dy"; "Dd"]) as H1.
  { repeat (apply not_elem_of_cons; split; [done|]). apply not_elem_of_nil. }
  destruct (group_step net ppc bus_lookup vector_group trafos st) as [st'|e] eqn:H;
    unfold trafo_group in H.
  - exfalso. inv_bind H. rewrite (bool_decide_eq_false_2 _ H1) in H.
    do 8 inv_bind H.
    rewrite (bool_decide_eq_false_2 _ H2), (bool_decide_eq_false_2 _ H3),
      (bool_decide_eq_false_2 _ H4), (bool_decide_eq_false_2 _ H5),
      (bool_decide_eq_false_2 _ H6) in H.
    inv_bind H. by destruct x8.
  - exists e. split; [done|].
    apply bind_Err in H as [H|(br & _ & H)]; [apply fill_column_Err in H; tauto|].
    cbv beta in H. rewrite (bool_decide_eq_false_2 _ H1) in H.
    apply bind_Err in H as [H|(lv & _ & H)]; [apply take_Err in H; tauto|].
    apply bind_Err in H as [H|(hv & _ & H)]; [apply take_Err in H; tauto|].
    cbv beta zeta in H.
    apply bind_Err in H as [H|(br1 & _ & H)]; [apply put_column_Err in H; tauto|].
    apply bind_Err in H as [H|(br2 & _ & H)]; [apply put_column_Err in H; tauto|].
    cbv beta zeta in H.
    apply bind_Err in H as [H|(? & _ & H)]; [apply two_dim_Err in H; tauto|].
    apply bind_Err in H as [H|(rows & _ & H)]; [apply take_Err in H; tauto|].
    cbv beta zeta in H.
    apply bind_Err in H as [H|(br3 & _ & H)]; [apply put_column_Err in H; tauto|].
    apply bind_Err in H as [H|(br4 & _ & H)]; [apply put_column_Err in H; tauto|].
    cbv beta zeta in H.
    rewrite (bool_decide_eq_false_2 _ H2), (bool_decide_eq_false_2 _ H3),
      (bool_decide_eq_false_2 _ H4), (bool_decide_eq_false_2 _ H5),
      (bool_decide_eq_false_2 _ H6) in H.
    left. unfold dispatch_error. unfold last_isdigit in H.
    destruct (last_char vector_group) as [c|]; simpl in H.
    + destruct (is_digit c); by injection H as <-.
    + by injection H as <-.
Qed.

End DispatchFacts.

(** A transformer between the buses 0 (high voltage) and 1, and oracles for
    the collaborators. *)
Definition ex_trafo (vector_group : string) (si0 : Q) (in_service : bool)
  : trafo_row :=
  mk_trafo vector_group 6 1 400 6 1 1 0 100 0 si0 1 in_service.

Definition ex_sqrt (x : Q) : Q := x.
Definition ex_tap (net : net_t) (tr : trafo_row) : Q * Q * Q := (110, 20, 0)%Q.
Definition ex_ratio (ppc : case) (tr : trafo_row) (hv lv : Q) (bus_lookup : list Z)
  : Q := 1.
Definition ex_kt (vsc vscr kva cmax : Q) : Q := 1.

Definition ex_zs : zs_state := mk_zs [default_branch; default_branch] [] [] [].

Lemma trafo_group_no_ground_path_witness :
  exists st',
    trafo_group ex_sqrt ex_tap ex_ratio ex_kt ex_net ex_ppc [0; 1] "Yd"
      [(1, ex_trafo "Yd" (1 # 2) true)] ex_zs = Ok st' /\
    buses_all st' = [] /\
    zs_branch st' = [default_branch; set_BR_STATUS 0 default_branch].
Proof.
  destruct (trafo_group_no_ground_path ex_sqrt ex_tap ex_ratio ex_kt ex_net ex_ppc
              [0; 1] "Yd" [(1, ex_trafo "Yd" (1 # 2) true)] ex_zs)
    as (st' & H & Hb & _).
  - apply (bool_decide_unpack _). by vm_compute.
  - apply (bool_decide_unpack _). by vm_compute.
  - apply (bool_decide_unpack _). by vm_compute.
  - exists st'. split; [exact H|]. split; [exact Hb|].
    vm_compute in H. by injection H as <-.
Defined.

(** A name that ends in a digit outside ASCII (superscript two). *)
Lemma trafo_group_unknown_vector_group_raises_witness :
  trafo_group ex_sqrt ex_tap ex_ratio ex_kt ex_net ex_ppc [0; 1] "Dyn²"
    [(1, ex_trafo "Dyn²" (1 # 2) true)] ex_zs
  = Err (ValueError (phase_shift_msg "Dyn²")).
Proof.
  destruct (trafo_group_unknown_vector_group_raises ex_sqrt ex_tap ex_ratio ex_kt
              ex_net ex_ppc [0; 1] "Dyn²" [(1, ex_trafo "Dyn²" (1 # 2) true)] ex_zs)
    as (e & H & _).
  - apply (bool_decide_unpack _). by vm_compute.
  - rewrite H. vm_compute in H. by injection H as <-.
Defined.

(** ** The loop over the transformers of a [YNyn] group *)

(** numpy's order on complex numbers is total on rational parts. *)
Lemma Cltb_total (x y : C) : Ceqb x y = false -> Cgtb x y = false -> Cltb x y = true.
Proof.
  unfold Ceqb, Cltb, Cgtb, Qltb. intros He Hg.
  destruct (Qle_bool (re x) (re y)) eqn:H1; destruct (Qle_bool (re y) (re x)) eqn:H2;
    simpl in *; try done.
  assert (Qeq_bool (re x) (re y) = true) as Hre.
  { apply Qeq_bool_iff, Qle_antisym; by apply Qle_bool_iff. }
  assert (Qeq_bool (re y) (re x) = true) as Hre'.
  { apply Qeq_bool_iff, Qle_antisym; by apply Qle_bool_iff. }
  rewrite Hre in *. rewrite Hre'. simpl in *.
  destruct (Qle_bool (im x) (im y)) eqn:H3; destruct (Qle_bool (im y) (im x)) eqn:H4;
    simpl in *; try done.
  assert (Qeq_bool (im x) (im y) = true) as Him.
  { apply Qeq_bool_iff, Qle_antisym; by apply Qle_bool_iff. }
  by rewrite Him in He.
Qed.

(** What a round of the loop computes from [za] and [zb] of its transformer:
    the value written to [BR_B], the shunt admittance, and the side (low or
    high voltage) whose buses receive it. *)
Definition ynyn_y (za zb : C) : C :=
  if Ceqb za zb || Cgtb za zb then Cdiv (mkC 0 (-1)) za else Cdiv (mkC 0 (-1)) zb.

Definition ynyn_ys (za zb : C) : C :=
  if Ceqb za zb then CofQ 0
  else if Cgtb za zb then Cdiv (CofQ 1) (Cdiv (Cmul za zb) (Csub za zb))
  else Cdiv (CofQ 1) (Cdiv (Cmul za zb) (Csub zb za)).

Definition ynyn_side {A} (za zb : C) (lv hv : A) : A :=
  if Ceqb za zb then lv else if Cgtb za zb then hv else lv.

(** The values appended to [gs_all] and [bs_all] in a round: one per row of
    [in_service]. *)
Definition shunt_times (y : Q) (in_service : list Z) (base : Z) : list Q :=
  map (fun x => x * inject_Z base)%Q (map (fun s => y * inject_Z s)%Q in_service).

Lemma times_in_service_base_single (y : Q) (in_service : list Z) (base : Z) :
  times_in_service_base [y] in_service base = Ok (shunt_times y in_service base).
Proof.
  unfold times_in_service_base, times_in_service, bcast, shunt_times.
  case_bool_decide as Hl; simpl.
  - by destruct in_service as [|s [|s' l]].
  - clear Hl. do 2 f_equal. induction in_service as [|s l IH]; [done|].
    simpl. by rewrite IH.
Qed.

Lemma fill_column_spec {A V} (set : V -> A -> A) (tbl : list A) (idx : list Z) (v : V) :
  NoDup idx -> in_bounds tbl idx ->
  exists tbl',
    np.fill_column set tbl idx v = Ok tbl' /\ length tbl' = length tbl /\
    (forall k, Z.of_nat k ∉ idx -> tbl' !! k = tbl !! k) /\
    (forall i, i ∈ idx ->
       exists r, tbl !! Z.to_nat i = Some r /\ tbl' !! Z.to_nat i = Some (set v r)).
Proof.
  intros Hnd Hb.
  destruct (put_column_spec set idx tbl (replicate (length idx) v))
    as (tbl' & Hp & Hl & Hout & Hin); [done|done|by rewrite length_replicate|].
  exists tbl'. split_and!; try done.
  intros i [j Hj]%list_elem_of_lookup.
  eapply Hin; [exact Hj|]. apply lookup_replicate_2. by eapply lookup_lt_Some.
Qed.

(** One round: [BR_B] of every row of the group, and one entry per row of the
    group on each accumulator. *)
Lemma ynyn_round_spec (ppc_idx lv hv in_service : list Z) (base : Z) (st : zs_state)
    (za zb : C) :
  NoDup ppc_idx -> in_bounds (zs_branch st) ppc_idx ->
  exists br,
    np.fill_column set_BR_B (zs_branch st) ppc_idx (ynyn_y za zb) = Ok br /\
    ynyn_round ppc_idx lv hv in_service base st (za, zb)
    = Ok (mk_zs br (buses_all st ++ ynyn_side za zb lv hv)
            (gs_all st ++ shunt_times (re (ynyn_ys za zb)) in_service base)
            (bs_all st ++ shunt_times (im (ynyn_ys za zb)) in_service base)).
Proof.
  intros Hnd Hb.
  destruct (fill_column_spec set_BR_B (zs_branch st) ppc_idx (ynyn_y za zb) Hnd Hb)
    as (br & Hf & _).
  exists br. split; [done|].
  unfold ynyn_round, ynyn_y, ynyn_ys, ynyn_side in *.
  destruct (Ceqb za zb) eqn:He; simpl in *.
  - rewrite Hf. simpl. by rewrite !times_in_service_base_single.
  - destruct (Cgtb za zb) eqn:Hg; simpl in *.
    + rewrite Hf. simpl. by rewrite !times_in_service_base_single.
    + rewrite (Cltb_total _ _ He Hg), Hf. simpl.
      by rewrite !times_in_service_base_single.
Qed.

Lemma set_BR_B_twice (v w : C) (r : branch_row) : set_BR_B v (set_BR_B w r) = set_BR_B v r.
Proof. done. Qed.

(** X12.  The loop of lines 461-486 runs once per transformer of the group,
    and every round works on the whole group: it writes its value of [BR_B] to
    all the branch rows of the group, so after the loop every row of the group
    holds the value computed from [za], [zb] of the last transformer, and it
    appends to the accumulators the buses of one side of all the transformers
    of the group with its shunt admittance times their [in_service] flags and
    [int(baseMVA)]; rows outside the group are untouched. *)
Theorem ynyn_loop_works_on_whole_group (ppc_idx lv hv in_service : list Z) (base : Z)
    (zab : list (C * C)) (st : zs_state) :
  NoDup ppc_idx -> in_bounds (zs_branch st) ppc_idx ->
  exists st',
    ynyn_loop ppc_idx lv hv in_service base st zab = Ok st' /\
    length (zs_branch st') = length (zs_branch st) /\
    (forall k : nat, Z.of_nat k ∉ ppc_idx -> zs_branch st' !! k = zs_branch st !! k) /\
    (forall za zb, last zab = Some (za, zb) -> forall i, i ∈ ppc_idx ->
       exists r, zs_branch st !! Z.to_nat i = Some r /\
                 zs_branch st' !! Z.to_nat i = Some (set_BR_B (ynyn_y za zb) r)) /\
    buses_all st'
    = buses_all st ++ concat (map (fun p => ynyn_side p.1 p.2 lv hv) zab) /\
    gs_all st'
    = gs_all st
      ++ concat (map (fun p => shunt_times (re (ynyn_ys p.1 p.2)) in_service base) zab) /\
    bs_all st'
    = bs_all st
      ++ concat (map (fun p => shunt_times (im (ynyn_ys p.1 p.2)) in_service base) zab).
Proof.
  intros Hnd. revert st. induction zab as [|[za zb] zab IH]; intros st Hb.
  - exists st. simpl. rewrite !app_nil_r. split_and!; try done.
  - destruct (ynyn_round_spec ppc_idx lv hv in_service base st za zb Hnd Hb)
      as (br & Hf & Hround).
    destruct (fill_column_spec set_BR_B (zs_branch st) ppc_idx (ynyn_y za zb) Hnd Hb)
      as (br' & Hf' & Hl & Hout & Hin).
    rewrite Hf in Hf'. injection Hf' as <-.
    set (st1 := mk_zs br (buses_all st ++ ynyn_side za zb lv hv)
                  (gs_all st ++ shunt_times (re (ynyn_ys za zb)) in_service base)
                  (bs_all st ++ shunt_times (im (ynyn_ys za zb)) in_service base)) in *.
    destruct (IH st1) as (st' & Hloop & Hl' & Hout' & Hin' & Hbu & Hgs & Hbs).
    { unfold in_bounds. simpl. by rewrite Hl. }
    exists st'. split.
    { cbn [ynyn_loop]. rewrite Hround. exact Hloop. }
    simpl in Hl', Hout', Hin', Hbu, Hgs, Hbs. simpl. split_and!.
    + by rewrite Hl'.
    + intros k Hk. by rewrite Hout', Hout.
    + intros za' zb' Hlast i Hi. destruct (Hin i Hi) as (r & Hr & Hr1).
      exists r. split; [done|]. destruct zab as [|p zab'].
      * simpl in Hlast. injection Hlast as <- <-. simpl in Hloop.
        injection Hloop as <-. exact Hr1.
      * destruct (Hin' za' zb' Hlast i Hi) as (r1 & Hr1' & Hr').
        rewrite Hr1 in Hr1'. injection Hr1' as <-. by rewrite Hr'.
    + by rewrite Hbu, <- app_assoc.
    + by rewrite Hgs, <- app_assoc.
    + by rewrite Hbs, <- app_assoc.
Qed.

(** A group of two transformers with different partitions. *)
Lemma ynyn_loop_works_on_whole_group_witness :
  exists st',
    ynyn_loop [0; 1] [1; 1] [0; 0] [1; 1] 1 ex_zs
      [(mkC 4 0, mkC 4 0); (mkC 8 0, mkC 2 0)] = Ok st' /\
    forallb (fun r => Ceqb (BR_B r) (mkC 0 (-1 # 8))) (zs_branch st') = true /\
    buses_all st' = [1; 1; 0; 0].
Proof.
  destruct (ynyn_loop_works_on_whole_group [0; 1] [1; 1] [0; 0] [1; 1] 1
              [(mkC 4 0, mkC 4 0); (mkC 8 0, mkC 2 0)] ex_zs)
    as (st' & H & _ & _ & _ & Hb & _).
  - apply (bool_decide_unpack _). by vm_compute.
  - apply (bool_decide_unpack _). by vm_compute.
  - exists st'. split; [exact H|]. split; [|exact Hb].
    vm_compute in H. by injection H as <-.
Defined.

(** ** C9: three-winding transformers in the zero sequence *)

Section ConverterFacts.

Context (argsort : list Z -> list Z).
Context (run_userfcn : userfcn_t -> string -> case -> case).
Context (_select_is_elements_numba :
           net_t -> option (list Z) -> option Z ->
           gmap string (list bool) * gmap string (list Z)).
Context (_calc_pq_elements_and_add_on_ppc :
           net_t -> option Z -> list bus_row -> list bus_row).
Context (_calc_shunts_and_add_on_ppc : net_t -> list bus_row -> list bus_row).
Context (np_sqrt : Q -> Q).
Context (_calc_tap_from_dataframe : net_t -> trafo_row -> Q * Q * Q).
Context (_calc_nominal_ratio_from_dataframe :
           case -> trafo_row -> Q -> Q -> list Z -> Q).
Context (_transformer_correction_factor : Q -> Q -> Q -> Q -> Q).
Context (_initialize_branch_lookup : net_t -> net_t * nat).
Context (_build_bus_ppc _build_gen_ppc _build_branch_ppc _add_gen_impedances_ppc
           _add_motor_impedances_ppc _switch_branches _branches_with_oos_buses :
           net_t -> case -> res (net_t * case)).
Context (_check_connectivity : case -> res (list Z * case)).
Context (_set_isolated_buses_out_of_service : net_t -> case -> res (net_t * case)).
Context (_make_objective : case -> net_t -> res case).

Abbreviation pd2ppc :=
  (_pd2ppc argsort run_userfcn _select_is_elements_numba
     _calc_pq_elements_and_add_on_ppc _calc_shunts_and_add_on_ppc np_sqrt
     _calc_tap_from_dataframe _calc_nominal_ratio_from_dataframe
     _transformer_correction_factor _initialize_branch_lookup _build_bus_ppc
     _build_gen_ppc _build_branch_ppc _add_gen_impedances_ppc
     _add_motor_impedances_ppc _switch_branches _branches_with_oos_buses
     _check_connectivity _set_isolated_buses_out_of_service _make_objective).

Abbreviation branch_zero :=
  (_build_branch_ppc_zero np_sqrt _calc_tap_from_dataframe
     _calc_nominal_ratio_from_dataframe _transformer_correction_factor
     _initialize_branch_lookup).

(** The check of lines 353-354 ends every run of the builder. *)
Lemma branch_zero_trafo3w (net : net_t) (ppc : case) :
  is_Some (branch_lookup (_initialize_branch_lookup net).1 !! "trafo3w") ->
  exists e,
    branch_zero net ppc = Err e /\
    forall ppc1 ppc2,
      _add_line_sc_impedance_zero np_sqrt (_initialize_branch_lookup net).1
        (set_branch (replicate (_initialize_branch_lookup net).2 default_branch) ppc)
      = Ok ppc1 ->
      _add_trafo_sc_impedance_zero np_sqrt _calc_tap_from_dataframe
        _calc_nominal_ratio_from_dataframe _transformer_correction_factor
        (_initialize_branch_lookup net).1 ppc1 = Ok ppc2 ->
      e = not_callable.
Proof.
  intros H3w. unfold _build_branch_ppc_zero.
  destruct (_initialize_branch_lookup net) as [net1 n]. simpl in *.
  destruct (_add_line_sc_impedance_zero _ net1 _) as [ppc1|e1]; simpl.
  - destruct (_add_trafo_sc_impedance_zero _ _ _ _ net1 ppc1) as [ppc2|e2] eqn:H2;
      simpl.
    + rewrite bool_decide_eq_true_2 by done. eauto.
    + exists e2. split; [done|]. intros p1 p2 [= <-]. by rewrite H2.
  - exists e1. split; [done|]. by intros p1 p2.
Qed.

(** C9.  When the branch lookup that [_initialize_branch_lookup] builds
    holds a three-winding transformer, the zero-sequence branch builder raises
    on every input, with the [TypeError] of calling [NotImplemented] when the
    lines and the two-winding transformers went through, and the converter
    for sequence 0 raises too: no case is returned. *)
Theorem C9_zero_sequence_rejects_trafo3w (net : net_t) :
  (forall n, is_Some (branch_lookup (_initialize_branch_lookup n).1 !! "trafo3w")) ->
  (forall n ppc,
     exists e,
       branch_zero n ppc = Err e /\
       forall ppc1 ppc2,
         _add_line_sc_impedance_zero np_sqrt (_initialize_branch_lookup n).1
           (set_branch (replicate (_initialize_branch_lookup n).2 default_branch) ppc)
         = Ok ppc1 ->
         _add_trafo_sc_impedance_zero np_sqrt _calc_tap_from_dataframe
           _calc_nominal_ratio_from_dataframe _transformer_correction_factor
           (_initialize_branch_lookup n).1 ppc1 = Ok ppc2 ->
         e = not_callable) /\
  exists e, pd2ppc net (Some 0) = Err e.
Proof.
  intros H3w. split; [intros n ppc; by apply branch_zero_trafo3w|].
  unfold _pd2ppc.
  destruct (_select_is_elements_numba net None (Some 0)) as [m c].
  destruct (_init_ppc _ _) as [net0 ppc0].
  destruct (_build_bus_ppc net0 _) as [[net1 ppc1]|e]; [|eexists; reflexivity].
  cbn [mbind res_bind].
  destruct (_build_gen_ppc net1 ppc1) as [[net2 ppc2]|e]; [|eexists; reflexivity].
  cbn [mbind res_bind]. rewrite (bool_decide_eq_true_2 (Some 0 = Some 0)) by done.
  destruct (_add_ext_grid_sc_impedance_zero np_sqrt net2 ppc2) as [ppc3|e];
    [|eexists; reflexivity].
  cbn [mbind res_bind].
  destruct (branch_zero_trafo3w net2 ppc3 (H3w net2)) as (e & -> & _).
  eexists; reflexivity.
Qed.

End ConverterFacts.

(** A network without lines, two-winding transformers and external grids,
    and a branch lookup with a three-winding transformer. *)
Definition ex_net_trafo3w : net_t :=
  mk_net (<["bus" := [0]]> ∅) ∅ ∅ ∅ (mk_ext_grid [] [] ∅) [] [] [] "pf" None
    false false 1000 50 ∅ [] None.

Definition ex_select (net : net_t) (isolated : option (list Z)) (sequence : option Z)
  : gmap string (list bool) * gmap string (list Z) :=
  (<["ext_grid" := []]> (<["gen" := []]> ∅), ∅).

Definition ex_builder (net : net_t) (ppc : case) : res (net_t * case) := Ok (net, ppc).

Lemma C9_zero_sequence_rejects_trafo3w_witness :
  _pd2ppc argsort_stable run_nothing ex_select (fun _ _ b => b) (fun _ b => b)
    ex_sqrt ex_tap ex_ratio ex_kt ex_init_trafo3w ex_builder ex_builder ex_builder
    ex_builder ex_builder ex_builder ex_builder (fun c => Ok ([], c)) ex_builder
    (fun c _ => Ok c) ex_net_trafo3w (Some 0)
  = Err not_callable.
Proof.
  destruct (C9_zero_sequence_rejects_trafo3w argsort_stable run_nothing ex_select
              (fun _ _ b => b) (fun _ b => b) ex_sqrt ex_tap ex_ratio ex_kt
              ex_init_trafo3w ex_builder ex_builder ex_builder ex_builder ex_builder
              ex_builder ex_builder (fun c => Ok ([], c)) ex_builder
              (fun c _ => Ok c) ex_net_trafo3w) as (_ & e & He).
  - intros n. by eexists.
  - rewrite He. vm_compute in He. by injection He as <-.
Defined.

(** ** C7: the dispatch on the vector group *)



Section DispatchClaim.

Context (np_sqrt : Q -> Q).
Context (_calc_tap_from_dataframe : net_t -> trafo_row -> Q * Q * Q).
Context (_calc_nominal_ratio_from_dataframe :
           case -> trafo_row -> Q -> Q -> list Z -> Q).
Context (_transformer_correction_factor : Q -> Q -> Q -> Q -> Q).

Abbreviation group_body :=
  (trafo_group np_sqrt _calc_tap_from_dataframe _calc_nominal_ratio_from_dataframe
     _transformer_correction_factor).



End DispatchClaim.


(** ** C8: the short-circuit columns of the external grids *)

Lemma dict_get_Err {V} key (d : gmap string V) e : dict_get key d = Err e -> e = KeyError key.
Proof. unfold dict_get. destruct (d !! key); [done|]. by intros [= <-]. Qed.

Lemma bcast_Err op a b e :
  bcast op a b = Err e -> e = ValueError "operands could not be broadcast together".
Proof.
  unfold bcast. case_bool_decide; [done|].
  destruct a as [|x [|x' a]], b as [|y [|y' b]]; simpl; try done; by intros [= <-].
Qed.

(** The errors of the statements after the two column checks: no
    [ValueError] but those of numpy's broadcasting. *)
Definition later_error (e : error) : Prop :=
  match e with
  | ValueError msg =>
      msg = "operands could not be broadcast together" \/ msg = "shape mismatch"
  | _ => True
  end.

Lemma later_error_not_column (e : error) (case : string) :
  later_error e -> e <> ValueError (s_sc_msg case) /\ e <> ValueError (rx_msg case).
Proof.
  intros He. split; intros ->; simpl in He; destruct He as [He|He]; discriminate He.
Qed.

Section ExtGridClaim.

Context (np_sqrt : Q -> Q).

Abbreviation add_ext_grid := (_add_ext_grid_sc_impedance_zero np_sqrt).

Lemma y0_grid_Err net case c s_sc rx e :
  y0_grid np_sqrt net case c s_sc rx = Err e -> later_error e.
Proof.
  unfold y0_grid. intros H.
  apply bind_Err in H as [H|(z & _ & H)]; [apply bcast_Err in H; subst; by left|].
  apply bind_Err in H as [H|(z' & _ & H)].
  { case_bool_decide; [|done]. apply bcast_Err in H. subst. by left. }
  apply bind_Err in H as [H|(x & _ & H)]; [apply bcast_Err in H; subst; by left|].
  apply bind_Err in H as [H|(r & _ & H)]; [apply bcast_Err in H; subst; by left|].
  destruct (_ || _); [|by injection H as <-].
  apply bind_Err in H as [H|(x0x & _ & H)]; [apply dict_get_Err in H; by subst|].
  apply bind_Err in H as [H|(x0 & _ & H)]; [apply bcast_Err in H; subst; by left|].
  apply bind_Err in H as [H|(r0x0 & _ & H)]; [apply dict_get_Err in H; by subst|].
  apply bind_Err in H as [H|(r0 & _ & H)]; [apply bcast_Err in H; subst; by left|].
  done.
Qed.

(** The builder up to the column checks, for a network with an in-service
    external grid. *)
Definition ext_grid_c (net : net_t) (ppc : case) (case : string)
    (eg_buses_ppc : list Z) : res (option (list Q)) :=
  if bool_decide (opt_mode net = "sc") then
    _ ← two_dim (bus_arr ppc);
    rows ← np.take (bus ppc) eg_buses_ppc;
    mret (Some (map (if bool_decide (case = "max") then C_MAX else C_MIN) rows))
  else if bool_decide (opt_mode net = "pf_3ph") then mret (Some [11 # 10])
  else mret None.

Lemma add_ext_grid_unfold net ppc case bus_lookup mask eg :
  sc_case net = Ok case ->
  lookups net !! "bus" = Some bus_lookup ->
  is_mask net !! "ext_grid" = Some mask ->
  filter_ext_grid mask (ext_grid net) = Ok eg ->
  eg_index eg <> [] ->
  add_ext_grid net ppc =
  (eg_buses_ppc ← np.take bus_lookup (eg_bus eg);
   c ← ext_grid_c net ppc case eg_buses_ppc;
   if negb (bool_decide (is_Some (eg_cols eg !! s_sc_col case)))
   then Err (ValueError (s_sc_msg case))
   else
     s_sc ← dict_get (s_sc_col case) (eg_cols eg);
     if negb (bool_decide (is_Some (eg_cols eg !! rx_col case)))
     then Err (ValueError (rx_msg case))
     else
       rx ← dict_get (rx_col case) (eg_cols eg);
       c ← match c with Some c => Ok c | None => Err (UnboundLocalError "c") end;
       y0 ← y0_grid np_sqrt net case c s_sc rx;
       let '(buses, gs, bs) := _sum_by_group eg_buses_ppc (map re y0) (map im y0) in
       _ ← two_dim (bus_arr ppc);
       bus_tbl ← np.put_column set_GS (bus ppc) buses gs;
       bus_tbl ← np.put_column set_BS bus_tbl buses bs;
       mret (set_bus bus_tbl ppc)).
Proof.
  intros Hc Hl Hm Hf Hne. unfold _add_ext_grid_sc_impedance_zero, dict_get.
  rewrite Hc, Hl, Hm. cbn [mbind res_bind]. rewrite Hf. cbn [mbind res_bind].
  rewrite bool_decide_eq_false_2 by (by destruct (eg_index eg)).
  reflexivity.
Qed.

(** C8.  When the builder runs with at least one in-service external grid,
    for the case it reads ([case] of the options in mode [sc], [max]
    otherwise): it raises when the column [s_sc_<case>_mva] is absent, and
    when the column [rx_<case>] is absent; what it raises is the [ValueError]
    that names the column, once the buses of the external grids are found; and
    with both columns present it raises neither of these two errors. *)
Theorem C8_ext_grid_missing_columns (net : net_t) (ppc : case) (case : string)
    (bus_lookup : list Z) (mask : list bool) (eg : ext_grid_df) :
  sc_case net = Ok case ->
  lookups net !! "bus" = Some bus_lookup ->
  is_mask net !! "ext_grid" = Some mask ->
  filter_ext_grid mask (ext_grid net) = Ok eg ->
  eg_index eg <> [] ->
  (opt_mode net = "sc" -> opt_case net = Some case) /\
  (opt_mode net <> "sc" -> case = "max") /\
  (eg_cols eg !! s_sc_col case = None -> exists e, add_ext_grid net ppc = Err e) /\
  (eg_cols eg !! rx_col case = None -> exists e, add_ext_grid net ppc = Err e) /\
  (forall eg_buses_ppc c,
     np.take bus_lookup (eg_bus eg) = Ok eg_buses_ppc ->
     ext_grid_c net ppc case eg_buses_ppc = Ok c ->
     (eg_cols eg !! s_sc_col case = None ->
      add_ext_grid net ppc = Err (ValueError (s_sc_msg case))) /\
     (is_Some (eg_cols eg !! s_sc_col case) -> eg_cols eg !! rx_col case = None ->
      add_ext_grid net ppc = Err (ValueError (rx_msg case)))) /\
  (is_Some (eg_cols eg !! s_sc_col case) -> is_Some (eg_cols eg !! rx_col case) ->
   add_ext_grid net ppc <> Err (ValueError (s_sc_msg case)) /\
   add_ext_grid net ppc <> Err (ValueError (rx_msg case))).
Proof.
  intros Hc Hl Hm Hf Hne.
  rewrite (add_ext_grid_unfold _ ppc _ _ _ _ Hc Hl Hm Hf Hne).
  split; [|split; [|split; [|split; [|split]]]].
  - intros Hs. unfold sc_case in Hc. rewrite bool_decide_eq_true_2 in Hc by done.
    destruct (opt_case net); [by injection Hc as ->|done].
  - intros Hs. unfold sc_case in Hc. rewrite bool_decide_eq_false_2 in Hc by done.
    by injection Hc.
  - intros Hs. destruct (np.take bus_lookup _); [|eexists; reflexivity].
    cbn [mbind res_bind]. destruct (ext_grid_c _ _ _ _); [|eexists; reflexivity].
    cbn [mbind res_bind]. rewrite Hs.
    rewrite bool_decide_eq_false_2 by (by intros [? ?]). eexists; reflexivity.
  - intros Hr. destruct (np.take bus_lookup _); [|eexists; reflexivity].
    cbn [mbind res_bind]. destruct (ext_grid_c _ _ _ _); [|eexists; reflexivity].
    cbn [mbind res_bind].
    destruct (negb (bool_decide (is_Some (eg_cols eg !! s_sc_col case))));
      [eexists; reflexivity|].
    destruct (dict_get (s_sc_col case) (eg_cols eg)); [|eexists; reflexivity].
    cbn [mbind res_bind]. rewrite Hr.
    rewrite bool_decide_eq_false_2 by (by intros [? ?]). eexists; reflexivity.
  - intros eg_buses_ppc c Ht Hcc. rewrite Ht. cbn [mbind res_bind].
    rewrite Hcc. cbn [mbind res_bind]. split.
    + intros Hs. rewrite Hs. by rewrite bool_decide_eq_false_2 by (by intros [? ?]).
    + intros [s Hs] Hr. rewrite Hs, bool_decide_eq_true_2 by done.
      unfold dict_get. rewrite Hs, Hr. cbn [negb mbind res_bind].
      by rewrite bool_decide_eq_false_2 by (by intros [? ?]).
  - intros [s Hs] [r Hr].
    assert (forall e,
              (eg_buses_ppc ← np.take bus_lookup (eg_bus eg);
               c ← ext_grid_c net ppc case eg_buses_ppc;
               c ← match c with
                   | Some c => Ok c
                   | None => Err (UnboundLocalError "c")
                   end;
               y0 ← y0_grid np_sqrt net case c s r;
               let '(buses, gs, bs) :=
                 _sum_by_group eg_buses_ppc (map re y0) (map im y0) in
               _ ← two_dim (bus_arr ppc);
               bus_tbl ← np.put_column set_GS (bus ppc) buses gs;
               bus_tbl ← np.put_column set_BS bus_tbl buses bs;
               mret (set_bus bus_tbl ppc)) = Err e -> later_error e) as Hlater.
    { intros e H.
      apply bind_Err in H as [H|(b & _ & H)]; [apply take_Err in H; by subst|].
      apply bind_Err in H as [H|(c & _ & H)].
      { unfold ext_grid_c in H.
        destruct (bool_decide (opt_mode net = "sc"));
          [|by destruct (bool_decide (opt_mode net = "pf_3ph"))].
        apply bind_Err in H as [H|(? & _ & H)]; [apply two_dim_Err in H; by subst|].
        apply bind_Err in H as [H|(? & _ & H)]; [apply take_Err in H; by subst|].
        done. }
      apply bind_Err in H as [H|(c' & _ & H)]; [destruct c; [done|by injection H as <-]|].
      apply bind_Err in H as [H|(y0 & _ & H)]; [by eapply y0_grid_Err|].
      destruct (_sum_by_group _ _ _) as [[buses gs] bs].
      apply bind_Err in H as [H|(? & _ & H)]; [apply two_dim_Err in H; by subst|].
      apply bind_Err in H as [H|(? & _ & H)].
      { apply put_column_Err in H as [->| ->]; [done|by right]. }
      apply bind_Err in H as [H|(? & _ & H)].
      { apply put_column_Err in H as [->| ->]; [done|by right]. }
      done. }
    rewrite Hs, Hr, !bool_decide_eq_true_2 by done. unfold dict_get.
    rewrite Hs, Hr. cbn [negb].
    assert (forall m, (eg_buses_ppc ← np.take bus_lookup (eg_bus eg);
               c ← ext_grid_c net ppc case eg_buses_ppc;
               (Ok s ≫= fun s_sc =>
                Ok r ≫= fun rx =>
                c ← match c with
                    | Some c => Ok c
                    | None => Err (UnboundLocalError "c")
                    end;
                y0 ← y0_grid np_sqrt net case c s_sc rx;
                let '(buses, gs, bs) :=
                  _sum_by_group eg_buses_ppc (map re y0) (map im y0) in
                _ ← two_dim (bus_arr ppc);
                bus_tbl ← np.put_column set_GS (bus ppc) buses gs;
                bus_tbl ← np.put_column set_BS bus_tbl buses bs;
                mret (set_bus bus_tbl ppc))) = Err m -> later_error m) as Hl2.
    { intros m Hm'. apply Hlater. exact Hm'. }
    split; intros Heq; apply Hl2 in Heq; by apply (later_error_not_column _ case) in Heq as [? ?].
Qed.

End ExtGridClaim.

(** The external grid of [ex_net] has no short-circuit column. *)
Lemma C8_ext_grid_missing_columns_witness :
  _add_ext_grid_sc_impedance_zero ex_sqrt ex_net ex_ppc
  = Err (ValueError (s_sc_msg "max")).
Proof.
  destruct (C8_ext_grid_missing_columns ex_sqrt ex_net ex_ppc "max" [1; -1; 0; 2]
              [true] (mk_ext_grid [0] [2] ∅))
    as (_ & _ & _ & _ & H & _); [reflexivity|reflexivity|reflexivity|reflexivity|done|].
  destruct (H [0] None) as [Hs _]; [reflexivity|reflexivity|].
  by apply Hs.
Defined.

(** ** C3: where the masks are kept *)

Section MasksClaim.

Context (_select_is_elements_numba :
           net_t -> option (list Z) -> option Z ->
           gmap string (list bool) * gmap string (list Z)).
Context (_calc_pq_elements_and_add_on_ppc :
           net_t -> option Z -> list bus_row -> list bus_row).
Context (_calc_shunts_and_add_on_ppc : net_t -> list bus_row -> list bus_row).
Context (_update_gen_ppc : net_t -> list gen_row -> list gen_row).
Context (_update_trafo_trafo3w_ppc : net_t -> list branch_row -> list branch_row).

Abbreviation updater :=
  (_update_ppc _select_is_elements_numba _calc_pq_elements_and_add_on_ppc
     _calc_shunts_and_add_on_ppc _update_gen_ppc _update_trafo_trafo3w_ppc).

Lemma compress_table_Ok {A} mask (t t' : table A) :
  compress_table mask t = Ok t' -> rows_of t' = np.select mask (rows_of t).
Proof.
  destruct t as [|rows]; simpl; intros H; inv_bind H; injection H as <-; simpl.
  - by destruct mask.
  - by apply np_facts.compress_Ok in Hx as [_ ->].
Qed.

(** What a successful update has done: the internal tables are the updated
    external tables sliced by the masks of the stored case, the internal buses
    are the in-service rows of the updated bus table as they are, and neither
    the masks nor the lookups have changed. *)
Lemma update_ppc_inv (net : net_t) (sq : option Z) (net2 : net_t) (ppc2 ppci2 : case) :
  updater net sq = Ok (net2, ppc2, ppci2) ->
  exists stored,
    stored_ppc net !! ppc_key sq = Some stored /\
    branch ppci2 = np.select (branch_is (internal stored)) (branch ppc2) /\
    gen ppci2 = np.select (gen_is (internal stored)) (gen ppc2) /\
    bus ppci2 = is_buses (bus ppc2) /\
    internal ppc2 = internal stored /\ internal ppci2 = internal stored /\
    lookups net2 = lookups net /\
    stored_ppc net2 !! ppc_key sq = Some ppc2.
Proof.
  unfold _update_ppc. intros H.
  destruct (_select_is_elements_numba net None None) as [m c].
  inv_bind H. apply dict_get_Ok in Hx. cbn [stored_ppc set_is_elements] in Hx.
  exists x. split; [done|].
  do 4 inv_bind H. injection H as <- <- <-.
  rewrite compress_is in Hx1. injection Hx1 as <-.
  apply compress_table_Ok in Hx2, Hx3.
  destruct (opt_recycle_Ybus _); (split_and!; [done|done|done|done|done|done|]);
    apply lookup_insert_eq.
Qed.

End MasksClaim.

(** C3, amended.  The compilation stores the two masks in the internal
    cache of the internal case and leaves the internal cache of the external
    case as it was.  [_update_ppc] reads the masks from the internal cache of
    the stored external case and slices the updated branch and generator
    tables with exactly these masks; it computes no mask, renumbers no bus and
    leaves the lookups alone.  So an update that follows a compilation uses the
    masks of the compilation once the internal cache of the internal case has
    been put into the stored external case. *)
Theorem C3_masks_stored_and_reused
    (argsort : list Z -> list Z) (run_userfcn : userfcn_t -> string -> case -> case)
    (ppc ppci : case) (net : net_t) (ppc' ppci' : case) (net' : net_t) :
  userfcn ppci = None ->
  _ppc2ppci argsort run_userfcn ppc ppci net = Ok (ppc', ppci', net') ->
  (* the masks are in the cache of the internal case *)
  gen ppci' = np.select (gen_is (internal ppci')) (gen ppc') /\
  branch ppci' = np.select (branch_is (internal ppci')) (branch ppc') /\
  length (gen_is (internal ppci')) = length (gen ppc') /\
  length (branch_is (internal ppci')) = length (branch ppc') /\
  internal ppc' = internal ppc /\
  (* the updater slices with the masks it finds in the stored case *)
  (forall select pq shunts upd_gen upd_trafo net0 sq net2 ppc2 ppci2,
     _update_ppc select pq shunts upd_gen upd_trafo net0 sq = Ok (net2, ppc2, ppci2) ->
     exists stored,
       stored_ppc net0 !! ppc_key sq = Some stored /\
       branch ppci2 = np.select (branch_is (internal stored)) (branch ppc2) /\
       gen ppci2 = np.select (gen_is (internal stored)) (gen ppc2) /\
       bus ppci2 = is_buses (bus ppc2) /\
       internal ppc2 = internal stored /\ internal ppci2 = internal stored /\
       lookups net2 = lookups net0) /\
  (* after the compilation *)
  (forall select pq shunts upd_gen upd_trafo sq net2 ppc2 ppci2,
     _update_ppc select pq shunts upd_gen upd_trafo
       (set_stored_ppc
          (<[ppc_key sq := set_internal (internal ppci') ppc']> (stored_ppc net')) net')
       sq = Ok (net2, ppc2, ppci2) ->
     branch ppci2 = np.select (branch_is (internal ppci')) (branch ppc2) /\
     gen ppci2 = np.select (gen_is (internal ppci')) (gen ppc2) /\
     internal ppci2 = internal ppci' /\
     lookups net2 = lookups net') /\
  exists net2 ppc2 ppci2,
    _update_ppc (fun n _ _ => (is_mask n, is_controllable n)) (fun _ _ b => b)
      (fun _ b => b) (fun _ g => g) (fun _ r => r)
      (set_stored_ppc
         (<[ppc_key None := set_internal (internal ppci') ppc']> (stored_ppc net')) net')
      None = Ok (net2, ppc2, ppci2) /\
    branch ppci2 = branch ppci' /\ gen ppci2 = gen ppci' /\ bus ppci2 = bus ppci'.
Proof.
  intros Hu H.
  pose proof (ppc2ppci_tables _ _ _ _ _ _ _ _ H) as (_ & _ & _ & Tb & Tbr & Tg).
  apply ppc2ppci_inv in H as (? & ? & ? & ? & ? & ? & ? & ? & ? & p0 & H).
  destruct H as (_ & _ & _ & _ & _ & _ & _ & _ & _ & _ & _ & Hb & Hint & Hbi
                 & Hg & Hbr & Hi & Hu0 & ->).
  unfold apply_userfcn. rewrite Hu0, Hu.
  split_and!.
  - rewrite Hi, Hg. simpl. by rewrite np_facts.select_map.
  - rewrite Hi, Hbr. simpl. by rewrite np_facts.select_map.
  - rewrite Hi. simpl. by rewrite length_map.
  - rewrite Hi. simpl. by rewrite length_map.
  - done.
  - intros select pq shunts ug ut net0 sq net2 ppc2 ppci2 Hup.
    apply update_ppc_inv in Hup as (stored & ? & ? & ? & ? & ? & ? & ? & _).
    exists stored. by split_and!.
  - intros select pq shunts ug ut sq net2 ppc2 ppci2 Hup.
    apply update_ppc_inv in Hup as (stored & Hs & ? & ? & ? & ? & ? & ? & _).
    cbn [stored_ppc set_stored_ppc] in Hs. rewrite lookup_insert_eq in Hs.
    injection Hs as <-. by split_and!.
  - rewrite (update_ppc_unfold _ _ _ _ _ _ _ (set_internal (internal p0) ppc'))
      by (try apply lookup_insert_eq; done).
    unfold updated_bus, updated_branch, updated_gen, selected.
    cbn [opt_recycle_Ybus set_stored_ppc set_is_elements].
    change (bus (set_internal (internal p0) ppc')) with (bus ppc').
    change (branch (set_internal (internal p0) ppc')) with (branch ppc').
    change (gen (set_internal (internal p0) ppc')) with (gen ppc').
    assert ((if opt_recycle_Ybus net' then branch ppc' else branch ppc') = branch ppc')
      as Hrec by (by destruct (opt_recycle_Ybus net')).
    rewrite Hrec, compress_is. cbn [mbind res_bind].
    rewrite Hi. cbn [internal set_internal branch_is gen_is set_branch_is set_gen_is].
    rewrite !np_facts.compress_map. cbn [mbind res_bind mret res_ret].
    eexists _, _, _. split; [reflexivity|].
    change (bus (set_gen ?g (set_branch ?b (set_bus ?x ?c)))) with x.
    split_and!.
    + by rewrite Hbr.
    + by rewrite Hg.
    + rewrite Hbi, Hb. apply is_buses_renumber_reordered.
Qed.

Lemma C3_masks_stored_and_reused_witness :
  exists ppc' ppci' net',
    _ppc2ppci argsort_stable run_nothing ex_ppc ex_ppci ex_net = Ok (ppc', ppci', net') /\
    branch_is (internal ppci') = [true; false] /\
    branch_is (internal ppc') = [] /\
    branch ppci' = np.select (branch_is (internal ppci')) (branch ppc').
Proof.
  assert (exists ppc' ppci' net',
            _ppc2ppci argsort_stable run_nothing ex_ppc ex_ppci ex_net
            = Ok (ppc', ppci', net') /\
            branch_is (internal ppci') = [true; false])
    as (ppc' & ppci' & net' & E & Hm).
  { eexists _, _, _. split; vm_compute; reflexivity. }
  exists ppc', ppci', net'. split; [exact E|]. split; [exact Hm|].
  destruct (C3_masks_stored_and_reused argsort_stable run_nothing ex_ppc ex_ppci
              ex_net ppc' ppci' net') as (_ & Hb & _ & _ & Hi & _).
  - reflexivity.
  - exact E.
  - split; [by rewrite Hi|exact Hb].
Defined.

(** The builders of the example: they write the tables of [ex_ppc]. *)
Definition ex_build_bus (net : net_t) (ppc : case) : res (net_t * case) :=
  Ok (net, set_bus (bus ex_ppc) ppc).
Definition ex_build_gen (net : net_t) (ppc : case) : res (net_t * case) :=
  Ok (net, set_gen (gen ex_ppc) ppc).
Definition ex_build_branch (net : net_t) (ppc : case) : res (net_t * case) :=
  Ok (net, set_branch (branch ex_ppc) ppc).
Definition ex_select_net (net : net_t) (isolated : option (list Z))
    (sequence : option Z) : gmap string (list bool) * gmap string (list Z) :=
  (is_mask net, is_controllable net).

(** C3 as stated fails: after the conversion the masks are in the cache of
    the internal case, the case stored for the updater holds the empty masks of
    [_init_ppc], and the update that follows slices with these: it returns
    empty branch and generator tables. *)
Lemma C3_masks_not_in_stored_case_counterexample :
  exists net1 ppc ppci net2 ppc2 ppci2,
    _pd2ppc argsort_stable run_nothing ex_select_net (fun _ _ b => b) (fun _ b => b)
      ex_sqrt ex_tap ex_ratio ex_kt (fun n => (n, 0%nat)) ex_build_bus ex_build_gen
      ex_build_branch ex_builder ex_builder ex_builder ex_builder
      (fun c => Ok ([], c)) ex_builder (fun c _ => Ok c) ex_net None
    = Ok (net1, ppc, ppci) /\
    branch_is (internal ppci) = [true; false] /\
    gen_is (internal ppci) = [true; true] /\
    length (branch ppci) = 1%nat /\ length (gen ppci) = 2%nat /\
    stored_ppc net1 !! "_ppc" = Some ppc /\
    branch_is (internal ppc) = [] /\ gen_is (internal ppc) = [] /\
    _update_ppc ex_select_net (fun _ _ b => b) (fun _ b => b) (fun _ g => g)
      (fun _ r => r) net1 None = Ok (net2, ppc2, ppci2) /\
    branch ppci2 = [] /\ gen ppci2 = [].
Proof.
  eexists _, _, _, _, _, _.
  split; [vm_compute; reflexivity|].
  split_and!; vm_compute; reflexivity.
Qed.

(** ** C4: the order of the generators of one bus *)

(** Sorting by insertion meets the contract of [np.argsort], whatever it
    does with equal keys. *)
Lemma insert_index_perm (before : Z -> Z -> bool) (i : Z) (l : list Z) :
  insert_index before i l ≡ₚ i :: l.
Proof.
  induction l as [|j l IH]; simpl; [done|].
  destruct (before i j); [done|]. rewrite IH. apply Permutation_swap.
Qed.

Lemma argsort_by_perm (before : list Z -> Z -> Z -> bool) (keys : list Z) :
  argsort_by before keys ≡ₚ np.arange (length keys).
Proof.
  unfold argsort_by. induction (np.arange (length keys)) as [|i l IH]; simpl; [done|].
  by rewrite insert_index_perm, IH.
Qed.

Lemma insert_index_sorted (key : Z -> Z) (before : Z -> Z -> bool) (i : Z) (l : list Z) :
  (forall a b, before a b = true -> key a <= key b) ->
  (forall a b, before a b = false -> key b <= key a) ->
  Sorted Z.le (map key l) -> Sorted Z.le (map key (insert_index before i l)).
Proof.
  intros Ht Hf. induction l as [|j l IH]; simpl; intros Hs.
  - by repeat constructor.
  - destruct (before i j) eqn:Hb; simpl.
    + constructor; [done|]. constructor. by apply Ht.
    + apply Sorted_inv in Hs as [Hs Hhd]. constructor; [by apply IH|].
      destruct l as [|k l]; simpl.
      * constructor. by apply Hf.
      * destruct (before i k); simpl; constructor; [by apply Hf|].
        by apply HdRel_inv in Hhd.
Qed.

Lemma argsort_by_contract (before : list Z -> Z -> Z -> bool) (keys : list Z) :
  (forall a b, before keys a b = true -> key_at keys a <= key_at keys b) ->
  (forall a b, before keys a b = false -> key_at keys b <= key_at keys a) ->
  is_argsort keys (argsort_by before keys).
Proof.
  intros Ht Hf. split; [apply argsort_by_perm|].
  unfold argsort_by. induction (np.arange (length keys)) as [|i l IH]; simpl.
  - constructor.
  - by apply insert_index_sorted.
Qed.

Lemma argsort_stable_contract keys : is_argsort keys (argsort_stable keys).
Proof. apply argsort_by_contract; intros a b; lia. Qed.

Lemma argsort_reversing_contract keys : is_argsort keys (argsort_reversing keys).
Proof. apply argsort_by_contract; intros a b; lia. Qed.

(** numpy's [argsort] for its default kind, [quicksort], as in numpy's
    [npysort/quicksort]: the array [tosort] of positions is sorted in place by
    the keys [v]; a range of more than [SMALL_QUICKSORT] positions is
    partitioned around the median of three, a shorter one is sorted by
    insertion.  At the depth limit numpy goes on with heapsort, which is left
    out here: the result is [None] there. *)
Module npysort.

Definition SMALL_QUICKSORT : nat := 16.

Section Keys.

Variable v : list Z.

(** [v[*p]] *)
Definition key (tosort : list nat) (p : nat) : Z := nth (nth p tosort 0%nat) v 0.

(** [INTP_SWAP] of the entries at [p] and [q] *)
Definition swap (tosort : list nat) (p q : nat) : list nat :=
  <[p := nth q tosort 0%nat]> (<[q := nth p tosort 0%nat]> tosort).

(** [INTP_SWAP] of the entries at [p] and [q] if [LT(v[*p], v[*q])] *)
Definition swap_if_less (tosort : list nat) (p q : nat) : list nat :=
  if key tosort p <? key tosort q then swap tosort p q else tosort.

(** [do ++pi; while (LT(v[*pi], vp))] *)
Fixpoint scan_up (fuel : nat) (tosort : list nat) (vp : Z) (pi : nat) : option nat :=
  match fuel with
  | O => None
  | S fuel =>
      if key tosort (S pi) <? vp then scan_up fuel tosort vp (S pi) else Some (S pi)
  end.

(** [do --pj; while (LT(vp, v[*pj]))] *)
Fixpoint scan_down (tosort : list nat) (vp : Z) (pj : nat) : option nat :=
  match pj with
  | O => None
  | S pj' => if vp <? key tosort pj' then scan_down tosort vp pj' else Some pj'
  end.

(** The loop of the partition: the positions [pi] and [pj] move towards each
    other and exchange their entries until they meet. *)
Fixpoint partition (fuel : nat) (tosort : list nat) (vp : Z) (pi pj : nat)
  : option (list nat * nat) :=
  match fuel with
  | O => None
  | S fuel =>
      pi ← scan_up (length tosort) tosort vp pi;
      pj ← scan_down tosort vp pj;
      if bool_decide (pj <= pi)%nat then Some (tosort, pi)
      else partition fuel (swap tosort pi pj) vp pi pj
  end.

(** [while (pj > pl && LT(vp, v[*pk])) { *pj-- = *pk--; }] *)
Fixpoint shift (tosort : list nat) (pl : nat) (vp : Z) (pj : nat) : list nat * nat :=
  match pj with
  | O => (tosort, O)
  | S pk =>
      if bool_decide (pl < pj)%nat && (vp <? key tosort pk)
      then shift (<[pj := nth pk tosort 0%nat]> tosort) pl vp pk
      else (tosort, pj)
  end.

Definition insertion_sort (tosort : list nat) (pl pr : nat) : list nat :=
  foldl (fun tosort pi =>
           let vi := nth pi tosort 0%nat in
           let vp := nth vi v 0 in
           let '(tosort, pj) := shift tosort pl vp pi in
           <[pj := vi]> tosort)
    tosort (seq (S pl) (pr - pl)).

(** The outer loop, with the stack of the ranges still to sort and their
    depths. *)
Fixpoint aquicksort_loop (fuel : nat) (tosort : list nat) (pl pr : nat) (cdepth : Z)
    (stack : list (nat * nat * Z)) : option (list nat) :=
  match fuel with
  | O => None
  | S fuel =>
      if bool_decide (SMALL_QUICKSORT < pr - pl)%nat then
        (* quicksort partition *)
        let pm := (pl + (pr - pl) / 2)%nat in
        let tosort := swap_if_less tosort pm pl in
        let tosort := swap_if_less tosort pr pm in
        let tosort := swap_if_less tosort pm pl in
        let vp := key tosort pm in
        let tosort := swap tosort pm (pr - 1) in
        '(tosort, pi) ← partition (length tosort) tosort vp pl (pr - 1);
        let tosort := swap tosort pi (pr - 1) in
        let cdepth := cdepth - 1 in
        (* push largest partition on stack *)
        if bool_decide (pi - pl < pr - pi)%nat
        then aquicksort_loop fuel tosort pl (pi - 1) cdepth ((S pi, pr, cdepth) :: stack)
        else aquicksort_loop fuel tosort (S pi) pr cdepth ((pl, pi - 1, cdepth)%nat :: stack)
      else
        let tosort := insertion_sort tosort pl pr in
        match stack with
        | [] => Some tosort
        | (pl, pr, cdepth) :: stack =>
            if bool_decide (cdepth < 0) then None
            else aquicksort_loop fuel tosort pl pr cdepth stack
        end
  end.

Definition aquicksort : option (list nat) :=
  let num := length v in
  aquicksort_loop (S num) (seq 0 num) 0 (num - 1) (Z.log2 (Z.of_nat num) * 2) [].

End Keys.

(** [keys.argsort()] *)
Definition argsort (keys : list Z) : list Z :=
  default [] (map Z.of_nat <$> aquicksort keys).

End npysort.

(** Two generators on the bus with id 2, told apart by their [PG]. *)
Definition ex_ppc_same_bus : case :=
  set_gen [mk_gen 2 1 5 1; mk_gen 2 1 7 1] ex_ppc.

(** Eighteen generators on the bus with id 2, with [PG] 0 to 17. *)
Definition ex_ppc_one_bus : case :=
  set_gen (map (fun k => mk_gen 2 1 (inject_Z k) 1) (np.arange 18)) ex_ppc.

(** C4 as stated fails.  With a sort that meets the contract of
    [np.argsort] on every array of keys and puts equal keys in the reverse
    order, the two generators of one bus are exchanged.  With numpy's
    quicksort, the default kind, the partition of eighteen equal keys exchanges
    the positions 1 to 7 with the positions 15 to 9, and the eighteen
    generators of one bus leave the compilation in this order. *)
Lemma C4_equal_keys_not_kept_counterexample :
  (forall keys, is_argsort keys (argsort_reversing keys)) /\
  (exists ppc' ppci' net',
     _ppc2ppci argsort_reversing run_nothing ex_ppc_same_bus ex_ppci ex_net
     = Ok (ppc', ppci', net') /\
     map GEN_BUS (gen ex_ppc_same_bus) = [2; 2] /\
     map PG (gen ex_ppc_same_bus) = [5%Q; 7%Q] /\
     map GEN_BUS (gen ppci') = [1; 1] /\
     map PG (gen ppci') = [7%Q; 5%Q]) /\
  npysort.argsort (replicate 18 1)
  = [0; 15; 14; 13; 12; 11; 10; 9; 8; 7; 6; 5; 4; 3; 2; 1; 16; 17] /\
  exists ppc' ppci' net',
    _ppc2ppci npysort.argsort run_nothing ex_ppc_one_bus ex_ppci ex_net
    = Ok (ppc', ppci', net') /\
    map GEN_BUS (gen ex_ppc_one_bus) = replicate 18 2 /\
    map PG (gen ex_ppc_one_bus) = map inject_Z (np.arange 18) /\
    map GEN_BUS (gen ppci') = replicate 18 1 /\
    map PG (gen ppci')
    = map inject_Z [0; 15; 14; 13; 12; 11; 10; 9; 8; 7; 6; 5; 4; 3; 2; 1; 16; 17].
Proof.
  split; [apply argsort_reversing_contract|].
  split; [eexists _, _, _; split; [vm_compute; reflexivity|]; by split_and!|].
  split; [vm_compute; reflexivity|].
  eexists _, _, _. split; [vm_compute; reflexivity|].
  split_and!; vm_compute; reflexivity.
Qed.

(** C4, amended.  When [np.argsort] meets its contract and no callback is
    registered, the generators of the external case after the compilation are
    the renumbered generators in the order that [argsort] returns for their
    host buses: a permutation, non-decreasing in [GEN_BUS], and so is the
    internal generator table; the position each generator has moved to is
    recorded in [new_gen_positions], from which the lookups are rebuilt.
    Generators of one bus keep their order when the order returned by
    [argsort] is stable. *)
Theorem C4_gen_reorder_sorted
    (argsort : list Z -> list Z) (run_userfcn : userfcn_t -> string -> case -> case)
    (ppc ppci : case) (net : net_t) (ppc' ppci' : case) (net' : net_t) :
  (forall keys, is_argsort keys (argsort keys)) ->
  userfcn ppci = None ->
  _ppc2ppci argsort run_userfcn ppc ppci net = Ok (ppc', ppci', net') ->
  exists (keys new_gen_positions : list Z) (net1 : net_t),
    let renumbered := zip_with set_GEN_BUS keys (gen ppc) in
    map GEN_BUS renumbered = keys /\
    length renumbered = length (gen ppc) /\
    gen ppc' ≡ₚ renumbered /\
    Sorted Z.le (map GEN_BUS (gen ppc')) /\
    Sorted Z.le (map GEN_BUS (gen ppci')) /\
    (forall (p : nat) (i : Z), argsort keys !! p = Some i ->
       0 <= i /\ gen ppc' !! p = renumbered !! Z.to_nat i /\
       np.getitem new_gen_positions i = Ok (Z.of_nat p)) /\
    rebuild_gen_lookups net1 new_gen_positions = Ok net' /\
    (stable_order keys (argsort keys) ->
     forall (i j : nat) (gi gj : gen_row),
       renumbered !! i = Some gi -> renumbered !! j = Some gj ->
       GEN_BUS gi = GEN_BUS gj -> (i < j)%nat ->
       exists p q : nat,
         np.getitem new_gen_positions (Z.of_nat i) = Ok (Z.of_nat p) /\
         np.getitem new_gen_positions (Z.of_nat j) = Ok (Z.of_nat q) /\
         gen ppc' !! p = Some gi /\ gen ppc' !! q = Some gj /\ (p < q)%nat).
Proof.
  intros Hsort Hu H.
  apply ppc2ppci_inv in H
    as (bl & e2i & net1 & bl1 & keys & gens1 & fb & tb & ngp & p0 & H).
  destruct H as (_ & He & _ & Hk & -> & Ht & Hput & Hre & _ & _ & _ & _ & _ & _
                 & Hg & _ & _ & Hu0 & ->).
  exists keys, ngp, net1. cbv zeta.
  set (renumbered := zip_with set_GEN_BUS keys (gen ppc)) in *.
  assert (length keys = length (gen ppc)) as Hlen.
  { apply np_facts.take_length in Hk. by rewrite Hk, length_map. }
  assert (map GEN_BUS renumbered = keys) as Hkeys by (by apply map_GEN_BUS_zip).
  rewrite Hkeys in Ht, Hput.
  assert (length renumbered = length keys) as Hlr by (by rewrite <- Hkeys, length_map).
  pose proof (Hsort keys) as Hs.
  destruct (is_argsort_range _ _ Hs) as (Hr & Hnd & Hlo).
  destruct Hs as [Hperm Hsorted].
  assert (Sorted Z.le (map GEN_BUS (gen ppc'))) as Hsd.
  { pose proof (np_facts.take_map GEN_BUS _ _ _ Ht) as Hm.
    rewrite Hkeys in Hm. apply take_keys in Hm; [|done]. by rewrite Hm. }
  assert (forall (p : nat) (i : Z), argsort keys !! p = Some i ->
            0 <= i /\ gen ppc' !! p = renumbered !! Z.to_nat i /\
            np.getitem ngp i = Ok (Z.of_nat p)) as Hpos.
  { intros p i Hp.
    assert (0 <= i) as Hi.
    { eapply Forall_lookup_1 in Hr; [|exact Hp]. simpl in Hr. lia. }
    split; [done|]. split.
    - destruct (np_facts.take_lookup _ _ _ _ _ Ht Hp) as (x & Hx & Hgi).
      rewrite Hx. symmetry. by apply np_facts.getitem_nonneg_Ok.
    - eapply new_gen_positions_inverse; [exact Hperm|exact Hput|exact Hp]. }
  split_and!; try done.
  - lia.
  - eapply take_perm; [|exact Ht]. by rewrite Hlr.
  - unfold apply_userfcn. rewrite Hu0, Hu, Hg. by apply Sorted_le_filter.
  - intros Hst i j gi gj Hi Hj Heq Hij.
    assert (forall (k : nat) g, renumbered !! k = Some g ->
              exists p : nat, argsort keys !! p = Some (Z.of_nat k) /\
                              key_at keys (Z.of_nat k) = GEN_BUS g) as Hfind.
    { intros k g Hkg.
      assert (Z.of_nat k ∈ argsort keys) as [p Hp]%list_elem_of_lookup.
      { rewrite Hperm. apply list_elem_of_lookup. exists k.
        apply np_facts.lookup_arange. apply lookup_lt_Some in Hkg. lia. }
      exists p. split; [done|]. unfold key_at. rewrite Nat2Z.id, <- Hkeys.
      erewrite nth_lookup_Some; [done|]. by rewrite list_lookup_fmap, Hkg. }
    destruct (Hfind i gi Hi) as (p & Hp & Hki).
    destruct (Hfind j gj Hj) as (q & Hq & Hkj).
    destruct (Hpos p _ Hp) as (_ & Hgp & Hnp).
    destruct (Hpos q _ Hq) as (_ & Hgq & Hnq).
    rewrite Nat2Z.id in Hgp, Hgq.
    exists p, q. split_and!; try done; [congruence|congruence|].
    eapply (Hst p q); [exact Hp|exact Hq|congruence|lia].
Qed.

(** The two generators of one bus, with the stable sort: they keep their
    order. *)
Lemma C4_gen_reorder_sorted_witness :
  exists ppc' ppci' net',
    _ppc2ppci argsort_stable run_nothing ex_ppc_same_bus ex_ppci ex_net
    = Ok (ppc', ppci', net') /\
    Sorted Z.le (map GEN_BUS (gen ppc')) /\ Sorted Z.le (map GEN_BUS (gen ppci')).
Proof.
  assert (exists ppc' ppci' net',
            _ppc2ppci argsort_stable run_nothing ex_ppc_same_bus ex_ppci ex_net
            = Ok (ppc', ppci', net')) as (ppc' & ppci' & net' & E).
  { eexists _, _, _. vm_compute. reflexivity. }
  exists ppc', ppci', net'. split; [exact E|].
  destruct (C4_gen_reorder_sorted argsort_stable run_nothing ex_ppc_same_bus ex_ppci
              ex_net ppc' ppci' net')
    as (keys & ngp & net1 & _ & _ & _ & H1 & H2 & _).
  - apply argsort_stable_contract.
  - reflexivity.
  - exact E.
  - by split.
Defined.

(** ** C10: the shunt admittance of the external grids *)

(** *** The groups of [_sum_by_group] *)



















(** *** The builder *)

Section ExtGridShunt.

Context (np_sqrt : Q -> Q).

Abbreviation ext_grid_zero := (_add_ext_grid_sc_impedance_zero np_sqrt).



End ExtGridShunt.




(** ** C1: a [YNyn] group of two transformers *)

(** Two transformers with [z0_k = j] and [z0_mag = j]: the first with
    [si0_hv_partial = 0.5], the second with [si0_hv_partial = 0.8]; their
    impedances [za], [zb] of the pi model. *)
Definition ex_z : C := mkC 0 1.
Definition ex_za1 : C := pi_za (1 # 2) ex_z ex_z.
Definition ex_zb1 : C := pi_zb (1 # 2) ex_z ex_z.
Definition ex_za2 : C := pi_za (4 # 5) ex_z ex_z.
Definition ex_zb2 : C := pi_zb (4 # 5) ex_z ex_z.

(** C1 on this group, whose rows of the branch table are 0 and 1, with the
    low-voltage buses 1 and 3 and the high-voltage buses 0 and 2, both in
    service, [int(baseMVA) = 1].  The first transformer has [za == zb] and
    its own [BR_B] would be [-1j / za = -2/5]; the second has [za > zb].
    After the loop of lines 461-486 both rows hold [-5/29], the value of the
    second transformer, and the accumulators hold four entries: zero at the
    low-voltage buses of both transformers, and the shunt admittance of the
    second transformer, [-15/29 j], at the high-voltage buses of both, so also
    at bus 0 of the first transformer. *)
Lemma C1_ynyn_loop_two_transformers :
  exists st',
    ynyn_loop [0; 1] [1; 3] [0; 2] [1; 1] 1 ex_zs [(ex_za1, ex_zb1); (ex_za2, ex_zb2)]
    = Ok st' /\
    Ceqb ex_za1 ex_zb1 = true /\ Cgtb ex_za2 ex_zb2 = true /\
    Ceqb (ynyn_y ex_za1 ex_zb1) (mkC (-2 # 5) 0) = true /\
    Ceqb (ynyn_y ex_za2 ex_zb2) (mkC (-5 # 29) 0) = true /\
    forallb (fun r => Ceqb (BR_B r) (mkC (-5 # 29) 0)) (zs_branch st') = true /\
    length (zs_branch st') = 2%nat /\
    buses_all st' = [1; 3; 0; 2] /\
    map (fun g => Qeq_bool g 0) (gs_all st') = [true; true; true; true] /\
    map (fun b => Qeq_bool b (-15 # 29)) (bs_all st') = [false; false; true; true].
Proof.
  eexists. split; [vm_compute; reflexivity|]. split_and!; vm_compute; reflexivity.
Qed.
